(** * deploy_viewers.py: fan-out of viewer Deployments and Services

    A shallow embedding of [deploy_viewers.py] and the properties of its
    instance materialisation and reconciliation loop.

    - [Py]: the fragments of the Python runtime the script relies on
      (str methods, the dynamically typed values produced by the YAML
      loader, dictionaries with insertion order, exceptions).
    - [K8s]: the calls made on the Kubernetes client and what they answer.
    - [DeployViewers]: [get_available_vpn_configs] and [main].
    - [Observe]: what a run leaves behind, read off the calls it made and
      the lines it printed.
    - [Sample]: a template, a cluster and command lines to run the script on.
    - [PyFacts], [EnvMap]: lemmas on values, paths and the [env_map] dict.
    - [Materializer]: names, labels and environment of one instance.
    - [Reconciler]: create, replace on conflict, skip.
    - [Batch]: the whole run.
    - [Resolver]: the names taken from the ConfigMap keys.
    - [Shape]: templates that can be prepared, and what preparing leaves
      alone.
    - [Setup]: the ways a run stops before the loop.
    - [Trace]: what every run calls and prints, however it ends.
    - [Fleet]: runs on well-formed templates.
    - [Stems]: the keys whose name is their stem.
    - [Raises]: the exceptions a run can end on. *)

From stdpp Require Import base option list strings pretty gmap.
From Stdlib Require Import ZArith Lia Ascii.

Local Open Scope Z_scope.
Local Set Warnings "-register-all".

(* ================================================================== *)
(** * Python runtime *)
(* ================================================================== *)

Module Py.

(** ** Exceptions and the error monad *)

(** The exceptions the script can meet.  [SystemExit] is raised by
    [sys.exit]; [ValueError] by the conversion to str of an int that is too
    long; [RecursionError] by a recursion that goes too deep; [LoadError]
    stands for whatever [open] or [yaml.safe_load_all] raise on an
    unreadable or malformed file. *)
Inductive exn : Type :=
| KeyError (key : string)
| TypeError
| AttributeError
| IndexError
| ValueError
| RecursionError
| LoadError
| SystemExit (code : Z).

(** A computation that returns a value or raises. *)
Inductive result (A : Type) : Type :=
| Ok (a : A)
| Raise (e : exn).
Arguments Ok {A} a.
Arguments Raise {A} e.

#[global] Instance result_ret : MRet result := @Ok.
#[global] Instance result_bind : MBind result := fun A B f r =>
  match r with
  | Ok a => f a
  | Raise e => Raise e
  end.

(** ** str

    A str is a sequence of characters with code points below 256; text
    with other characters is not represented. *)

(** [s.endswith(suffix)] *)
Definition endswith (s suffix : string) : bool :=
  let n := String.length s in
  let m := String.length suffix in
  if decide (m ≤ n)%nat
  then bool_decide (String.substring (n - m) m s = suffix)
  else false.

(** [s.replace(old, new)] for a non-empty [old]: the occurrences of [old]
    are found from left to right and do not overlap.  [skip] counts the
    characters of a match that are still to be dropped. *)
Fixpoint replace_go (old new : string) (skip : nat) (s : string) : string :=
  match s with
  | EmptyString => EmptyString
  | String c s' =>
      match skip with
      | S k => replace_go old new k s'
      | O =>
          if String.prefix old s
          then new +:+ replace_go old new (String.length old - 1) s'
          else String c (replace_go old new O s')
      end
  end.

(** With an empty [old], Python puts [new] before every character and at
    the end. *)
Fixpoint replace_empty (new s : string) : string :=
  match s with
  | EmptyString => new
  | String c s' => new +:+ String c (replace_empty new s')
  end.

Definition replace (s old new : string) : string :=
  match old with
  | EmptyString => replace_empty new s
  | _ => replace_go old new O s
  end.

(** [str(i)] for an int. *)
Definition str_of_nat (i : nat) : string := pretty i.
Definition str_of_Z (z : Z) : string := pretty z.

(** [xs[:n]]: a negative [n] counts from the end. *)
Definition slice_to {A} (xs : list A) (n : Z) : list A :=
  if decide (0 ≤ n)
  then take (Z.to_nat n) xs
  else take (length xs - Z.to_nat (- n)) xs.

(** [range(n)] *)
Definition range (n : Z) : list nat := seq 0 (Z.to_nat n).

(** [xs[i]] for [0 <= i]. *)
Definition index {A} (xs : list A) (i : nat) : result A :=
  match xs !! i with
  | Some x => Ok x
  | None => Raise IndexError
  end.


(** ** Values

    What [yaml.safe_load_all] hands to the script, and what the script
    builds itself: [None], bools, ints, strs, lists, and dicts in insertion
    order.  The keys of a dict are strs, as in a Kubernetes manifest; YAML
    floats and timestamps are not represented.  A loaded document is a
    tree: no two places of it are the same object. *)
Inductive value : Type :=
| VNone
| VBool (b : bool)
| VInt (z : Z)
| VStr (s : string)
| VList (items : list value)
| VDict (entries : list (string * value)).

#[global] Instance value_inhabited : Inhabited value := populate VNone.

(** Truth value of an object, as [if x] and [x and ...] test it. *)
Definition truthy (v : value) : bool :=
  match v with
  | VNone => false
  | VBool b => b
  | VInt z => negb (z =? 0)
  | VStr s => negb (bool_decide (s = EmptyString))
  | VList items => negb (bool_decide (items = []))
  | VDict entries => negb (bool_decide (entries = []))
  end.

(** [v == s] for a str literal [s]. *)
Definition eq_str (v : value) (s : string) : bool :=
  match v with
  | VStr s' => bool_decide (s' = s)
  | _ => false
  end.

(** *** Dictionaries in insertion order *)

Fixpoint dict_lookup {V} (k : string) (d : list (string * V)) : option V :=
  match d with
  | [] => None
  | (k', v) :: d' => if decide (k' = k) then Some v else dict_lookup k d'
  end.

(** [d[k] = v]: an existing key keeps its place, a new key goes last. *)
Fixpoint dict_set {V} (k : string) (v : V) (d : list (string * V)) : list (string * V) :=
  match d with
  | [] => [(k, v)]
  | (k', v') :: d' =>
      if decide (k' = k) then (k', v) :: d' else (k', v') :: dict_set k v d'
  end.

(** [o[k]] for a str [k]. *)
Definition getitem (o : value) (k : string) : result value :=
  match o with
  | VDict d =>
      match dict_lookup k d with
      | Some v => Ok v
      | None => Raise (KeyError k)
      end
  | _ => Raise TypeError
  end.

(** [o.get(k, dflt)]: only a dict has the method. *)
Definition get (o : value) (k : string) (dflt : value) : result value :=
  match o with
  | VDict d => Ok (default dflt (dict_lookup k d))
  | _ => Raise AttributeError
  end.

(** [o[k] = v] for a str [k]; the result is [o] after the assignment. *)
Definition setitem (o : value) (k : string) (v : value) : result value :=
  match o with
  | VDict d => Ok (VDict (dict_set k v d))
  | _ => Raise TypeError
  end.

(** [o.setdefault(k, dflt)]; the result is [o] after the call, the
    object the call returns is then [o[k]]. *)
Definition setdefault (o : value) (k : string) (dflt : value) : result value :=
  match o with
  | VDict d =>
      match dict_lookup k d with
      | Some _ => Ok o
      | None => Ok (VDict (dict_set k dflt d))
      end
  | _ => Raise AttributeError
  end.

(** What [for x in o] goes through: the items of a list, the keys of a
    dict, the characters of a str. *)
Definition iterate (o : value) : result (list value) :=
  match o with
  | VList items => Ok items
  | VDict d => Ok (map (fun kv => VStr kv.1) d)
  | VStr s => Ok (map (fun c => VStr (String c EmptyString)) (String.list_ascii_of_string s))
  | _ => Raise TypeError
  end.

(** *** Objects reached through a path of keys

    [root[k1][k2]...] evaluates to an object inside [root]; a statement that
    changes that object changes [root].  [update_at path f root] is [root]
    after the object at [path] went through [f], with what [f] returned. *)
Definition put (o : value) (k : string) (v : value) : value :=
  match o with
  | VDict d => VDict (dict_set k v d)
  | _ => o
  end.

Fixpoint update_at {A} (path : list string) (f : value → result (value * A))
    (root : value) : result (value * A) :=
  match path with
  | [] => f root
  | k :: path' =>
      child ← getitem root k;
      '(child', a) ← update_at path' f child;
      Ok (put root k child', a)
  end.

Fixpoint getitem_at (path : list string) (root : value) : result value :=
  match path with
  | [] => Ok root
  | k :: path' => child ← getitem root k; getitem_at path' child
  end.

(** [root[path].get(k, dflt)] *)
Definition get_at (path : list string) (k : string) (dflt root : value) : result value :=
  o ← getitem_at path root; get o k dflt.

(** [root[path][k] = v] *)
Definition setitem_at (path : list string) (k : string) (v root : value) : result value :=
  r ← update_at path (fun o => o' ← setitem o k v; Ok (o', ())) root; Ok r.1.

(** [root[path].setdefault(k, dflt)] *)
Definition setdefault_at (path : list string) (k : string) (dflt root : value) : result value :=
  r ← update_at path (fun o => o' ← setdefault o k dflt; Ok (o', ())) root; Ok r.1.

(** *** Dictionaries keyed by any hashable object

    [env_map] in [main] is keyed by whatever [ev['name']] is.  Lists and
    dicts are not hashable; an int and a bool of the same number are the
    same key. *)
Definition hashable (v : value) : bool :=
  match v with
  | VList _ | VDict _ => false
  | _ => true
  end.

Definition key_eqb (a b : value) : bool :=
  match a, b with
  | VNone, VNone => true
  | VStr x, VStr y => bool_decide (x = y)
  | VInt x, VInt y => x =? y
  | VBool x, VBool y => bool_decide (x = y)
  | VInt x, VBool y | VBool y, VInt x => x =? (if y then 1 else 0)
  | _, _ => false
  end.

Fixpoint map_set (k v : value) (m : list (value * value)) : list (value * value) :=
  match m with
  | [] => [(k, v)]
  | (k', v') :: m' =>
      if key_eqb k' k then (k', v) :: m' else (k', v') :: map_set k v m'
  end.

(** [m.get(k)] *)
Fixpoint map_get (k : value) (m : list (value * value)) : option value :=
  match m with
  | [] => None
  | (k', v') :: m' => if key_eqb k' k then Some v' else map_get k m'
  end.

(** ** str() and repr() *)

Definition hex_digit (n : nat) : ascii :=
  match n with
  | 0 => "0" | 1 => "1" | 2 => "2" | 3 => "3" | 4 => "4" | 5 => "5"
  | 6 => "6" | 7 => "7" | 8 => "8" | 9 => "9" | 10 => "a" | 11 => "b"
  | 12 => "c" | 13 => "d" | 14 => "e" | _ => "f"
  end%nat%char.

Definition quote1 : ascii := "'"%char.
Definition quote2 : ascii := Ascii.ascii_of_nat 34.
Definition backslash : ascii := "\"%char.

Fixpoint contains_char (c : ascii) (s : string) : bool :=
  match s with
  | EmptyString => false
  | String c' s' => bool_decide (c' = c) || contains_char c s'
  end.

(** [c.isprintable()] for a code point below 256: the control characters
    (0 to 31 and 127 to 159), the no-break space (160) and the soft hyphen
    (173) are not printable. *)
Definition isprintable (c : ascii) : bool :=
  let n := Ascii.nat_of_ascii c in
  negb (bool_decide (n < 32)%nat
        || (bool_decide (127 ≤ n)%nat && bool_decide (n ≤ 160)%nat)
        || bool_decide (n = 173%nat)).

(** The body of [repr(s)] between its quotes: the quote and the backslash
    are escaped, tab, newline and carriage return have their letter, and
    every other character that is not printable is written [\xNN]. *)
Fixpoint repr_chars (q : ascii) (s : string) : string :=
  match s with
  | EmptyString => EmptyString
  | String c s' =>
      let n := Ascii.nat_of_ascii c in
      let rest := repr_chars q s' in
      if bool_decide (c = q) || bool_decide (c = backslash)
      then String backslash (String c rest)
      else if bool_decide (n = 9%nat) then String backslash (String "t" rest)
      else if bool_decide (n = 10%nat) then String backslash (String "n" rest)
      else if bool_decide (n = 13%nat) then String backslash (String "r" rest)
      else if negb (isprintable c)
      then String backslash (String "x"
             (String (hex_digit (n / 16)) (String (hex_digit (n mod 16)) rest)))
      else String c rest
  end.

Definition repr_str (s : string) : string :=
  let q := if contains_char quote1 s && negb (contains_char quote2 s)
           then quote2 else quote1 in
  String q (repr_chars q s +:+ String q EmptyString).

Fixpoint join (sep : string) (xs : list string) : string :=
  match xs with
  | [] => EmptyString
  | [x] => x
  | x :: xs' => x +:+ sep +:+ join sep xs'
  end.

Fixpoint repr (v : value) : string :=
  match v with
  | VNone => "None"
  | VBool true => "True"
  | VBool false => "False"
  | VInt z => str_of_Z z
  | VStr s => repr_str s
  | VList items => "[" +:+ join ", " (map repr items) +:+ "]"
  | VDict d =>
      "{" +:+ join ", " (map (fun kv => repr_str kv.1 +:+ ": " +:+ repr kv.2) d) +:+ "}"
  end.

(** The text of [f"{v}"], when the conversion goes through: a str as it
    is, any other object by its [repr]. *)
Definition format (v : value) : string :=
  match v with
  | VStr s => s
  | _ => repr v
  end.

(** CPython refuses to convert an int of more than 4300 digits, the sign
    apart, to a str ([sys.int_info.default_max_str_digits]). *)
Definition max_str_digits : nat := 4300.

Definition int_renders (z : Z) : bool :=
  bool_decide (String.length (str_of_Z (Z.abs z)) ≤ max_str_digits)%nat.

(** No int inside [v] is too long for [str] and [repr]. *)
Fixpoint renders (v : value) : bool :=
  match v with
  | VInt z => int_renders z
  | VList items => forallb renders items
  | VDict d => forallb (fun kv => renders kv.2) d
  | _ => true
  end.

(** [f"{v}"]: raises [ValueError] on an int that is too long, also inside
    a list or a dict. *)
Definition fstring (v : value) : result string :=
  if renders v then Ok (format v) else Raise ValueError.

End Py.

(* ================================================================== *)
(** * The Kubernetes client *)
(* ================================================================== *)

Module K8s.
Import Py.

(** The calls the script makes, with their keyword arguments.  [body] is
    the manifest as it stands when the call is made. *)
Inductive api_call : Type :=
| read_namespaced_config_map (name namespace : string)
| create_namespaced_deployment (namespace : string) (body : value)
| replace_namespaced_deployment (name namespace : string) (body : value)
| create_namespaced_service (namespace : string) (body : value).

(** A write returns, or raises [client.ApiException] with an HTTP status. *)
Inductive api_response : Type :=
| ApiOk
| ApiException (status : Z).

(** A ConfigMap read returns the object, whose [data] is a dict from str
    to str or [None], or raises [client.ApiException]. *)
Inductive config_map_response : Type :=
| ConfigMap (data : option (list (string * string)))
| ConfigMapException (status : Z).

(** The cluster as the script meets it.  The answer to a write may depend
    on every call made before it. *)
Record cluster : Type := {
  config_maps : string → string → config_map_response;
  respond : list api_call → api_call → api_response;
}.

End K8s.

(* ================================================================== *)
(** * deploy_viewers.py *)
(* ================================================================== *)

Module DeployViewers.
Import Py K8s.

(** The parsed command line.  The two counts are what [int] made of the
    text on the command line: decimal numbers of at most 4300 digits, so
    that the messages which print them never fail. *)
Record arguments : Type := {
  stream_url : string;
  num_deployments : Z;
  template_file : string;
  namespace : string;
  vpn_configmap_name : string;
  replicas_per_deployment : Z;
}.

(** What the script finds around it: whether each way of loading the
    Kubernetes configuration works, what [load_template] returns, and the
    cluster. *)
Record environment : Type := {
  kube_config : bool;
  incluster_config : bool;
  template_documents : result (list value);
  the_cluster : cluster;
}.

(** One constructor per [print] of the script. *)
Inductive message : Type :=
| warn_no_ovpn_keys (config_map_name : string)
| err_config_map_not_found (config_map_name namespace : string)
| hint_ensure_config_map
| hint_config_map_entries
| err_fetching_config_map (config_map_name : string) (status : Z)
| err_config_map_no_data (config_map_name namespace : string)
| err_kube_config
| err_no_deployment_definition (template_file : string)
| err_no_vpn_configurations (config_map_name : string)
| err_not_enough_vpns (requested : Z) (available : nat)
| warn_container_not_found (deployment_name : string)
| deployment_created (deployment_name vpn : string)
| deployment_replaced (deployment_name vpn : string)
| err_replacing_deployment (deployment_name : string) (status : Z)
| err_creating_deployment (deployment_name : string) (status : Z)
| service_created (service_name : string)
| service_exists_skipping (service_name : string)
| err_creating_service (service_name : string) (status : Z)
| separator
| successfully_processed (count : Z).

(** ** The state of a run

    [objects] holds the mutable objects the run has created: a variable
    refers to an object through its index, so two variables with the same
    index are the same object.  An object is a whole document, one that
    [yaml.safe_load_all] produced or a deep copy of one, and its parts are
    reached from it by the keys the script indexes; a document is a tree,
    that is, the template uses no YAML alias that would make two of its
    parts one object.  [calls] and [output] grow at the end. *)
Record world : Type := {
  objects : list value;
  calls : list api_call;
  output : list message;
}.

Definition M (A : Type) : Type := world → result A * world.

#[global] Instance M_ret : MRet M := fun A a w => (Ok a, w).
#[global] Instance M_bind : MBind M := fun A B f m w =>
  match m w with
  | (Ok a, w') => f a w'
  | (Raise e, w') => (Raise e, w')
  end.

Definition lift {A} (r : result A) : M A := fun w => (r, w).

Definition print (m : message) : M () := fun w =>
  (Ok (), {| objects := objects w; calls := calls w; output := output w ++ [m] |}).

Definition sys_exit {A} (code : Z) : M A := lift (Raise (SystemExit code)).

(** A new object holding [v]. *)
Definition allocate (v : value) : M nat := fun w =>
  (Ok (length (objects w)),
   {| objects := objects w ++ [v]; calls := calls w; output := output w |}).

(** The object behind a reference. *)
Definition deref (o : nat) : M value := fun w => (Ok (objects w !!! o), w).

(** [copy.deepcopy(o)]: a new object with the contents of [o]. *)
Definition deepcopy (o : nat) : M nat := v ← deref o; allocate v.

(** Statements that change the object [o] in place: [f] is their effect on
    its contents.  When one of them raises, the run is over and nothing
    looks at [o] again. *)
Definition mutate {A} (o : nat) (f : value → result (value * A)) : M A := fun w =>
  match f (objects w !!! o) with
  | Ok (v, a) =>
      (Ok a, {| objects := <[o := v]> (objects w); calls := calls w; output := output w |})
  | Raise e => (Raise e, w)
  end.

(** A write on the cluster: logged, then answered. *)
Definition call (c : cluster) (request : api_call) : M api_response := fun w =>
  (Ok (respond c (calls w) request),
   {| objects := objects w; calls := calls w ++ [request]; output := output w |}).

Definition call_read_config_map (c : cluster) (name ns : string) : M config_map_response :=
  fun w =>
  (Ok (config_maps c name ns),
   {| objects := objects w;
      calls := calls w ++ [read_namespaced_config_map name ns];
      output := output w |}).

(** [for x in xs: body(x)] *)
Fixpoint for_each {A} (xs : list A) (body : A → M ()) : M () :=
  match xs with
  | [] => mret ()
  | x :: xs' => body x;; for_each xs' body
  end.

(** ** get_available_vpn_configs *)

(** Line 19: the names kept from the keys of the ConfigMap. *)
Definition vpn_names_of_keys (keys : list string) : list string :=
  map (fun key => replace key ".ovpn" EmptyString)
      (filter (fun key => endswith key ".ovpn" = true) keys).

Definition get_available_vpn_configs (c : cluster) (namespace config_map_name : string)
  : M (list string) :=
  config_map ← call_read_config_map c config_map_name namespace;
  match config_map with
  | ConfigMap (Some data) =>
      let vpn_names := vpn_names_of_keys (map fst data) in
      (if bool_decide (vpn_names = [])
       then print (warn_no_ovpn_keys config_map_name)
       else mret ());;
      mret vpn_names
  | ConfigMap None =>
      print (err_config_map_no_data config_map_name namespace);;
      sys_exit 1
  | ConfigMapException status =>
      (if status =? 404
       then print (err_config_map_not_found config_map_name namespace);;
            print hint_ensure_config_map;;
            print hint_config_map_entries
       else print (err_fetching_config_map config_map_name status));;
      sys_exit 1
  end.

(** ** main *)

(** Lines 61-62: [next((tpl for tpl in templates if tpl and
    tpl.get("kind") == kind), None)], as the index of the document. *)
Fixpoint find_kind (kind : string) (first : nat) (templates : list value)
  : result (option nat) :=
  match templates with
  | [] => Ok None
  | tpl :: rest =>
      if truthy tpl
      then k ← get tpl "kind" VNone;
           if eq_str k kind then Ok (Some first) else find_kind kind (S first) rest
      else find_kind kind (S first) rest
  end.

(** Line 112: [{ev['name']: ev for ev in env_vars}] *)
Fixpoint env_map_of (env_vars : list value) (env_map : list (value * value))
  : result (list (value * value)) :=
  match env_vars with
  | [] => Ok env_map
  | ev :: rest =>
      name ← getitem ev "name";
      if hashable name
      then env_map_of rest (map_set name ev env_map)
      else Raise TypeError
  end.

Definition env_entry (name value_ : string) : value :=
  VDict [("name", VStr name); ("value", VStr value_)].

(** Lines 110-118, on the container whose name matched. *)
Definition set_env (box_name stream vpn_config_name : string) (container : value)
  : result value :=
  env_vars ← get container "env" (VList []);
  evs ← iterate env_vars;
  env_map ← env_map_of evs [];
  let env_map := map_set (VStr "BOX_NAME") (env_entry "BOX_NAME" box_name) env_map in
  let env_map := map_set (VStr "STREAM_URL") (env_entry "STREAM_URL" stream) env_map in
  let env_map := map_set (VStr "VPN_CONFIG") (env_entry "VPN_CONFIG" vpn_config_name) env_map in
  setitem container "env" (VList (map snd env_map)).

(** Lines 107-120: the loop over the containers, which stops at the first
    one named [viewer-box].  The result is the containers after the loop
    and [container_updated]. *)
Fixpoint update_containers (box_name stream vpn_config_name : string)
    (containers : list value) : result (list value * bool) :=
  match containers with
  | [] => Ok ([], false)
  | container :: rest =>
      name ← getitem container "name";
      if eq_str name "viewer-box"
      then container' ← set_env box_name stream vpn_config_name container;
           Ok (container' :: rest, true)
      else '(rest', updated) ← update_containers box_name stream vpn_config_name rest;
           Ok (container :: rest', updated)
  end.

(** The [for] of line 108 on whatever [containers] is: the items of a
    list are objects of the manifest and change in place; the keys of a
    dict and the characters of a str are not. *)
Definition for_containers (box_name stream vpn_config_name : string)
    (containers : value) : result (value * bool) :=
  match containers with
  | VList items =>
      '(items', updated) ← update_containers box_name stream vpn_config_name items;
      Ok (VList items', updated)
  | _ =>
      items ← iterate containers;
      '(_, updated) ← update_containers box_name stream vpn_config_name items;
      Ok (containers, updated)
  end.

(** What lines 83-120 leave in the local variables. *)
Record prepared : Type := {
  new_deployment_name : string;
  new_component_label : string;
  container_updated : bool;
}.

(** Lines 83-120 as the change they make to [current_deployment]. *)
Definition prepare_deployment (args : arguments) (i : nat) (vpn_config_name : string)
    (current_deployment : value) : result (value * prepared) :=
  let instance_suffix := "-" +:+ str_of_nat i in
  original_deployment_name ←
    get_at ["metadata"] "name" (VStr "viewer-deployment") current_deployment;
  name_text ← fstring original_deployment_name;
  let new_deployment_name := name_text +:+ instance_suffix in
  original_component_label ←
    get_at ["spec"; "selector"; "matchLabels"] "component" (VStr "viewer")
      current_deployment;
  label_text ← fstring original_component_label;
  let new_component_label := label_text +:+ instance_suffix in
  current_deployment ←
    setitem_at ["metadata"] "name" (VStr new_deployment_name) current_deployment;
  current_deployment ←
    setdefault_at ["metadata"] "labels" (VDict []) current_deployment;
  current_deployment ←
    setitem_at ["metadata"; "labels"] "deployment-instance" (VStr (str_of_nat i))
      current_deployment;
  current_deployment ←
    setitem_at ["spec"] "replicas" (VInt (replicas_per_deployment args))
      current_deployment;
  current_deployment ←
    setitem_at ["spec"; "selector"; "matchLabels"] "component"
      (VStr new_component_label) current_deployment;
  current_deployment ←
    setitem_at ["spec"; "selector"; "matchLabels"] "deployment-instance"
      (VStr (str_of_nat i)) current_deployment;
  current_deployment ←
    setdefault_at ["spec"; "template"; "metadata"] "labels" (VDict [])
      current_deployment;
  current_deployment ←
    setitem_at ["spec"; "template"; "metadata"; "labels"] "component"
      (VStr new_component_label) current_deployment;
  current_deployment ←
    setitem_at ["spec"; "template"; "metadata"; "labels"] "deployment-instance"
      (VStr (str_of_nat i)) current_deployment;
  '(current_deployment, container_updated) ←
    update_at ["spec"; "template"; "spec"; "containers"]
      (for_containers ("box" +:+ instance_suffix) (stream_url args) vpn_config_name)
      current_deployment;
  Ok (current_deployment,
      {| new_deployment_name := new_deployment_name;
         new_component_label := new_component_label;
         container_updated := container_updated |}).

(** Lines 141-148 as the change they make to [current_service]; the result
    carries [new_service_name]. *)
Definition prepare_service (i : nat) (new_component_label : string)
    (current_service : value) : result (value * string) :=
  let instance_suffix := "-" +:+ str_of_nat i in
  original_service_name ←
    get_at ["metadata"] "name" (VStr "viewer-service") current_service;
  name_text ← fstring original_service_name;
  let new_service_name := name_text +:+ instance_suffix in
  current_service ←
    setitem_at ["metadata"] "name" (VStr new_service_name) current_service;
  current_service ←
    setdefault_at ["metadata"] "labels" (VDict []) current_service;
  current_service ←
    setitem_at ["metadata"; "labels"] "deployment-instance" (VStr (str_of_nat i))
      current_service;
  current_service ←
    setitem_at ["spec"; "selector"] "component" (VStr new_component_label)
      current_service;
  current_service ←
    setitem_at ["spec"; "selector"] "deployment-instance" (VStr (str_of_nat i))
      current_service;
  Ok (current_service, new_service_name).

(** Lines 125-136: create the Deployment, replace it on a conflict. *)
Definition apply_deployment (c : cluster) (ns new_deployment_name vpn_config_name : string)
    (current_deployment : value) : M () :=
  created ← call c (create_namespaced_deployment ns current_deployment);
  match created with
  | ApiOk => print (deployment_created new_deployment_name vpn_config_name)
  | ApiException status =>
      if status =? 409
      then
        replaced ← call c (replace_namespaced_deployment new_deployment_name ns
                             current_deployment);
        match replaced with
        | ApiOk => print (deployment_replaced new_deployment_name vpn_config_name)
        | ApiException status_replace =>
            print (err_replacing_deployment new_deployment_name status_replace)
        end
      else print (err_creating_deployment new_deployment_name status)
  end.

(** Lines 150-160: create the Service, leave it alone on a conflict. *)
Definition apply_service (c : cluster) (ns new_service_name : string)
    (current_service : value) : M () :=
  created ← call c (create_namespaced_service ns current_service);
  match created with
  | ApiOk => print (service_created new_service_name)
  | ApiException status =>
      if status =? 409
      then print (service_exists_skipping new_service_name)
      else print (err_creating_service new_service_name status)
  end.

(** Lines 81-136: the Deployment of instance [i]. *)
Definition deploy_instance (args : arguments) (c : cluster)
    (base_deployment_template : nat) (selected_vpns : list string) (i : nat)
  : M prepared :=
  vpn_config_name ← lift (index selected_vpns i);
  current_deployment ← deepcopy base_deployment_template;
  p ← mutate current_deployment (prepare_deployment args i vpn_config_name);
  (if container_updated p then mret ()
   else print (warn_container_not_found (new_deployment_name p)));;
  body ← deref current_deployment;
  apply_deployment c (namespace args) (new_deployment_name p) vpn_config_name body;;
  mret p.

(** Lines 139-160: its Service, when the file has one. *)
Definition expose_instance (args : arguments) (c : cluster)
    (base_service_template : option nat) (i : nat) (new_component_label : string)
  : M () :=
  match base_service_template with
  | Some base_service =>
      current_service ← deepcopy base_service;
      new_service_name ←
        mutate current_service (prepare_service i new_component_label);
      body ← deref current_service;
      apply_service c (namespace args) new_service_name body
  | None => mret ()
  end.

(** Lines 81-162: one turn of the loop. *)
Definition instance (args : arguments) (c : cluster)
    (base_deployment_template : nat) (base_service_template : option nat)
    (selected_vpns : list string) (i : nat) : M () :=
  p ← deploy_instance args c base_deployment_template selected_vpns i;
  expose_instance args c base_service_template i (new_component_label p);;
  print separator.

(** Lines 47-54. *)
Definition load_configuration (env : environment) : M () :=
  if kube_config env then mret ()
  else if incluster_config env then mret ()
  else print err_kube_config;; sys_exit 1.

(** Line 60: the documents of the file become objects of the run;
    [templates] is the list of their references. *)
Definition load_template (env : environment) : M (list nat) := fun w =>
  match template_documents env with
  | Ok documents =>
      (Ok (seq (length (objects w)) (length documents)),
       {| objects := objects w ++ documents; calls := calls w; output := output w |})
  | Raise e => (Raise e, w)
  end.

(** The objects behind a list of references. *)
Definition deref_all (os : list nat) : M (list value) := fun w =>
  (Ok (map (fun o => objects w !!! o) os), w).

(** Lines 70-164: the checks on the names found, the loop, the last
    message. *)
Definition provision (args : arguments) (c : cluster)
    (base_deployment_template : nat) (base_service_template : option nat)
    (available_vpns : list string) : M () :=
  if bool_decide (available_vpns = [])
  then print (err_no_vpn_configurations (vpn_configmap_name args));;
       sys_exit 1
  else if bool_decide (Z.of_nat (length available_vpns) < num_deployments args)
  then print (err_not_enough_vpns (num_deployments args) (length available_vpns));;
       sys_exit 1
  else
    let selected_vpns := slice_to available_vpns (num_deployments args) in
    for_each (range (num_deployments args))
      (instance args c base_deployment_template base_service_template selected_vpns);;
    print (successfully_processed (num_deployments args)).

Definition main (args : arguments) (env : environment) : M () :=
  load_configuration env;;
  templates ← load_template env;
  documents ← deref_all templates;
  found ← lift (find_kind "Deployment" 0 documents);
  let base_deployment_template := (fun k => templates !!! k) <$> found in
  found ← lift (find_kind "Service" 0 documents);
  let base_service_template := (fun k => templates !!! k) <$> found in
  match base_deployment_template with
  | None =>
      print (err_no_deployment_definition (template_file args));;
      sys_exit 1
  | Some base_deployment_template =>
      available_vpns ←
        get_available_vpn_configs (the_cluster env) (namespace args)
          (vpn_configmap_name args);
      provision args (the_cluster env) base_deployment_template
        base_service_template available_vpns
  end.

(** A run starts with no object, no call made and nothing printed. *)
Definition initial : world := {| objects := []; calls := []; output := [] |}.

Definition run (args : arguments) (env : environment) : result () * world :=
  main args env initial.

(** The exit status of the process: 0 when [main] returns, the argument of
    [sys.exit], 1 for an exception nobody catches. *)
Definition exit_status (r : result ()) : Z :=
  match r with
  | Ok _ => 0
  | Raise (SystemExit code) => code
  | Raise _ => 1
  end.

End DeployViewers.

(* ================================================================== *)
(** * What a run or a manifest lets one observe *)
(* ================================================================== *)

Module Observe.
Import Py K8s DeployViewers.

(** The manifests the run asked the cluster to create, in call order. *)
Definition created_deployments (cs : list api_call) : list value :=
  omap (fun c => match c with
                 | create_namespaced_deployment _ body => Some body
                 | _ => None
                 end) cs.

Definition created_services (cs : list api_call) : list value :=
  omap (fun c => match c with
                 | create_namespaced_service _ body => Some body
                 | _ => None
                 end) cs.

(** Creations and replacements, as opposed to the ConfigMap read. *)
Definition is_write (c : api_call) : bool :=
  match c with
  | read_namespaced_config_map _ _ => false
  | _ => true
  end.

Definition is_separator (m : message) : bool :=
  match m with
  | separator => true
  | _ => false
  end.

Definition is_container_warning (m : message) : bool :=
  match m with
  | warn_container_not_found _ => true
  | _ => false
  end.

Definition containers_path : list string := ["spec"; "template"; "spec"; "containers"].
Definition selector_path : list string := ["spec"; "selector"; "matchLabels"].
Definition pod_labels_path : list string := ["spec"; "template"; "metadata"; "labels"].
Definition service_selector_path : list string := ["spec"; "selector"].

(** [manifest[path][key]], a label of the manifest. *)
Definition label (path : list string) (key : string) (manifest : value) : result value :=
  o ← getitem_at path manifest; getitem o key.

(** The test of line 109. *)
Definition is_viewer_box (container : value) : bool :=
  match getitem container "name" with
  | Ok name => eq_str name "viewer-box"
  | Raise _ => false
  end.

(** [ev] is an entry of an [env] list for the variable [name]: its name is
    the same dictionary key as [name]. *)
Definition named (name : value) (ev : value) : bool :=
  match getitem ev "name" with
  | Ok v => key_eqb v name
  | Raise _ => false
  end.

(** The entries for the variable [name]. *)
Definition entries_for (name : value) (env : list value) : list value :=
  filter (fun ev => named name ev = true) env.

(** The entry that counts for [name] where the list names it more than
    once: the last one, as in the dict of line 112. *)
Definition binding (name : value) (env : list value) : option value :=
  last (entries_for name env).

(** The [env] list of the first container named [viewer-box]. *)
Definition viewer_box_env (manifest : value) : option (list value) :=
  match getitem_at containers_path manifest with
  | Ok (VList containers) =>
      match list_find (fun c => is_viewer_box c = true) containers with
      | Some (_, container) =>
          match getitem container "env" with
          | Ok (VList env) => Some env
          | _ => None
          end
      | None => None
      end
  | _ => None
  end.

(** The [VPN_CONFIG] a manifest gives to its [viewer-box]. *)
Definition assigned_vpn (manifest : value) : option value :=
  env ← viewer_box_env manifest;
  ev ← binding (VStr "VPN_CONFIG") env;
  match getitem ev "value" with
  | Ok v => Some v
  | Raise _ => None
  end.

Definition manifest_name (manifest : value) : option value :=
  match getitem_at ["metadata"; "name"] manifest with
  | Ok v => Some v
  | Raise _ => None
  end.

(** [w] with more calls and more output. *)
Definition extend (w : world) (cs : list api_call) (ms : list message) : world :=
  {| objects := objects w; calls := calls w ++ cs; output := output w ++ ms |}.

(** The Deployment a message reports on, for the four messages of lines
    127-136. *)
Definition deployment_outcome (m : message) : option string :=
  match m with
  | deployment_created name _ | deployment_replaced name _
  | err_replacing_deployment name _ | err_creating_deployment name _ => Some name
  | _ => None
  end.

(** The same for the three messages of lines 152-160. *)
Definition service_outcome (m : message) : option string :=
  match m with
  | service_created name | service_exists_skipping name
  | err_creating_service name _ => Some name
  | _ => None
  end.

(** The calls [cs] create the manifests [deployments] and [services], and
    the messages [ms] report on the Deployments [dnames] and the Services
    [snames], with no separator and no warning among them. *)
Definition reports (cs : list api_call) (ms : list message)
    (deployments services : list value) (dnames snames : list string) : Prop :=
  created_deployments cs = deployments ∧ created_services cs = services ∧
  omap deployment_outcome ms = dnames ∧ omap service_outcome ms = snames ∧
  filter (fun m => is_separator m = true) ms = [] ∧
  filter (fun m => is_container_warning m = true) ms = [].

(** The message of line 123, when there is one. *)
Definition warning (p : prepared) : list message :=
  if container_updated p then [] else [warn_container_not_found (new_deployment_name p)].

(** The manifests of instance [i], when preparing them raises nothing. *)
Definition deployment_manifest (args : arguments) (template : value) (i : nat)
    (vpn : string) : option (value * prepared) :=
  match prepare_deployment args i vpn template with
  | Ok r => Some r
  | Raise _ => None
  end.

Definition service_manifest (template : value) (i : nat) (label : string)
  : option (value * string) :=
  match prepare_service i label template with
  | Ok r => Some r
  | Raise _ => None
  end.

(** The manifests of instance [i] of a run that selected the names
    [selected]. *)
Definition deployment_of (args : arguments) (template : value) (selected : list string)
    (i : nat) : option (value * prepared) :=
  vpn ← selected !! i; deployment_manifest args template i vpn.

Definition service_of (args : arguments) (template service : value)
    (selected : list string) (i : nat) : option (value * string) :=
  r ← deployment_of args template selected i;
  service_manifest service i (new_component_label r.2).

(** What one turn of a run on the templates [template] and [service]
    leaves in the calls [cs] and the messages [ms]: the creation of its
    Deployment and of its Service, one message on each, one separator. *)
Definition turn_reports (args : arguments) (template : value) (service : option value)
    (selected : list string) (i : nat) (cs : list api_call) (ms : list message) : Prop :=
  ∃ d p,
    deployment_of args template selected i = Some (d, p) ∧
    created_deployments cs = [d] ∧
    omap deployment_outcome ms = [new_deployment_name p] ∧
    filter (fun m => is_separator m = true) ms = [separator] ∧
    filter (fun m => is_container_warning m = true) ms = warning p ∧
    match service with
    | Some s =>
        ∃ s' name,
          service_of args template s selected i = Some (s', name) ∧
          created_services cs = [s'] ∧ omap service_outcome ms = [name]
    | None => created_services cs = [] ∧ omap service_outcome ms = []
    end.

(** The same for the turns [turns], one after the other. *)
Fixpoint batch_reports (args : arguments) (template : value) (service : option value)
    (selected : list string) (turns : list nat) (cs : list api_call) (ms : list message)
  : Prop :=
  match turns with
  | [] => cs = [] ∧ ms = []
  | i :: turns' =>
      ∃ cs1 ms1 cs2 ms2,
        cs = cs1 ++ cs2 ∧ ms = ms1 ++ ms2 ∧
        turn_reports args template service selected i cs1 ms1 ∧
        batch_reports args template service selected turns' cs2 ms2
  end.

(** From [w] to [w'] objects were added, calls made and messages printed,
    and nothing that was there has changed. *)
Definition grows (w w' : world) : Prop :=
  ∃ copies cs ms,
    objects w' = objects w ++ copies ∧
    calls w' = calls w ++ cs ∧
    output w' = output w ++ ms.

(** A computation that only adds to the world, whether it returns or
    raises. *)
Definition additive {A} (m : M A) : Prop :=
  ∀ w r w', m w = (r, w') → grows w w'.

(** An [env_map] as line 112 builds it: every key is the name of its entry,
    up to the equality of keys, and no two keys are equal. *)
Fixpoint wf (m : list (value * value)) : Prop :=
  match m with
  | [] => True
  | (k, v) :: m' =>
      (∃ k', getitem v "name" = Ok k' ∧ key_eqb k k' = true) ∧
      map_get k m' = None ∧ wf m'
  end.

(** No dot in [s]. *)
Fixpoint dotless (s : string) : bool :=
  match s with
  | EmptyString => true
  | String c s' => negb (bool_decide (c = "."%char)) && dotless s'
  end.

(** [s.removesuffix(suffix)]: [s] without its last [len(suffix)] characters
    when it ends with [suffix], and nothing else changed. *)
Definition removesuffix (s suffix : string) : string :=
  if endswith s suffix
  then String.substring 0 (String.length s - String.length suffix) s
  else s.

(** [sub in s] *)
Fixpoint contains (sub s : string) : bool :=
  String.prefix sub s ||
  match s with
  | EmptyString => false
  | String _ s' => contains sub s'
  end.

(** Two paths part ways at some key: neither object is inside the other. *)
Fixpoint diverge (p q : list string) : bool :=
  match p, q with
  | k1 :: p', k2 :: q' => if decide (k1 = k2) then diverge p' q' else true
  | _, _ => false
  end.

(** The run gets as far as the loop is concerned: the configuration loads,
    the file holds the documents [docs] with a Deployment at index [dep]
    and possibly a Service at [svc], and the ConfigMap read answers with
    data whose keys give the names [pool]. *)
Definition resolves (args : arguments) (env : environment) (docs : list value)
    (dep : nat) (svc : option nat) (pool : list string) : Prop :=
  (kube_config env || incluster_config env) = true ∧
  template_documents env = Ok docs ∧
  find_kind "Deployment" 0 docs = Ok (Some dep) ∧
  find_kind "Service" 0 docs = Ok svc ∧
  ∃ data,
    config_maps (the_cluster env) (vpn_configmap_name args) (namespace args)
      = ConfigMap (Some data) ∧
    pool = vpn_names_of_keys (map fst data).

(** The world when the loop is reached: the documents, the read of the
    ConfigMap, and the warning of line 21 when no key qualified. *)
Definition resolved_world (args : arguments) (docs : list value) (pool : list string)
  : world :=
  {| objects := docs;
     calls := [read_namespaced_config_map (vpn_configmap_name args) (namespace args)];
     output := if bool_decide (pool = [])
               then [warn_no_ovpn_keys (vpn_configmap_name args)] else [] |}.

(** Preparing the instances [turns] of these templates raises nothing. *)
Definition materializes (args : arguments) (template : value) (service : option value)
    (selected : list string) (turns : list nat) : Prop :=
  ∀ i, i ∈ turns →
    ∃ d p, deployment_of args template selected i = Some (d, p) ∧
           ∀ s, service = Some s →
                ∃ s' name, service_of args template s selected i = Some (s', name).

(** ** The shape of a template

    What lines 88-118 index in a Deployment, and lines 141-148 in a
    Service. *)
Definition is_dict (v : value) : bool :=
  match v with
  | VDict _ => true
  | _ => false
  end.

(** The dict [o] has no key [k], or a dict under it. *)
Definition dict_or_absent (k : string) (o : value) : bool :=
  match get o k (VDict []) with
  | Ok v => is_dict v
  | Raise _ => false
  end.

(** An entry of an [env] list that line 112 can file: a dict with a name
    that can be a key. *)
Definition env_entry_ok (ev : value) : bool :=
  match getitem ev "name" with
  | Ok name => hashable name
  | Raise _ => false
  end.

(** The container has no [env], or a list of such entries. *)
Definition env_ok (container : value) : bool :=
  match get container "env" (VList []) with
  | Ok (VList evs) => forallb env_entry_ok evs
  | _ => false
  end.

(** The containers the loop of line 108 looks at, up to the first one named
    [viewer-box], have a name, and that one has a proper [env]. *)
Fixpoint containers_ok (containers : list value) : bool :=
  match containers with
  | [] => true
  | container :: rest =>
      match getitem container "name" with
      | Ok name => if eq_str name "viewer-box" then env_ok container else containers_ok rest
      | Raise _ => false
      end
  end.

(** The dict [o] has no key [k], or under it an object that an f-string
    can convert: a name that is an int has 4300 digits at most. *)
Definition renders_or_absent (k : string) (o : value) : bool :=
  match get o k VNone with
  | Ok v => renders v
  | Raise _ => false
  end.

(** A Deployment with [metadata], [spec.selector.matchLabels],
    [spec.template.metadata] and a list at
    [spec.template.spec.containers], whose name and component label can go
    into the f-strings of lines 89 and 92. *)
Definition deployment_shape (d : value) : bool :=
  match getitem_at ["metadata"] d, getitem_at selector_path d,
        getitem_at ["spec"; "template"; "metadata"] d, getitem_at containers_path d with
  | Ok metadata, Ok match_labels, Ok pod_metadata, Ok (VList containers) =>
      dict_or_absent "labels" metadata && is_dict match_labels &&
      dict_or_absent "labels" pod_metadata && containers_ok containers &&
      renders_or_absent "name" metadata && renders_or_absent "component" match_labels
  | _, _, _, _ => false
  end.

(** A Service with [metadata] and [spec.selector], whose name can go into
    the f-string of line 142. *)
Definition service_shape (s : value) : bool :=
  match getitem_at ["metadata"] s, getitem_at service_selector_path s with
  | Ok metadata, Ok selector =>
      dict_or_absent "labels" metadata && is_dict selector &&
      renders_or_absent "name" metadata
  | _, _ => false
  end.

(** The places lines 94-118 write in a Deployment, and lines 144-148 in a
    Service. *)
Definition deployment_writes : list (list string) :=
  [ ["metadata"; "name"];
    ["metadata"; "labels"; "deployment-instance"];
    ["spec"; "replicas"];
    selector_path ++ ["component"];
    selector_path ++ ["deployment-instance"];
    pod_labels_path ++ ["component"];
    pod_labels_path ++ ["deployment-instance"];
    containers_path ].

Definition service_writes : list (list string) :=
  [ ["metadata"; "name"];
    ["metadata"; "labels"; "deployment-instance"];
    service_selector_path ++ ["component"];
    service_selector_path ++ ["deployment-instance"] ].

(** [q] is away from every place of [writes]. *)
Definition untouched (writes : list (list string)) (q : list string) : bool :=
  forallb (fun w => diverge w q) writes.

(** ** The variables of a container *)

(** [env] after the variable [name] was given the entry [ev]: in the place
    of the entry that had the name, or at the end. *)
Fixpoint env_set (name : string) (ev : value) (env : list value) : list value :=
  match env with
  | [] => [ev]
  | ev' :: env' =>
      if named (VStr name) ev' then ev :: env' else ev' :: env_set name ev env'
  end.

(** The names of the entries of [env], when each is a str. *)
Fixpoint env_names (env : list value) : option (list string) :=
  match env with
  | [] => Some []
  | ev :: env' =>
      match getitem ev "name" with
      | Ok (VStr name) => (name ::.) <$> env_names env'
      | _ => None
      end
  end.

(** ** The documents of the file *)

(** The test of lines 61-62 on one document: [tpl and tpl.get("kind") ==
    kind]. *)
Definition has_kind (kind : string) (tpl : value) : result bool :=
  if truthy tpl
  then k ← get tpl "kind" VNone; Ok (eq_str k kind)
  else Ok false.

(** The run gets as far as the read of the ConfigMap: the configuration
    loads and the file holds the documents [docs], with a Deployment at
    index [dep] and possibly a Service at [svc]. *)
Definition loads (env : environment) (docs : list value) (dep : nat) (svc : option nat)
  : Prop :=
  (kube_config env || incluster_config env) = true ∧
  template_documents env = Ok docs ∧
  find_kind "Deployment" 0 docs = Ok (Some dep) ∧
  find_kind "Service" 0 docs = Ok svc.

(** The world when the file is loaded. *)
Definition loaded_world (docs : list value) : world :=
  {| objects := docs; calls := []; output := [] |}.

(** ** What a computation adds to the calls and to the output *)

(** Whether [m] returns or raises, it leaves the calls and the messages it
    found and adds calls [cs] and messages [ms] with [P cs ms]. *)
Definition emits {A} (P : list api_call → list message → Prop) (m : M A) : Prop :=
  ∀ w r w', m w = (r, w') →
    ∃ cs ms, calls w' = calls w ++ cs ∧ output w' = output w ++ ms ∧ P cs ms.

(** The namespace a call is made in. *)
Definition call_namespace (c : api_call) : string :=
  match c with
  | read_namespaced_config_map _ ns
  | create_namespaced_deployment ns _
  | replace_namespaced_deployment _ ns _
  | create_namespaced_service ns _ => ns
  end.

Definition is_success (m : message) : bool :=
  match m with
  | successfully_processed _ => true
  | _ => false
  end.

(** The messages that come before a [sys.exit(1)]: the last line of each
    error the script reports before it gives up. *)
Definition is_fatal (m : message) : bool :=
  match m with
  | hint_config_map_entries | err_fetching_config_map _ _ | err_config_map_no_data _ _
  | err_kube_config | err_no_deployment_definition _ | err_no_vpn_configurations _
  | err_not_enough_vpns _ _ => true
  | _ => false
  end.

(** [m] ends as [main] does: when it returns, the last message it printed
    is the one of line 164 for [n] instances, and no other message it
    printed is of that kind; when it raises, it printed none of that
    kind. *)
Definition concludes {A} (n : Z) (m : M A) : Prop :=
  ∀ w r w', m w = (r, w') →
    ∃ ms, output w' = output w ++ ms ∧
      match r with
      | Ok _ =>
          ∃ ms', ms = ms' ++ [successfully_processed n] ∧
                 Forall (λ m, is_success m = false) ms'
      | Raise _ => Forall (λ m, is_success m = false) ms
      end.

(** ** How a computation can fail *)

(** The exceptions that reading and writing a template can raise. *)
Definition is_lookup_error (e : exn) : bool :=
  match e with
  | KeyError _ | TypeError | AttributeError => true
  | _ => false
  end.

(** When [r] is an exception, it is one of those. *)
Definition lookup_fails {A} (r : result A) : Prop :=
  ∀ e, r = Raise e → is_lookup_error e = true.

(** The exceptions that preparing a manifest can raise: those, and the
    [ValueError] of an f-string. *)
Definition is_template_error (e : exn) : bool :=
  match e with
  | ValueError => true
  | _ => is_lookup_error e
  end.

Definition template_fails {A} (r : result A) : Prop :=
  ∀ e, r = Raise e → is_template_error e = true.

(** When [m] raises, it raises an exception of [Q]. *)
Definition throws {A} (Q : exn → Prop) (m : M A) : Prop :=
  ∀ w e w', m w = (Raise e, w') → Q e.

(** What a message of lines 127-160 reports of a manifest. *)
Inductive outcome : Type :=
| Created
| Replaced
| Skipped
| Failed.

Definition outcome_of (m : message) : option outcome :=
  match m with
  | deployment_created _ _ | service_created _ => Some Created
  | deployment_replaced _ _ => Some Replaced
  | service_exists_skipping _ => Some Skipped
  | err_replacing_deployment _ _ | err_creating_deployment _ _
  | err_creating_service _ _ => Some Failed
  | _ => None
  end.

(** When [m] returns, the messages it printed report the outcomes [os],
    in that order. *)
Definition recounts {A} (os : list outcome) (m : M A) : Prop :=
  ∀ w a w', m w = (Ok a, w') →
    omap outcome_of (output w') = omap outcome_of (output w) ++ os.

(** The outcomes of [n] turns that each report [turn]. *)
Definition turns_of (n : nat) (turn : list outcome) : list outcome :=
  concat (replicate n turn).

(** A cluster where nothing of the run exists yet: every write goes
    through. *)
Definition fresh (c : cluster) : Prop :=
  ∀ history request, respond c history request = ApiOk.

(** A cluster where every Deployment and every Service of the run exists
    already, as after a first run: creations meet a conflict, replacements
    go through. *)
Definition populated (c : cluster) : Prop :=
  ∀ history request,
    respond c history request
    = match request with
      | replace_namespaced_deployment _ _ _ => ApiOk
      | _ => ApiException 409
      end.

(** A replacement is asked for under the name that its manifest carries. *)
Definition names_its_manifest (c : api_call) : Prop :=
  match c with
  | replace_namespaced_deployment name _ body => manifest_name body = Some (VStr name)
  | _ => True
  end.

Definition is_replace (c : api_call) : bool :=
  match c with
  | replace_namespaced_deployment _ _ _ => true
  | _ => false
  end.

End Observe.

(* ================================================================== *)
(** * Sample inputs *)
(* ================================================================== *)

Module Sample.
Import Py K8s DeployViewers.

(** A Deployment named [viewer] with a [viewer-box] container and a
    sidecar, and its Service. *)
Definition deployment : value :=
  VDict [("apiVersion", VStr "apps/v1"); ("kind", VStr "Deployment");
         ("metadata", VDict [("name", VStr "viewer")]);
         ("spec", VDict [
            ("replicas", VInt 1);
            ("selector", VDict [("matchLabels", VDict [("component", VStr "viewer")])]);
            ("template", VDict [
               ("metadata", VDict [("labels", VDict [("component", VStr "viewer")])]);
               ("spec", VDict [("containers", VList [
                  VDict [("name", VStr "vpn-sidecar"); ("image", VStr "vpn:latest")];
                  VDict [("name", VStr "viewer-box"); ("image", VStr "viewer:latest");
                         ("env", VList [
                            VDict [("name", VStr "DISPLAY"); ("value", VStr ":99")];
                            VDict [("name", VStr "STREAM_URL"); ("value", VStr "unset")]])]])])])])].

Definition service : value :=
  VDict [("apiVersion", VStr "v1"); ("kind", VStr "Service");
         ("metadata", VDict [("name", VStr "viewer-service")]);
         ("spec", VDict [("selector", VDict [("component", VStr "viewer")]);
                         ("ports", VList [VDict [("port", VInt 8080)]])])].

(** The same Deployment with a second container named [viewer-box]. *)
Definition deployment_two_boxes : value :=
  VDict [("kind", VStr "Deployment");
         ("metadata", VDict [("name", VStr "viewer")]);
         ("spec", VDict [
            ("selector", VDict [("matchLabels", VDict [("component", VStr "viewer")])]);
            ("template", VDict [
               ("metadata", VDict []);
               ("spec", VDict [("containers", VList [
                  VDict [("name", VStr "viewer-box"); ("image", VStr "viewer:1")];
                  VDict [("name", VStr "viewer-box"); ("image", VStr "viewer:2");
                         ("env", VList [
                            VDict [("name", VStr "VPN_CONFIG"); ("value", VStr "mine")]])]])])])])].

(** A document of kind Service with nothing else in it. *)
Definition bare_service : value := VDict [("kind", VStr "Service")].

(** A Deployment without a name, without labels and without a container
    named [viewer-box], and a Service without a name. *)
Definition deployment_plain : value :=
  VDict [("kind", VStr "Deployment");
         ("metadata", VDict [("annotations", VDict [("team", VStr "video")])]);
         ("spec", VDict [
            ("selector", VDict [("matchLabels", VDict [])]);
            ("template", VDict [
               ("metadata", VDict []);
               ("spec", VDict [("containers", VList [
                  VDict [("name", VStr "proxy"); ("image", VStr "proxy:1")]])])])])].

Definition service_plain : value :=
  VDict [("kind", VStr "Service"); ("metadata", VDict []);
         ("spec", VDict [("selector", VDict []); ("type", VStr "ClusterIP")])].

Definition args (n : Z) : arguments :=
  {| stream_url := "https://kick.com/example_channel";
     num_deployments := n;
     template_file := "viewer-box-deployment.yaml";
     namespace := "stream-viewers";
     vpn_configmap_name := "vpn-configs";
     replicas_per_deployment := 1 |}.

(** A cluster holding a ConfigMap with the keys [keys], where every write
    goes through. *)
Definition cluster_with (keys : list string) (answer : list api_call → api_call → api_response)
  : cluster :=
  {| config_maps := fun _ _ => ConfigMap (Some (map (fun k => (k, "client")) keys));
     respond := answer |}.

Definition accept : list api_call → api_call → api_response := fun _ _ => ApiOk.

(** Every Deployment and Service exists already. *)
Definition conflict : list api_call → api_call → api_response := fun _ c =>
  match c with
  | replace_namespaced_deployment _ _ _ => ApiOk
  | _ => ApiException 409
  end.

(** The third create of a Deployment fails with a server error. *)
Definition third_fails : list api_call → api_call → api_response := fun history c =>
  match c with
  | create_namespaced_deployment _ _ =>
      if bool_decide (length (Observe.created_deployments history) = 2%nat)
      then ApiException 500 else ApiOk
  | _ => ApiOk
  end.

Definition environment_with (docs : list value) (c : cluster) : environment :=
  {| kube_config := true;
     incluster_config := false;
     template_documents := Ok docs;
     the_cluster := c |}.

(** The sample file, and a cluster whose ConfigMap has the keys [keys]. *)
Definition environment_of (keys : list string)
    (answer : list api_call → api_call → api_response) : environment :=
  environment_with [deployment; service] (cluster_with keys answer).

End Sample.

(* ================================================================== *)
(** * Facts on the Python runtime *)
(* ================================================================== *)

Module PyFacts.
Import Py Observe.

Lemma bind_ok {A B} (r : result A) (f : A → result B) (b : B) :
  r ≫= f = Ok b → ∃ a, r = Ok a ∧ f a = Ok b.
Proof. destruct r as [a|e]; [ eauto | discriminate ]. Qed.

(** Splits a hypothesis [x ← r; k = Ok b] into [r = Ok x] and [k = Ok b]. *)
Ltac bind_inv H :=
  let a := fresh "a" in
  let Ha := fresh "E" in
  apply bind_ok in H as (a & Ha & H).

(** An f-string that went through gives the text of its object. *)
Lemma fstring_ok v s : fstring v = Ok s → s = format v ∧ renders v = true.
Proof. unfold fstring. destruct (renders v); [|discriminate]. by intros [= <-]. Qed.

(** The same, where [H] is the text of an f-string: the text is put in its
    place and [H] is left under a name of its own. *)
Ltac fstring_inv H :=
  try (apply fstring_ok in H as [-> H];
       let R := fresh "R" in rename H into R).

(** ** Dictionaries *)

Section dict.
Context {V : Type}.
Implicit Types (d : list (string * V)) (k : string) (v : V).

Lemma dict_lookup_set_eq k v d : dict_lookup k (dict_set k v d) = Some v.
Proof.
  induction d as [|[k' v'] d IH]; simpl.
  - by rewrite decide_True.
  - case_decide; simpl.
    + by rewrite decide_True.
    + by rewrite decide_False.
Qed.

Lemma dict_lookup_set_ne k k' v d :
  k ≠ k' → dict_lookup k' (dict_set k v d) = dict_lookup k' d.
Proof.
  intros Hne. induction d as [|[k0 v0] d IH]; simpl.
  - by rewrite decide_False.
  - case_decide; simpl; subst.
    + by rewrite !decide_False.
    + by rewrite IH.
Qed.

End dict.

Lemma getitem_dict o k v :
  getitem o k = Ok v → ∃ d, o = VDict d ∧ dict_lookup k d = Some v.
Proof.
  destruct o; try discriminate. simpl.
  destruct (dict_lookup k entries) eqn:E; [|discriminate].
  intros [= ->]. eauto.
Qed.

Lemma getitem_put_eq o k v v' : getitem o k = Ok v → getitem (put o k v') k = Ok v'.
Proof.
  intros (d & -> & _)%getitem_dict. simpl. by rewrite dict_lookup_set_eq.
Qed.

Lemma getitem_put_ne o k k' v' : k ≠ k' → getitem (put o k v') k' = getitem o k'.
Proof.
  intros Hne. destruct o; try done. simpl. by rewrite dict_lookup_set_ne.
Qed.

Lemma getitem_setitem_eq o o' k v : setitem o k v = Ok o' → getitem o' k = Ok v.
Proof.
  destruct o; try discriminate. intros [= <-]. simpl. by rewrite dict_lookup_set_eq.
Qed.

Lemma getitem_setitem_ne o o' k k' v :
  setitem o k v = Ok o' → k ≠ k' → getitem o' k' = getitem o k'.
Proof.
  destruct o; try discriminate. intros [= <-] Hne. simpl.
  by rewrite dict_lookup_set_ne.
Qed.

Lemma getitem_setdefault_ne o o' k k' v :
  setdefault o k v = Ok o' → k ≠ k' → getitem o' k' = getitem o k'.
Proof.
  destruct o; try discriminate. simpl.
  destruct (dict_lookup k entries); intros [= <-] Hne; [done|].
  simpl. by rewrite dict_lookup_set_ne.
Qed.

(** After [setdefault] the key is there: with its old object, or with the
    default. *)
Lemma getitem_setdefault_eq o o' k v :
  setdefault o k v = Ok o' →
  ∃ x, getitem o' k = Ok x ∧ (getitem o k = Ok x ∨ x = v).
Proof.
  destruct o; try discriminate. simpl.
  destruct (dict_lookup k entries) eqn:E; intros [= <-]; simpl.
  - rewrite E. eauto.
  - rewrite dict_lookup_set_eq. eauto.
Qed.

(** ** Paths *)

Lemma getitem_at_app p q root :
  getitem_at (p ++ q) root = getitem_at p root ≫= getitem_at q.
Proof.
  revert root. induction p as [|k p IH]; intros root; simpl; [done|].
  destruct (getitem root k); simpl; [apply IH | done].
Qed.

(** What [update_at] does: the object at the path went through [f]; below
    the path one reads what [f] left; away from the path nothing moved. *)
Lemma update_at_ok {A} p (f : value → result (value * A)) root root' a :
  update_at p f root = Ok (root', a) →
  ∃ o o', getitem_at p root = Ok o ∧ f o = Ok (o', a) ∧
          getitem_at p root' = Ok o'.
Proof.
  revert root root'. induction p as [|k p IH]; intros root root' H; simpl in *.
  - eauto.
  - bind_inv H. bind_inv H. destruct a1 as [child' a']. injection H as <- ->.
    apply IH in E0 as (o & o' & Hget & Hf & Hget').
    exists o, o'. rewrite E. simpl. rewrite (getitem_put_eq _ _ _ _ E). simpl. eauto.
Qed.

Lemma update_at_frame {A} p (f : value → result (value * A)) q root root' a :
  update_at p f root = Ok (root', a) →
  diverge p q = true →
  getitem_at q root' = getitem_at q root.
Proof.
  revert q root root'. induction p as [|k p IH]; intros q root root' H Hd.
  - destruct q; discriminate.
  - destruct q as [|k' q]; [discriminate|]. simpl in *.
    bind_inv H. bind_inv H. destruct a1 as [child' a']. injection H as <- ->.
    case_decide as Hk.
    + subst k'. rewrite E, (getitem_put_eq _ _ _ _ E). simpl. eauto.
    + by rewrite getitem_put_ne.
Qed.

(** The same when [f] itself leaves the keys other than [k] alone: the
    statement then writes at [p ++ [k]]. *)
Lemma update_at_frame_key {A} p k (f : value → result (value * A)) q root root' a :
  (∀ o o' a k', f o = Ok (o', a) → k ≠ k' → getitem o' k' = getitem o k') →
  update_at p f root = Ok (root', a) →
  diverge (p ++ [k]) q = true →
  getitem_at q root' = getitem_at q root.
Proof.
  intros Hf. revert q root root'. induction p as [|k0 p IH]; intros q root root' H Hd.
  - destruct q as [|k' q]; [discriminate|]. simpl in *.
    case_decide; [by destruct q|]. by rewrite (Hf _ _ _ _ H).
  - destruct q as [|k' q]; [discriminate|]. simpl in *.
    bind_inv H. bind_inv H. destruct a1 as [child' a']. injection H as <- ->.
    case_decide as Hk.
    + subst k'. rewrite E, (getitem_put_eq _ _ _ _ E). simpl. eauto.
    + by rewrite getitem_put_ne.
Qed.

Lemma setitem_at_frame p k v q root root' :
  setitem_at p k v root = Ok root' →
  diverge (p ++ [k]) q = true →
  getitem_at q root' = getitem_at q root.
Proof.
  unfold setitem_at. intros H Hd. bind_inv H. destruct a as [r []].
  injection H as <-. eapply update_at_frame_key; [|done..].
  intros o o' a k' Ho Hne. bind_inv Ho. injection Ho as <- _.
  by eapply getitem_setitem_ne.
Qed.

Lemma setdefault_at_frame p k v q root root' :
  setdefault_at p k v root = Ok root' →
  diverge (p ++ [k]) q = true →
  getitem_at q root' = getitem_at q root.
Proof.
  unfold setdefault_at. intros H Hd. bind_inv H. destruct a as [r []].
  injection H as <-. eapply update_at_frame_key; [|done..].
  intros o o' a k' Ho Hne. bind_inv Ho. injection Ho as <- _.
  by eapply getitem_setdefault_ne.
Qed.

Lemma setitem_at_read p k v root root' :
  setitem_at p k v root = Ok root' → getitem_at (p ++ [k]) root' = Ok (v).
Proof.
  unfold setitem_at. intros H. bind_inv H. destruct a as [r []]. injection H as <-.
  apply update_at_ok in E as (o & o' & _ & Hf & Hget).
  bind_inv Hf. injection Hf as <-.
  rewrite getitem_at_app, Hget. simpl.
  by rewrite (getitem_setitem_eq _ _ _ _ E).
Qed.

(** [setdefault] changes nothing of an object that has the key. *)
Lemma setdefault_at_read p k v root root' x :
  setdefault_at p k v root = Ok root' →
  getitem_at (p ++ [k]) root = Ok x →
  getitem_at (p ++ [k]) root' = Ok x.
Proof.
  unfold setdefault_at. intros H Hx. bind_inv H. destruct a as [r []]. injection H as <-.
  apply update_at_ok in E as (o & o' & Ho & Hf & Hget).
  bind_inv Hf. injection Hf as <-.
  rewrite getitem_at_app, Ho in Hx. rewrite getitem_at_app, Hget. simpl in *.
  destruct o; try discriminate. simpl in *.
  destruct (dict_lookup k entries) eqn:El; [|discriminate].
  injection E as <-. simpl. by rewrite El.
Qed.

End PyFacts.

(* ================================================================== *)
(** * The environment dictionary of line 112 *)
(* ================================================================== *)

Module EnvMap.
Import Py DeployViewers Observe PyFacts.

Lemma key_eqb_sym a b : key_eqb a b = key_eqb b a.
Proof.
  destruct a, b; simpl; try done.
  - apply bool_decide_ext. naive_solver.
  - apply Z.eqb_sym.
  - apply bool_decide_ext. naive_solver.
Qed.

Lemma key_eqb_trans a b c :
  key_eqb a b = true → key_eqb b c = true → key_eqb a c = true.
Proof.
  destruct a, b, c; simpl; try done;
    rewrite ?bool_decide_eq_true, ?Z.eqb_eq; try congruence;
    repeat match goal with x : bool |- _ => destruct x end; lia.
Qed.

Lemma key_eqb_refl a : hashable a = true → key_eqb a a = true.
Proof.
  destruct a; simpl; try done; intros _;
    rewrite ?bool_decide_eq_true, ?Z.eqb_eq; done.
Qed.

Lemma key_eqb_str a n : key_eqb a (VStr n) = eq_str a n.
Proof. by destruct a. Qed.

Lemma key_eqb_str_eq a n : key_eqb a (VStr n) = true → a = VStr n.
Proof. destruct a; simpl; try done. by intros ->%bool_decide_eq_true. Qed.

Lemma map_get_equiv k1 k2 m :
  key_eqb k1 k2 = true → map_get k1 m = map_get k2 m.
Proof.
  intros H. induction m as [|[k v] m IH]; simpl; [done|].
  rewrite IH. destruct (key_eqb k k1) eqn:E1, (key_eqb k k2) eqn:E2; try done.
  - by rewrite (key_eqb_trans _ _ _ E1 H) in E2.
  - rewrite key_eqb_sym in H. by rewrite (key_eqb_trans _ _ _ E2 H) in E1.
Qed.

Lemma map_get_set_eq k v m : key_eqb k k = true → map_get k (map_set k v m) = Some v.
Proof.
  intros Hk. induction m as [|[k0 v0] m IH]; simpl.
  - by rewrite Hk.
  - destruct (key_eqb k0 k) eqn:E; simpl; by rewrite E.
Qed.

Lemma map_get_set_ne k k2 v m :
  key_eqb k k2 = false → map_get k2 (map_set k v m) = map_get k2 m.
Proof.
  intros Hk. induction m as [|[k0 v0] m IH]; simpl.
  - by rewrite Hk.
  - destruct (key_eqb k0 k) eqn:E; simpl; [|by rewrite IH].
    destruct (key_eqb k0 k2) eqn:E2; [|done].
    rewrite key_eqb_sym in E. by rewrite (key_eqb_trans _ _ _ E E2) in Hk.
Qed.

Lemma wf_set k v m k' :
  getitem v "name" = Ok k' → key_eqb k k' = true → key_eqb k k = true →
  wf m → wf (map_set k v m).
Proof.
  intros Hname Hk Hrefl. induction m as [|[k0 v0] m IH]; simpl.
  - eauto.
  - intros (Hn0 & Hfresh & Hwf). destruct (key_eqb k0 k) eqn:E; simpl.
    + split_and!; [|done..]. exists k'. split; [done|].
      eauto using key_eqb_trans.
    + split_and!; [done| |by apply IH].
      rewrite map_get_set_ne; [done|].
      by rewrite key_eqb_sym.
Qed.

(** The entries of a well-formed dictionary for a name are the one under
    that key. *)
Lemma entries_for_values name m :
  wf m → entries_for name (map snd m) = option_list (map_get name m).
Proof.
  unfold entries_for. induction m as [|[k v] m IH]; simpl; [done|].
  intros ((k' & Hname & Hk) & Hfresh & Hwf). rewrite filter_cons, IH by done.
  assert (named name v = key_eqb k' name) as Hn.
  { unfold named. by rewrite Hname. }
  destruct (key_eqb k name) eqn:E.
  - rewrite key_eqb_sym in Hk.
    rewrite (key_eqb_trans _ _ _ Hk E) in Hn. rewrite decide_True by done.
    by rewrite <-(map_get_equiv _ _ _ E), Hfresh.
  - destruct (key_eqb k' name) eqn:E'.
    + by rewrite (key_eqb_trans _ _ _ Hk E') in E.
    + rewrite decide_False; [done|]. by rewrite Hn.
Qed.

(** The dictionary of line 112 holds, for each name, the last entry of the
    list with that name. *)
Lemma env_map_of_ok old acc m :
  env_map_of old acc = Ok m → wf acc →
  wf m ∧ ∀ name, map_get name m = from_option Some (map_get name acc) (binding name old).
Proof.
  revert acc. induction old as [|ev old IH]; intros acc H Hwf; simpl in *.
  - injection H as <-. done.
  - bind_inv H. destruct (hashable a) eqn:Hh; [|discriminate].
    apply IH in H as [Hwf' Hget].
    + split; [done|]. intros name. rewrite Hget. unfold binding, entries_for.
      rewrite filter_cons.
      assert (named name ev = key_eqb a name) as Hn.
      { unfold named. by rewrite E. }
      destruct (key_eqb a name) eqn:Ea.
      * rewrite decide_True by done. rewrite last_cons.
        rewrite <-(map_get_equiv _ _ _ Ea).
        rewrite map_get_set_eq by (by apply key_eqb_refl). by destruct (last _).
      * rewrite decide_False by (by rewrite Hn). by rewrite map_get_set_ne.
    + eapply wf_set; eauto using key_eqb_refl.
Qed.

End EnvMap.

(* ================================================================== *)
(** * Materialising an instance *)
(* ================================================================== *)

Module Materializer.
Import Py DeployViewers Observe PyFacts EnvMap.

Lemma label_at path key manifest :
  label path key manifest = getitem_at (path ++ [key]) manifest.
Proof.
  unfold label. rewrite getitem_at_app.
  destruct (getitem_at path manifest) as [o|]; simpl; [|done].
  by destruct (getitem o key).
Qed.

(** ** The container *)

(** What lines 110-118 leave in the container: its [env] is replaced by a
    list with one entry per name. *)
Lemma set_env_ok box stream vpn c c' :
  set_env box stream vpn c = Ok c' →
  ∃ old new,
    get c "env" (VList []) ≫= iterate = Ok old ∧
    setitem c "env" (VList new) = Ok c' ∧
    entries_for (VStr "BOX_NAME") new = [env_entry "BOX_NAME" box] ∧
    entries_for (VStr "STREAM_URL") new = [env_entry "STREAM_URL" stream] ∧
    entries_for (VStr "VPN_CONFIG") new = [env_entry "VPN_CONFIG" vpn] ∧
    ∀ name, name ∉ [VStr "BOX_NAME"; VStr "STREAM_URL"; VStr "VPN_CONFIG"] →
            entries_for name new = option_list (binding name old).
Proof.
  unfold set_env. intros H. bind_inv H. bind_inv H. bind_inv H.
  apply env_map_of_ok in E1 as [Hwf Hget]; [|done].
  set (m1 := map_set (VStr "BOX_NAME") (env_entry "BOX_NAME" box) a1) in *.
  set (m2 := map_set (VStr "STREAM_URL") (env_entry "STREAM_URL" stream) m1) in *.
  set (m3 := map_set (VStr "VPN_CONFIG") (env_entry "VPN_CONFIG" vpn) m2) in *.
  assert (wf m1) as Hwf1 by (eapply wf_set; [reflexivity..|done]).
  assert (wf m2) as Hwf2 by (eapply wf_set; [reflexivity..|done]).
  assert (wf m3) as Hwf3 by (eapply wf_set; [reflexivity..|done]).
  exists a0, (map snd m3). split_and!; [by rewrite E | done | ..].
  - rewrite entries_for_values by done. unfold m3, m2, m1.
    by rewrite !map_get_set_ne, map_get_set_eq by reflexivity.
  - rewrite entries_for_values by done. unfold m3, m2.
    by rewrite map_get_set_ne, map_get_set_eq by reflexivity.
  - rewrite entries_for_values by done. unfold m3.
    by rewrite map_get_set_eq by reflexivity.
  - intros name Hn. rewrite entries_for_values by done. unfold m3, m2, m1.
    rewrite !map_get_set_ne, Hget; [by destruct (binding name a0)|..];
      (destruct (key_eqb _ name) eqn:Ek; [|done]);
      rewrite key_eqb_sym in Ek; apply key_eqb_str_eq in Ek as ->;
      exfalso; apply Hn; rewrite !elem_of_cons; auto.
Qed.

Lemma set_env_is_viewer_box box stream vpn c c' :
  set_env box stream vpn c = Ok c' → is_viewer_box c' = is_viewer_box c.
Proof.
  intros (old & new & _ & H & _)%set_env_ok. unfold is_viewer_box.
  by rewrite (getitem_setitem_ne _ _ _ "name" _ H).
Qed.

(** The loop of line 108 changes the first container named [viewer-box]
    and no other; without such a container it changes nothing. *)
Lemma update_containers_ok box stream vpn cs cs' updated :
  update_containers box stream vpn cs = Ok (cs', updated) →
  match list_find (fun c => is_viewer_box c = true) cs with
  | Some (j, c) =>
      ∃ c', set_env box stream vpn c = Ok c' ∧ cs' = <[j := c']> cs ∧ updated = true
  | None => cs' = cs ∧ updated = false
  end.
Proof.
  revert cs' updated. induction cs as [|c cs IH]; intros cs' updated H; simpl in *.
  - by injection H as <- <-.
  - bind_inv H.
    assert (is_viewer_box c = eq_str a "viewer-box") as Hc.
    { unfold is_viewer_box. by rewrite E. }
    destruct (eq_str a "viewer-box") eqn:Ea.
    + rewrite decide_True by done. bind_inv H. injection H as <- <-. eauto.
    + rewrite decide_False by (by rewrite Hc). bind_inv H. destruct a0 as [rest' u].
      injection H as <- <-. apply IH in E0.
      destruct (list_find _ cs) as [[j c0]|]; simpl.
      * destruct E0 as (c' & ? & -> & ->). eauto.
      * by destruct E0 as [-> ->].
Qed.

(** ** The Deployment *)

(** Reads of the final manifest are moved back over the statements that
    wrote elsewhere. *)
Ltac frame_back :=
  repeat match goal with
    | H : setitem_at ?p ?k ?v ?r = Ok ?r' |- context [getitem_at ?q ?r'] =>
        rewrite (setitem_at_frame p k v q r r' H) by reflexivity
    | H : setdefault_at ?p ?k ?v ?r = Ok ?r' |- context [getitem_at ?q ?r'] =>
        rewrite (setdefault_at_frame p k v q r r' H) by reflexivity
    | H : update_at ?p ?f ?r = Ok (?r', ?a) |- context [getitem_at ?q ?r'] =>
        rewrite (update_at_frame p f q r r' a H) by reflexivity
    end.

(** Splits a successful [prepare_deployment] or [prepare_service] into its
    statements. *)
Ltac steps H :=
  cbv zeta in H;
  repeat (let a := fresh "d" in let Ha := fresh "S" in
          apply bind_ok in H as (a & Ha & H); fstring_inv Ha);
  repeat match type of H with
    | (let '(_, _) := ?x in _) = _ => destruct x
    end;
  injection H as <- <-.

Lemma prepare_deployment_names args i vpn d d' p :
  prepare_deployment args i vpn d = Ok (d', p) →
  (∃ name, get_at ["metadata"] "name" (VStr "viewer-deployment") d = Ok name ∧
           new_deployment_name p = format name +:+ "-" +:+ str_of_nat i) ∧
  (∃ base, get_at selector_path "component" (VStr "viewer") d = Ok base ∧
           new_component_label p = format base +:+ "-" +:+ str_of_nat i) ∧
  getitem_at ["metadata"; "name"] d' = Ok (VStr (new_deployment_name p)).
Proof.
  unfold prepare_deployment. intros H. steps H.
  cbn [new_deployment_name new_component_label].
  split_and!; [eauto..|]. frame_back.
  apply (setitem_at_read ["metadata"] "name" _ _ _ S1).
Qed.

(** The containers the loop of line 108 goes through are those of the
    template, and what it leaves is what the manifest holds. *)
Lemma prepare_deployment_containers args i vpn d d' p :
  prepare_deployment args i vpn d = Ok (d', p) →
  ∃ containers containers',
    getitem_at containers_path d = Ok containers ∧
    for_containers ("box-" +:+ str_of_nat i) (stream_url args) vpn containers
      = Ok (containers', container_updated p) ∧
    getitem_at containers_path d' = Ok containers'.
Proof.
  unfold prepare_deployment. intros H. steps H. cbn [container_updated].
  apply update_at_ok in S10 as (o & o' & Hget & Hf & Hget').
  exists o, o'. split_and!; [|done..].
  rewrite <-Hget. unfold containers_path. by frame_back.
Qed.

(** With a [viewer-box] in the template: the first one goes through
    [set_env], the list is otherwise the same, and [container_updated] is
    set. *)
Lemma prepare_deployment_viewer_box args i vpn d d' p cs j c :
  prepare_deployment args i vpn d = Ok (d', p) →
  getitem_at containers_path d = Ok (VList cs) →
  list_find (fun c => is_viewer_box c = true) cs = Some (j, c) →
  ∃ c', set_env ("box-" +:+ str_of_nat i) (stream_url args) vpn c = Ok c' ∧
        getitem_at containers_path d' = Ok (VList (<[j := c']> cs)) ∧
        list_find (fun c => is_viewer_box c = true) (<[j := c']> cs) = Some (j, c') ∧
        container_updated p = true.
Proof.
  intros (o & o' & Ho & Hfor & Ho')%prepare_deployment_containers Hcs Hfind.
  rewrite Hcs in Ho. injection Ho as <-. simpl in Hfor.
  bind_inv Hfor. destruct a as [cs' u]. injection Hfor as <- <-.
  apply update_containers_ok in E. rewrite Hfind in E.
  destruct E as (c' & Hset & -> & ->). exists c'. split_and!; [done..| |done].
  apply list_find_Some in Hfind as (Hj & Hc & Hbefore).
  apply list_find_Some. split_and!.
  - apply list_lookup_insert_eq. by eapply lookup_lt_Some.
  - by rewrite (set_env_is_viewer_box _ _ _ _ _ Hset).
  - intros k y Hk Hlt. rewrite list_lookup_insert_ne in Hk by lia. eauto.
Qed.

(** C4. On a materialised pair, the selector of the Deployment, the labels
    of its pod template and the selector of the Service carry the same
    [component], which is the component of the template followed by [-]
    and the index, and the same [deployment-instance], which is the index
    as a str. *)
Theorem labels_agree args i vpn d d' p :
  prepare_deployment args i vpn d = Ok (d', p) →
  (∃ base, get_at selector_path "component" (VStr "viewer") d = Ok base ∧
           new_component_label p = format base +:+ "-" +:+ str_of_nat i) ∧
  label selector_path "component" d' = Ok (VStr (new_component_label p)) ∧
  label selector_path "deployment-instance" d' = Ok (VStr (str_of_nat i)) ∧
  label pod_labels_path "component" d' = Ok (VStr (new_component_label p)) ∧
  label pod_labels_path "deployment-instance" d' = Ok (VStr (str_of_nat i)) ∧
  ∀ s s' name,
    prepare_service i (new_component_label p) s = Ok (s', name) →
    label service_selector_path "component" s' = Ok (VStr (new_component_label p)) ∧
    label service_selector_path "deployment-instance" s' = Ok (VStr (str_of_nat i)).
Proof.
  intros H. split; [by apply prepare_deployment_names in H as (_ & ? & _)|].
  rewrite !label_at. unfold prepare_deployment in H. steps H.
  cbn [new_component_label]. unfold selector_path, pod_labels_path.
  split_and!.
  - frame_back. apply (setitem_at_read _ _ _ _ _ S5).
  - frame_back. apply (setitem_at_read _ _ _ _ _ S6).
  - frame_back. apply (setitem_at_read _ _ _ _ _ S8).
  - frame_back. apply (setitem_at_read _ _ _ _ _ S9).
  - intros s s' name Hs. rewrite !label_at. unfold prepare_service in Hs.
    cbv zeta in Hs.
    repeat (let a := fresh "s" in let Ha := fresh "T" in
            apply bind_ok in Hs as (a & Ha & Hs); fstring_inv Ha).
    injection Hs as <- <-. unfold service_selector_path. split.
    + frame_back. apply (setitem_at_read _ _ _ _ _ T3).
    + frame_back. apply (setitem_at_read _ _ _ _ _ T4).
Qed.

Lemma labels_agree_witness :
  ∃ d' p,
    prepare_deployment (Sample.args 3) 1 "vpnB" Sample.deployment = Ok (d', p) ∧
    label selector_path "component" d' = Ok (VStr "viewer-1") ∧
    label pod_labels_path "component" d' = Ok (VStr "viewer-1") ∧
    ∃ s' name,
      prepare_service 1 (new_component_label p) Sample.service = Ok (s', name) ∧
      label service_selector_path "component" s' = Ok (VStr "viewer-1").
Proof.
  eexists _, _. split; [vm_compute; reflexivity|].
  pose proof (labels_agree (Sample.args 3) 1 "vpnB" Sample.deployment _ _ eq_refl)
    as (_ & H1 & _ & H2 & _ & H3).
  split; [exact H1|]. split; [exact H2|].
  eexists _, _. split; [vm_compute; reflexivity|].
  exact (proj1 (H3 Sample.service _ _ eq_refl)).
Defined.



(** The [VPN_CONFIG] of a manifest whose template has a [viewer-box] is
    the name the instance was prepared with. *)
Lemma assigned_vpn_prepared args i vpn d d' p cs j c :
  prepare_deployment args i vpn d = Ok (d', p) →
  getitem_at containers_path d = Ok (VList cs) →
  list_find (fun c => is_viewer_box c = true) cs = Some (j, c) →
  assigned_vpn d' = Some (VStr vpn).
Proof.
  intros H Hcs Hfind.
  destruct (prepare_deployment_viewer_box _ _ _ _ _ _ _ _ _ H Hcs Hfind)
    as (c' & Hset & Hcs' & Hfind' & _).
  destruct (set_env_ok _ _ _ _ _ Hset) as (old & new & _ & Hnew & _ & _ & Hv & _).
  unfold assigned_vpn, viewer_box_env.
  rewrite Hcs', Hfind', (getitem_setitem_eq _ _ _ _ Hnew). simpl.
  unfold binding. by rewrite Hv.
Qed.

End Materializer.

(* ================================================================== *)
(** * Applying a manifest *)
(* ================================================================== *)

Module Reconciler.
Import Py K8s DeployViewers Observe.

(** Unfolds the state monad on a given world. *)
Ltac run_M :=
  unfold apply_deployment, apply_service, call, print, extend, sys_exit, lift,
    mbind, mret, M_bind, M_ret;
  simpl.

(** C5. When creating a Deployment meets a conflict (409), the script
    replaces it with the same manifest and reports it replaced, or reports
    the error of the replacement; when creating a Service meets a conflict
    it makes no other call and reports that it skips it; on any other
    error of a creation it reports the error and makes no other call.  In
    every case the script goes on. *)
Theorem conflict_policy c ns name vpn body w :
  (respond c (calls w) (create_namespaced_deployment ns body) = ApiException 409 →
   respond c (calls w ++ [create_namespaced_deployment ns body])
     (replace_namespaced_deployment name ns body) = ApiOk →
   apply_deployment c ns name vpn body w
     = (Ok (), extend w [create_namespaced_deployment ns body;
                         replace_namespaced_deployment name ns body]
                 [deployment_replaced name vpn])) ∧
  (∀ status,
   respond c (calls w) (create_namespaced_deployment ns body) = ApiException 409 →
   respond c (calls w ++ [create_namespaced_deployment ns body])
     (replace_namespaced_deployment name ns body) = ApiException status →
   apply_deployment c ns name vpn body w
     = (Ok (), extend w [create_namespaced_deployment ns body;
                         replace_namespaced_deployment name ns body]
                 [err_replacing_deployment name status])) ∧
  (∀ status,
   respond c (calls w) (create_namespaced_deployment ns body) = ApiException status →
   status ≠ 409 →
   apply_deployment c ns name vpn body w
     = (Ok (), extend w [create_namespaced_deployment ns body]
                 [err_creating_deployment name status])) ∧
  (respond c (calls w) (create_namespaced_service ns body) = ApiException 409 →
   apply_service c ns name body w
     = (Ok (), extend w [create_namespaced_service ns body]
                 [service_exists_skipping name])) ∧
  (∀ status,
   respond c (calls w) (create_namespaced_service ns body) = ApiException status →
   status ≠ 409 →
   apply_service c ns name body w
     = (Ok (), extend w [create_namespaced_service ns body]
                 [err_creating_service name status])).
Proof.
  destruct w as [objs cs out]. simpl. split_and!.
  - intros H1 H2. run_M. rewrite H1. simpl. rewrite H2. by rewrite <-app_assoc.
  - intros status H1 H2. run_M. rewrite H1. simpl. rewrite H2.
    by rewrite <-app_assoc.
  - intros status H1 Hne. run_M. rewrite H1.
    apply Z.eqb_neq in Hne. by rewrite Hne.
  - intros H1. run_M. by rewrite H1.
  - intros status H1 Hne. run_M. rewrite H1.
    apply Z.eqb_neq in Hne. by rewrite Hne.
Qed.

Lemma conflict_policy_witness :
  let c := Sample.cluster_with [] Sample.conflict in
  apply_deployment c "ns" "viewer-0" "vpnA" Sample.deployment initial
    = (Ok (), extend initial
                [create_namespaced_deployment "ns" Sample.deployment;
                 replace_namespaced_deployment "viewer-0" "ns" Sample.deployment]
                [deployment_replaced "viewer-0" "vpnA"]) ∧
  apply_service c "ns" "viewer-service-0" Sample.service initial
    = (Ok (), extend initial [create_namespaced_service "ns" Sample.service]
                [service_exists_skipping "viewer-service-0"]).
Proof.
  intros c. split.
  - apply (proj1 (conflict_policy c "ns" "viewer-0" "vpnA" Sample.deployment initial));
      reflexivity.
  - apply (conflict_policy c "ns" "viewer-service-0" "vpnA" Sample.service initial).
    reflexivity.
Defined.

(** Whatever the cluster answers, applying a Deployment returns: it makes
    one creation, at most one replacement, and prints one message, which
    names the Deployment. *)
Lemma apply_deployment_returns c ns name vpn body w :
  ∃ cs ms,
    apply_deployment c ns name vpn body w = (Ok (), extend w cs ms) ∧
    reports cs ms [body] [] [name] [].
Proof.
  destruct w as [objs cs out]. run_M. unfold reports.
  destruct (respond c cs _) as [|status]; simpl.
  { eexists [_], [_]. by split_and!. }
  destruct (status =? 409); simpl.
  - destruct (respond c _ _); simpl; eexists [_; _], [_];
      rewrite <-app_assoc; by split_and!.
  - eexists [_], [_]. by split_and!.
Qed.

Lemma apply_service_returns c ns name body w :
  ∃ cs ms,
    apply_service c ns name body w = (Ok (), extend w cs ms) ∧
    reports cs ms [] [body] [] [name].
Proof.
  destruct w as [objs cs out]. run_M. unfold reports.
  destruct (respond c cs _) as [|status]; simpl.
  { eexists [_], [_]. by split_and!. }
  destruct (status =? 409); simpl; eexists [_], [_]; by split_and!.
Qed.

End Reconciler.

(* ================================================================== *)
(** * The loop *)
(* ================================================================== *)

Module Batch.
Import Py K8s DeployViewers Observe PyFacts Reconciler.

(** ** One turn *)

(** The copy made by [deepcopy] is the last object: what [mutate] then
    finds and changes is the copy. *)
Lemma copy_lookup (objs : list value) v : (objs ++ [v]) !!! length objs = v.
Proof. by apply list_lookup_total_middle. Qed.

Lemma copy_insert (objs : list value) v v' :
  <[length objs := v']> (objs ++ [v]) = objs ++ [v'].
Proof.
  replace (length objs) with (length objs + 0)%nat by lia.
  by rewrite insert_app_r.
Qed.

(** The state monad, one statement at a time. *)
Lemma bind_M {A B} (m : M A) (f : A → M B) w :
  (m ≫= f) w = match m w with
               | (Ok a, w') => f a w'
               | (Raise e, w') => (Raise e, w')
               end.
Proof. reflexivity. Qed.

Lemma ret_M {A} (a : A) w : mret (M := M) a w = (Ok a, w).
Proof. reflexivity. Qed.

Lemma lift_M {A} (r : result A) w : lift r w = (r, w).
Proof. reflexivity. Qed.

Lemma print_M m w : print m w = (Ok (), extend w [] [m]).
Proof. unfold print, extend. by rewrite app_nil_r. Qed.

Lemma deepcopy_M o w :
  deepcopy o w = (Ok (length (objects w)),
                  {| objects := objects w ++ [objects w !!! o];
                     calls := calls w; output := output w |}).
Proof. reflexivity. Qed.

Lemma deref_M o w : deref o w = (Ok (objects w !!! o), w).
Proof. reflexivity. Qed.

Lemma mutate_M {A} o (f : value → result (value * A)) w :
  mutate o f w = match f (objects w !!! o) with
                 | Ok (v, a) => (Ok a, {| objects := <[o := v]> (objects w);
                                          calls := calls w; output := output w |})
                 | Raise e => (Raise e, w)
                 end.
Proof. reflexivity. Qed.

Ltac step :=
  rewrite ?bind_M;
  first [ rewrite lift_M | rewrite deepcopy_M | rewrite deref_M | rewrite mutate_M
        | rewrite print_M | rewrite ret_M ];
  cbn [objects calls output extend].

(** What the first half of a turn does, case by case: the copy it
    leaves, the calls it makes, what it prints, and whether it raises. *)
Lemma deploy_instance_cases args c base sel i w :
  match sel !! i with
  | None => deploy_instance args c base sel i w = (Raise IndexError, w)
  | Some vpn =>
      match prepare_deployment args i vpn (objects w !!! base) with
      | Raise e =>
          deploy_instance args c base sel i w
          = (Raise e, {| objects := objects w ++ [objects w !!! base];
                         calls := calls w; output := output w |})
      | Ok (d', p) =>
          ∃ cs ms,
            reports cs ms [d'] [] [new_deployment_name p] [] ∧
            deploy_instance args c base sel i w
            = (Ok p, {| objects := objects w ++ [d'];
                        calls := calls w ++ cs;
                        output := output w ++ warning p ++ ms |})
      end
  end.
Proof.
  destruct (sel !! i) as [vpn|] eqn:Hsel.
  2: { unfold deploy_instance, index. rewrite Hsel. by step. }
  destruct (prepare_deployment args i vpn (objects w !!! base)) as [[d' p]|e] eqn:Hprep.
  2: { unfold deploy_instance, index. rewrite Hsel. do 3 step.
       by rewrite copy_lookup, Hprep. }
  set (w1 := {| objects := objects w ++ [d']; calls := calls w;
                output := output w ++ warning p |}).
  assert (deploy_instance args c base sel i w
          = (apply_deployment c (namespace args) (new_deployment_name p) vpn d'
             ≫= λ _, mret p) w1) as ->.
  { unfold deploy_instance, index. rewrite Hsel. do 3 step.
    rewrite copy_lookup, Hprep, copy_insert. rewrite bind_M.
    assert ((if container_updated p then mret ()
             else print (warn_container_not_found (new_deployment_name p)))
              {| objects := objects w ++ [d']; calls := calls w; output := output w |}
            = (Ok (), w1)) as ->.
    { unfold w1, warning. destruct (container_updated p); [|done].
      rewrite ret_M. by rewrite app_nil_r. }
    step. unfold w1 at 1. cbn [objects]. by rewrite copy_lookup. }
  destruct (apply_deployment_returns c (namespace args) (new_deployment_name p) vpn d' w1)
    as (cs & ms & Happly & Hr).
  exists cs, ms. split; [done|].
  rewrite bind_M, Happly, ret_M. unfold w1, extend. cbn [objects calls output].
  by rewrite <-!app_assoc.
Qed.

(** The same for the second half. *)
Lemma expose_instance_cases args c svc i label w :
  match svc with
  | None => expose_instance args c svc i label w = (Ok (), w)
  | Some k =>
      match prepare_service i label (objects w !!! k) with
      | Raise e =>
          expose_instance args c svc i label w
          = (Raise e, {| objects := objects w ++ [objects w !!! k];
                         calls := calls w; output := output w |})
      | Ok (s', name) =>
          ∃ cs ms,
            reports cs ms [] [s'] [] [name] ∧
            expose_instance args c svc i label w
            = (Ok (), {| objects := objects w ++ [s'];
                         calls := calls w ++ cs;
                         output := output w ++ ms |})
      end
  end.
Proof.
  destruct svc as [k|]; [|done].
  destruct (prepare_service i label (objects w !!! k)) as [[s' name]|e] eqn:Hprep.
  2: { unfold expose_instance. do 2 step. by rewrite copy_lookup, Hprep. }
  set (w1 := {| objects := objects w ++ [s']; calls := calls w; output := output w |}).
  assert (expose_instance args c (Some k) i label w
          = apply_service c (namespace args) name s' w1) as ->.
  { unfold expose_instance. do 2 step. rewrite copy_lookup, Hprep, copy_insert.
    step. by rewrite copy_lookup. }
  destruct (apply_service_returns c (namespace args) name s' w1)
    as (cs & ms & Happly & Hr).
  exists cs, ms. split; [done|]. by rewrite Happly.
Qed.



(** ** Nothing that exists is changed *)

Lemma grows_refl w : grows w w.
Proof. exists [], [], []. by rewrite !app_nil_r. Qed.

Lemma grows_trans w1 w2 w3 : grows w1 w2 → grows w2 w3 → grows w1 w3.
Proof.
  intros (o1 & c1 & m1 & Ho1 & Hc1 & Hm1) (o2 & c2 & m2 & Ho2 & Hc2 & Hm2).
  exists (o1 ++ o2), (c1 ++ c2), (m1 ++ m2).
  rewrite Ho2, Hc2, Hm2, Ho1, Hc1, Hm1. by rewrite <-!app_assoc.
Qed.

Lemma grows_make w copies cs ms :
  grows w {| objects := objects w ++ copies; calls := calls w ++ cs;
             output := output w ++ ms |}.
Proof. by exists copies, cs, ms. Qed.

Lemma additive_bind {A B} (m : M A) (f : A → M B) :
  additive m → (∀ a, additive (f a)) → additive (m ≫= f).
Proof.
  intros Hm Hf w r w'. rewrite bind_M.
  destruct (m w) as [[a|e] w1] eqn:E; intros H.
  - eapply grows_trans; [by eapply Hm | by eapply Hf].
  - injection H as <- <-. by eapply Hm.
Qed.

Lemma additive_ret {A} (a : A) : additive (mret a).
Proof. intros w r w' [= <- <-]. apply grows_refl. Qed.

Lemma additive_lift {A} (r : result A) : additive (lift r).
Proof. intros w r' w' [= <- <-]. apply grows_refl. Qed.

Lemma additive_sys_exit {A} code : additive (sys_exit (A := A) code).
Proof. apply additive_lift. Qed.

Lemma additive_print m : additive (print m).
Proof.
  intros w r w' [= <- <-]. exists [], [], [m]. simpl. by rewrite !app_nil_r.
Qed.

Lemma additive_deploy_instance args c base sel i :
  additive (deploy_instance args c base sel i).
Proof.
  intros w r w' H. pose proof (deploy_instance_cases args c base sel i w) as Hc.
  destruct (sel !! i) as [vpn|].
  2: { rewrite Hc in H. injection H as <- <-. apply grows_refl. }
  destruct (prepare_deployment _ _ _ _) as [[d' p]|e].
  - destruct Hc as (cs & ms & _ & Hc). rewrite Hc in H. injection H as <- <-.
    apply grows_make.
  - rewrite Hc in H. injection H as <- <-.
    exists [objects w !!! base], [], []. by rewrite !app_nil_r.
Qed.

Lemma additive_expose_instance args c svc i label :
  additive (expose_instance args c svc i label).
Proof.
  intros w r w' H. pose proof (expose_instance_cases args c svc i label w) as Hc.
  destruct svc as [k|].
  2: { rewrite Hc in H. injection H as <- <-. apply grows_refl. }
  destruct (prepare_service _ _ _) as [[s' name]|e].
  - destruct Hc as (cs & ms & _ & Hc). rewrite Hc in H. injection H as <- <-.
    apply grows_make.
  - rewrite Hc in H. injection H as <- <-.
    exists [objects w !!! k], [], []. by rewrite !app_nil_r.
Qed.

Lemma additive_instance args c base svc sel i :
  additive (instance args c base svc sel i).
Proof.
  unfold instance.
  apply additive_bind; [apply additive_deploy_instance|]. intros p.
  apply additive_bind; [apply additive_expose_instance|]. intros _.
  apply additive_print.
Qed.

Lemma additive_for_each {A} (xs : list A) body :
  (∀ x, additive (body x)) → additive (for_each xs body).
Proof.
  intros Hbody. induction xs as [|x xs IH]; simpl.
  - apply additive_ret.
  - apply additive_bind; [apply Hbody | by intros _].
Qed.

Lemma additive_provision args c base svc available :
  additive (provision args c base svc available).
Proof.
  unfold provision. repeat case_bool_decide;
    repeat first [ apply additive_print | apply additive_sys_exit
                 | apply additive_for_each | apply additive_instance
                 | apply additive_bind | intros ? ].
Qed.

Lemma additive_get_available_vpn_configs c ns name :
  additive (get_available_vpn_configs c ns name).
Proof.
  unfold get_available_vpn_configs. apply additive_bind.
  { intros w r w' [= <- <-]. exists [], [read_namespaced_config_map name ns], [].
    by rewrite !app_nil_r. }
  intros [[data|]|status]; repeat case_bool_decide; try destruct (status =? 404);
    repeat first [ apply additive_print | apply additive_sys_exit
                 | apply additive_ret | apply additive_bind | intros ? ].
Qed.

(** ** A turn and a loop that raise nothing *)

Lemma created_deployments_app cs1 cs2 :
  created_deployments (cs1 ++ cs2) = created_deployments cs1 ++ created_deployments cs2.
Proof. apply omap_app. Qed.

Lemma created_services_app cs1 cs2 :
  created_services (cs1 ++ cs2) = created_services cs1 ++ created_services cs2.
Proof. apply omap_app. Qed.

Lemma template_lookup (docs copies : list value) k v :
  docs !! k = Some v → (docs ++ copies) !!! k = v.
Proof.
  intros H. apply list_lookup_total_correct.
  rewrite lookup_app_l; [done|]. by eapply lookup_lt_Some.
Qed.

Lemma deployment_of_inv args template sel i d p :
  deployment_of args template sel i = Some (d, p) →
  ∃ vpn, sel !! i = Some vpn ∧ prepare_deployment args i vpn template = Ok (d, p).
Proof.
  unfold deployment_of, deployment_manifest. destruct (sel !! i) as [vpn|]; [|done].
  simpl. destruct (prepare_deployment _ _ _ _) as [r|] eqn:E; [|done].
  intros [= ->]. eauto.
Qed.

Lemma service_of_inv args template s sel i d p s' name :
  deployment_of args template sel i = Some (d, p) →
  service_of args template s sel i = Some (s', name) →
  prepare_service i (new_component_label p) s = Ok (s', name).
Proof.
  unfold service_of, service_manifest. intros ->. simpl.
  destruct (prepare_service _ _ _) as [r|] eqn:E; [|done]. by intros [= ->].
Qed.

Lemma instance_ok args c docs dep svc sel template i w copies :
  docs !! dep = Some template →
  materializes args template (svc ≫= (docs !!.)) sel [i] →
  (∀ k, svc = Some k → is_Some (docs !! k)) →
  objects w = docs ++ copies →
  ∃ copies' cs ms,
    instance args c dep svc sel i w
    = (Ok (), {| objects := docs ++ copies'; calls := calls w ++ cs;
                 output := output w ++ ms |}) ∧
    turn_reports args template (svc ≫= (docs !!.)) sel i cs ms.
Proof.
  intros Hdep Hmat Hsvc Hobjs.
  destruct (Hmat i) as (d' & p & Hof & Hmats); [by left|].
  destruct (deployment_of_inv _ _ _ _ _ _ Hof) as (vpn & Hsel & Hprep).
  unfold instance. rewrite bind_M.
  pose proof (deploy_instance_cases args c dep sel i w) as Hd.
  rewrite Hsel, Hobjs, (template_lookup _ _ _ _ Hdep), Hprep in Hd.
  destruct Hd as (cs1 & ms1 & (Hc1 & Hs1 & Hn1 & Hsn1 & Hsep1 & Hw1) & ->).
  rewrite bind_M.
  assert (filter (λ m, is_container_warning m = true) (warning p) = warning p) as Hww.
  { unfold warning. by destruct (container_updated p). }
  assert (filter (λ m, is_separator m = true) (warning p) = []) as Hwsep.
  { unfold warning. by destruct (container_updated p). }
  assert (omap deployment_outcome (warning p) = []) as Hwd.
  { unfold warning. by destruct (container_updated p). }
  assert (omap service_outcome (warning p) = []) as Hws.
  { unfold warning. by destruct (container_updated p). }
  match goal with
  | |- context [expose_instance ?a ?c ?s ?i ?l ?w] =>
      pose proof (expose_instance_cases a c s i l w) as He
  end.
  destruct svc as [k|]; cbn [objects calls output] in He.
  - destruct (Hsvc k eq_refl) as [s Hs].
    replace (((docs ++ copies) ++ [d']) !!! k) with s in He
      by (by rewrite <-app_assoc, (template_lookup _ _ _ _ Hs)).
    destruct (Hmats s) as (s' & name & Hsof); [by simpl|].
    rewrite (service_of_inv _ _ _ _ _ _ _ _ _ Hof Hsof) in He.
    destruct He as (cs2 & ms2 & (Hc2 & Hs2 & Hn2 & Hsn2 & Hsep2 & Hw2) & ->).
    rewrite print_M. cbn [extend objects calls output].
    exists (copies ++ [d'; s']), (cs1 ++ cs2), (warning p ++ ms1 ++ ms2 ++ [separator]).
    split.
    { unfold extend. cbn [objects calls output].
      by rewrite ?app_nil_r, <-?app_assoc. }
    exists d', p. simpl. rewrite Hs.
    rewrite !created_deployments_app, !omap_app, !filter_app, Hc1, Hc2, Hn1, Hn2,
      Hsep1, Hsep2, Hw1, Hw2, Hww, Hwsep, Hwd. simpl. rewrite app_nil_r.
    split_and!; try done.
    exists s', name.
    rewrite ?created_services_app, ?omap_app, ?Hs1, ?Hs2, ?Hsn1, ?Hsn2, ?Hws.
    by split_and!.
  - rewrite He, print_M. cbn [extend objects calls output].
    exists (copies ++ [d']), cs1, (warning p ++ ms1 ++ [separator]).
    split.
    { unfold extend. cbn [objects calls output].
      by rewrite ?app_nil_r, <-?app_assoc. }
    exists d', p. simpl.
    rewrite !omap_app, !filter_app, Hc1, Hn1, Hsep1, Hw1, Hww, Hwsep, Hwd, Hs1, Hsn1, Hws.
    simpl. rewrite app_nil_r. by split_and!.
Qed.

Lemma loop_ok args c docs dep svc sel template turns :
  docs !! dep = Some template →
  (∀ k, svc = Some k → is_Some (docs !! k)) →
  materializes args template (svc ≫= (docs !!.)) sel turns →
  ∀ w copies,
    objects w = docs ++ copies →
    ∃ copies' cs ms,
      for_each turns (instance args c dep svc sel) w
      = (Ok (), {| objects := docs ++ copies'; calls := calls w ++ cs;
                   output := output w ++ ms |}) ∧
      batch_reports args template (svc ≫= (docs !!.)) sel turns cs ms.
Proof.
  intros Hdep Hsvc. induction turns as [|i turns IH]; intros Hmat w copies Hobjs.
  - exists copies, [], []. simpl. rewrite ret_M, !app_nil_r, <-Hobjs.
    split; [by destruct w|done].
  - destruct (instance_ok args c docs dep svc sel template i w copies)
      as (copies1 & cs1 & ms1 & Hrun & Hturn); try done.
    { intros j ->%list_elem_of_singleton. apply Hmat. by left. }
    simpl. rewrite bind_M, Hrun.
    assert (materializes args template (svc ≫= (docs !!.)) sel turns) as Hmat'.
    { intros j Hj. apply Hmat. by right. }
    destruct (IH Hmat' {| objects := docs ++ copies1; calls := calls w ++ cs1;
                          output := output w ++ ms1 |} copies1 eq_refl)
      as (copies2 & cs2 & ms2 & Hrun2 & Hbatch).
    rewrite Hrun2. cbn [objects calls output].
    exists copies2, (cs1 ++ cs2), (ms1 ++ ms2). rewrite <-!app_assoc. split; [done|].
    by exists cs1, ms1, cs2, ms2.
Qed.

(** ** The names selected *)

(** With enough names, [selected_vpns[i]] is [available_vpns[i]] for every
    index the loop goes through. *)
Lemma selected_lookup (pool : list string) n i :
  n ≤ Z.of_nat (length pool) → i ∈ range n →
  slice_to pool n !! i = pool !! i ∧ is_Some (pool !! i).
Proof.
  unfold range, slice_to. intros Hn Hi. apply elem_of_seq in Hi.
  rewrite decide_True by lia.
  rewrite lookup_take_lt by lia. split; [done|].
  apply lookup_lt_is_Some. lia.
Qed.

Lemma selected_prefix (pool : list string) n :
  0 ≤ n ≤ Z.of_nat (length pool) →
  slice_to pool n = take (Z.to_nat n) pool ∧ length (slice_to pool n) = Z.to_nat n.
Proof.
  unfold slice_to. intros Hn. rewrite decide_True by lia.
  split; [done|]. rewrite length_take. lia.
Qed.

(** ** Before the loop *)

Lemma find_kind_lt kind first docs k :
  find_kind kind first docs = Ok (Some k) → (first ≤ k < first + length docs)%nat.
Proof.
  revert first. induction docs as [|tpl docs IH]; intros first H; simpl in *.
  - discriminate.
  - destruct (truthy tpl).
    + bind_inv H. destruct (eq_str a kind).
      * injection H as <-. lia.
      * apply IH in H. lia.
    + apply IH in H. lia.
Qed.

Lemma deref_all_loaded (docs : list value) :
  map (λ o, docs !!! o) (seq 0 (length docs)) = docs.
Proof.
  apply list_eq. intros i. rewrite list_lookup_fmap.
  destruct (decide (i < length docs)%nat) as [Hi|Hi].
  - rewrite lookup_seq_lt by done. simpl.
    symmetry. by apply list_lookup_lookup_total_lt.
  - rewrite lookup_seq_ge, lookup_ge_None_2 by lia. done.
Qed.

Lemma main_resolved args env docs dep svc pool :
  resolves args env docs dep svc pool →
  main args env initial
  = provision args (the_cluster env) dep svc pool (resolved_world args docs pool).
Proof.
  intros (Hconf & Hdocs & Hdep & Hsvc & data & Hcm & ->).
  unfold main. rewrite bind_M.
  assert (load_configuration env initial = (Ok (), initial)) as ->.
  { unfold load_configuration. destruct (kube_config env); [done|].
    by destruct (incluster_config env). }
  rewrite bind_M.
  assert (load_template env initial
          = (Ok (seq 0 (length docs)),
             {| objects := docs; calls := []; output := [] |})) as ->.
  { unfold load_template. by rewrite Hdocs. }
  rewrite bind_M. unfold deref_all at 1. cbn [objects].
  rewrite deref_all_loaded. rewrite bind_M, lift_M, Hdep. cbn [fmap option_fmap option_map].
  rewrite bind_M, lift_M, Hsvc.
  apply find_kind_lt in Hdep. rewrite lookup_total_seq_lt by lia.
  rewrite bind_M. unfold get_available_vpn_configs.
  rewrite bind_M. unfold call_read_config_map. rewrite Hcm. cbn [objects calls output].
  assert ((λ k, seq 0 (length docs) !!! k) <$> svc = svc) as ->.
  { destruct svc as [k|]; [|done]. apply find_kind_lt in Hsvc. simpl.
    by rewrite lookup_total_seq_lt by lia. }
  unfold resolved_world. rewrite bind_M.
  case_bool_decide; [rewrite print_M|rewrite ret_M]; by rewrite ret_M.
Qed.

(** ** The whole run *)

(** With no name, or fewer names than instances, [provision] stops before
    the loop. *)
Lemma provision_aborts args c dep svc pool w :
  Z.of_nat (length pool) < num_deployments args →
  provision args c dep svc pool w
  = (Raise (SystemExit 1),
     extend w [] [if bool_decide (pool = [])
                  then err_no_vpn_configurations (vpn_configmap_name args)
                  else err_not_enough_vpns (num_deployments args) (length pool)]).
Proof.
  intros Hlt. unfold provision. case_bool_decide.
  - by rewrite bind_M, print_M.
  - rewrite bool_decide_true by done. by rewrite bind_M, print_M.
Qed.

(** With enough names and templates that materialise, the run goes
    through every turn and returns. *)
Lemma run_completes args env docs dep svc pool :
  resolves args env docs dep svc pool →
  pool ≠ [] →
  num_deployments args ≤ Z.of_nat (length pool) →
  materializes args (docs !!! dep) (svc ≫= (docs !!.))
    (slice_to pool (num_deployments args)) (range (num_deployments args)) →
  ∃ copies cs ms,
    run args env
    = (Ok (), {| objects := docs ++ copies;
                 calls := read_namespaced_config_map (vpn_configmap_name args)
                            (namespace args) :: cs;
                 output := ms ++ [successfully_processed (num_deployments args)] |}) ∧
    batch_reports args (docs !!! dep) (svc ≫= (docs !!.))
      (slice_to pool (num_deployments args)) (range (num_deployments args)) cs ms.
Proof.
  intros Hres Hpool Hn Hmat. unfold run. rewrite (main_resolved _ _ _ _ _ _ Hres).
  destruct Hres as (_ & _ & Hdep & Hsvc & _).
  apply find_kind_lt in Hdep.
  assert (docs !! dep = Some (docs !!! dep)) as Hdep'
    by (apply list_lookup_lookup_total_lt; lia).
  unfold provision. rewrite bool_decide_false by done.
  rewrite bool_decide_false by lia. rewrite bind_M.
  assert (∀ k, svc = Some k → is_Some (docs !! k)) as Hsvc'.
  { intros k ->. apply find_kind_lt in Hsvc. apply lookup_lt_is_Some. lia. }
  assert (objects (resolved_world args docs pool) = docs ++ []) as Hobjs.
  { unfold resolved_world. cbn [objects]. by rewrite app_nil_r. }
  destruct (loop_ok args (the_cluster env) docs dep svc
              (slice_to pool (num_deployments args)) (docs !!! dep)
              (range (num_deployments args)) Hdep' Hsvc' Hmat
              (resolved_world args docs pool) [] Hobjs)
    as (copies & cs & ms & Hrun & Hbatch).
  rewrite Hrun, print_M. unfold resolved_world, extend.
  cbn [objects calls output]. rewrite bool_decide_false by done.
  exists copies, cs, ms. split; [|done]. by rewrite app_nil_r.
Qed.

(** The names are given in the order of the pool: the Deployment created
    for the index [i] was prepared with [available_vpns[i]]. *)
Lemma names_in_order args env docs dep svc pool :
  resolves args env docs dep svc pool →
  pool ≠ [] →
  num_deployments args ≤ Z.of_nat (length pool) →
  materializes args (docs !!! dep) (svc ≫= (docs !!.))
    (slice_to pool (num_deployments args)) (range (num_deployments args)) →
  ∃ w,
    run args env = (Ok (), w) ∧
    Forall2 (λ i d, ∃ vpn p, pool !! i = Some vpn ∧
                             prepare_deployment args i vpn (docs !!! dep) = Ok (d, p))
      (range (num_deployments args)) (created_deployments (calls w)).
Proof.
  intros Hres Hpool Hn Hmat.
  destruct (run_completes _ _ _ _ _ _ Hres Hpool Hn Hmat)
    as (copies & cs & ms & Hrun & Hbatch).
  eexists. split; [exact Hrun|]. cbn [calls].
  change (created_deployments (?c :: cs)) with (created_deployments cs).
  assert (∀ i, i ∈ range (num_deployments args) →
               slice_to pool (num_deployments args) !! i = pool !! i) as Hsel.
  { intros i Hi. by apply (selected_lookup _ _ _ Hn) in Hi as [-> _]. }
  clear Hrun Hmat. revert cs ms Hbatch Hsel.
  induction (range (num_deployments args)) as [|i turns IH]; intros cs ms; simpl.
  - intros [-> ->] _. constructor.
  - intros (cs1 & ms1 & cs2 & ms2 & -> & -> & Hturn & Hbatch) Hsel.
    destruct Hturn as (d & p & Hof & Hc & _).
    rewrite created_deployments_app, Hc. constructor.
    + apply deployment_of_inv in Hof as (vpn & Hi & Hprep).
      rewrite Hsel in Hi by (by left). eauto.
    + eapply IH; [done|]. intros j Hj. apply Hsel. by right.
Qed.

(** What the reports of a batch come to, list by list. *)
Lemma batch_reports_flat args template service sel turns cs ms :
  batch_reports args template service sel turns cs ms →
  Forall2 (λ i d, ∃ p, deployment_of args template sel i = Some (d, p))
    turns (created_deployments cs) ∧
  Forall2 (λ i name, ∃ d p, deployment_of args template sel i = Some (d, p) ∧
                            name = new_deployment_name p)
    turns (omap deployment_outcome ms) ∧
  (∀ s, service = Some s →
     Forall2 (λ i s', ∃ name, service_of args template s sel i = Some (s', name))
       turns (created_services cs)) ∧
  (service = None → created_services cs = []) ∧
  length (filter (λ m, is_separator m = true) ms) = length turns.
Proof.
  revert cs ms. induction turns as [|i turns IH]; intros cs ms; simpl.
  - intros [-> ->]. split_and!; try done; constructor.
  - intros (cs1 & ms1 & cs2 & ms2 & -> & -> & Hturn & Hbatch).
    apply IH in Hbatch as (IH1 & IH2 & IH3 & IH4 & IH5).
    destruct Hturn as (d & p & Hof & Hc & Hn & Hsep & _ & Hsvc).
    rewrite created_deployments_app, created_services_app, omap_app, filter_app,
      Hc, Hn, Hsep, length_app, IH5.
    split_and!; try done.
    + constructor; eauto.
    + constructor; eauto.
    + intros s ->. destruct Hsvc as (s' & name & Hs & -> & _).
      constructor; eauto.
    + intros ->. destruct Hsvc as [-> _]. by apply IH4.
Qed.

Lemma additive_deref_all os : additive (deref_all os).
Proof. intros w r w' [= <- <-]. apply grows_refl. Qed.

(** ** The claims on the run *)

(** C8. Whatever the run does and however it ends, once the file is loaded
    every document of it stays as it was loaded: the objects of the final
    state start with the documents, unchanged, and what the run added are
    the copies.  So the base Deployment and the base Service are, after
    the last instance, what they were after loading. *)
Theorem templates_unchanged args env docs r w :
  (kube_config env || incluster_config env) = true →
  template_documents env = Ok docs →
  run args env = (r, w) →
  (∃ copies, objects w = docs ++ copies) ∧
  (∀ k template, docs !! k = Some template → objects w !! k = Some template).
Proof.
  intros Hconf Hdocs Hrun.
  assert (∃ copies, objects w = docs ++ copies) as [copies Hw].
  { unfold run, main in Hrun. rewrite bind_M in Hrun.
    assert (load_configuration env initial = (Ok (), initial)) as Hload.
    { unfold load_configuration. destruct (kube_config env); [done|].
      by destruct (incluster_config env). }
    rewrite Hload, bind_M in Hrun.
    assert (load_template env initial
            = (Ok (seq 0 (length docs)),
               {| objects := docs; calls := []; output := [] |})) as Hloaded.
    { unfold load_template. by rewrite Hdocs. }
    rewrite Hloaded in Hrun.
    match type of Hrun with
    | ?m _ = _ => assert (additive m) as Hadd
    end.
    { repeat first
        [ apply additive_deref_all | apply additive_lift | apply additive_print
        | apply additive_sys_exit | apply additive_get_available_vpn_configs
        | apply additive_provision
        | match goal with
          | |- additive (match ?x with _ => _ end) => destruct x
          | |- ∀ _, additive _ => intros ?
          end
        | apply additive_bind ]. }
    apply Hadd in Hrun as (copies & _ & _ & Hobjs & _). eauto. }
  split; [eauto|]. intros k template Hk. rewrite Hw.
  rewrite lookup_app_l; [done|]. by eapply lookup_lt_Some.
Qed.

Lemma templates_unchanged_witness :
  ∃ copies,
    objects (run (Sample.args 2)
               (Sample.environment_of ["vpnA.ovpn"; "vpnB.ovpn"] Sample.conflict)).2
    = [Sample.deployment; Sample.service] ++ copies.
Proof.
  exact (proj1 (templates_unchanged (Sample.args 2)
                  (Sample.environment_of ["vpnA.ovpn"; "vpnB.ovpn"] Sample.conflict)
                  [Sample.deployment; Sample.service] _ _
                  eq_refl eq_refl (surjective_pairing _))).
Defined.

(** C3, as the script has it.  When the run has found fewer names than
    the instances asked for, it makes no creation and no replacement, it
    copies no template, and it exits with status 1; its last message is
    the one of line 75 on the names missing when at least one name was
    found, and the one of line 71 on the absence of names when none was. *)
Theorem insufficient_pool_aborts args env docs dep svc pool :
  resolves args env docs dep svc pool →
  Z.of_nat (length pool) < num_deployments args →
  ∃ w,
    run args env = (Raise (SystemExit 1), w) ∧
    exit_status (run args env).1 = 1 ∧
    filter (λ c, is_write c = true) (calls w) = [] ∧
    objects w = docs ∧
    last (output w)
    = Some (if bool_decide (pool = [])
            then err_no_vpn_configurations (vpn_configmap_name args)
            else err_not_enough_vpns (num_deployments args) (length pool)).
Proof.
  intros Hres Hlt. unfold run.
  rewrite (main_resolved _ _ _ _ _ _ Hres), (provision_aborts _ _ _ _ _ _ Hlt).
  eexists. split; [reflexivity|]. unfold resolved_world, extend. simpl.
  split_and!; try done. apply last_snoc.
Qed.

Lemma insufficient_pool_aborts_witness :
  ∃ w,
    run (Sample.args 3) (Sample.environment_of ["vpnA.ovpn"; "notes.txt"] Sample.accept)
    = (Raise (SystemExit 1), w) ∧
    filter (λ c, is_write c = true) (calls w) = [] ∧
    last (output w) = Some (err_not_enough_vpns 3 1).
Proof.
  destruct (insufficient_pool_aborts (Sample.args 3)
              (Sample.environment_of ["vpnA.ovpn"; "notes.txt"] Sample.accept)
              [Sample.deployment; Sample.service] 0 (Some 1%nat) ["vpnA"])
    as (w & Hrun & _ & Hcalls & _ & Hlast).
  - split_and!; [reflexivity..|]. eexists. split; reflexivity.
  - simpl. lia.
  - exists w. by split_and!.
Defined.

(** C3 as the specification has it fails when no name at all was found:
    one instance is asked for, the ConfigMap has no key ending in [.ovpn],
    and the run ends on the message of line 71, not on the one of line 75
    that reports the missing names. *)
Lemma insufficient_pool_counterexample :
  resolves (Sample.args 1) (Sample.environment_of ["notes.txt"] Sample.accept)
    [Sample.deployment; Sample.service] 0 (Some 1%nat) [] ∧
  Z.of_nat (length (@nil string)) < num_deployments (Sample.args 1) ∧
  (run (Sample.args 1) (Sample.environment_of ["notes.txt"] Sample.accept)).1
  = Raise (SystemExit 1) ∧
  output (run (Sample.args 1) (Sample.environment_of ["notes.txt"] Sample.accept)).2
  = [warn_no_ovpn_keys "vpn-configs"; err_no_vpn_configurations "vpn-configs"] ∧
  err_not_enough_vpns 1 0
  ∉ output (run (Sample.args 1) (Sample.environment_of ["notes.txt"] Sample.accept)).2.
Proof.
  split_and!.
  - split_and!; [reflexivity..|]. eexists. split; reflexivity.
  - simpl. lia.
  - reflexivity.
  - reflexivity.
  - set (o := output _). vm_compute in o. subst o.
    rewrite !not_elem_of_cons. split_and!; [done..|apply not_elem_of_nil].
Defined.

(** C6, as the script has it.  When the run has found enough names and
    preparing an instance of the templates raises nothing, the run returns
    with status 0 whatever the cluster answers to each call: for every
    index below the count, in order, it has asked for the creation of the
    Deployment of that index and, when the file has a Service, of its
    Service, it has printed one message on the outcome of that Deployment
    and one separator, and its last message is the one of line 164. *)
Theorem batch_completes args env docs dep svc pool :
  resolves args env docs dep svc pool →
  pool ≠ [] →
  num_deployments args ≤ Z.of_nat (length pool) →
  materializes args (docs !!! dep) (svc ≫= (docs !!.))
    (slice_to pool (num_deployments args)) (range (num_deployments args)) →
  ∃ w,
    run args env = (Ok (), w) ∧
    exit_status (run args env).1 = 0 ∧
    Forall2 (λ i d, ∃ p, deployment_of args (docs !!! dep)
                           (slice_to pool (num_deployments args)) i = Some (d, p))
      (range (num_deployments args)) (created_deployments (calls w)) ∧
    Forall2 (λ i name, ∃ d p, deployment_of args (docs !!! dep)
                                (slice_to pool (num_deployments args)) i = Some (d, p) ∧
                              name = new_deployment_name p)
      (range (num_deployments args)) (omap deployment_outcome (output w)) ∧
    (∀ s, svc ≫= (docs !!.) = Some s →
       Forall2 (λ i s', ∃ name, service_of args (docs !!! dep) s
                                  (slice_to pool (num_deployments args)) i
                                = Some (s', name))
         (range (num_deployments args)) (created_services (calls w))) ∧
    length (filter (λ m, is_separator m = true) (output w))
    = length (range (num_deployments args)) ∧
    last (output w) = Some (successfully_processed (num_deployments args)).
Proof.
  intros Hres Hpool Hn Hmat.
  destruct (run_completes _ _ _ _ _ _ Hres Hpool Hn Hmat)
    as (copies & cs & ms & Hrun & Hbatch).
  apply batch_reports_flat in Hbatch as (H1 & H2 & H3 & _ & H5).
  eexists. split; [exact Hrun|]. rewrite Hrun. cbn [fst calls output].
  split_and!; try done.
  - rewrite omap_app. simpl. by rewrite app_nil_r.
  - rewrite filter_app, length_app. simpl. lia.
  - apply last_snoc.
Qed.

Lemma sample_materializes args sel turns :
  (∀ i, i ∈ turns → is_Some (sel !! i)) →
  materializes args Sample.deployment (Some Sample.service) sel turns.
Proof.
  intros Hsel i [vpn Hi]%Hsel. unfold service_of, deployment_of. rewrite Hi.
  eexists _, _. split; [reflexivity|]. intros s [= <-]. eexists _, _. reflexivity.
Qed.

Lemma batch_completes_witness :
  ∃ w,
    run (Sample.args 5)
      (Sample.environment_of
         ["vpn1.ovpn"; "vpn2.ovpn"; "vpn3.ovpn"; "vpn4.ovpn"; "vpn5.ovpn"; "vpn6.ovpn"]
         Sample.third_fails)
    = (Ok (), w) ∧
    length (created_deployments (calls w)) = 5%nat ∧
    length (created_services (calls w)) = 5%nat ∧
    last (output w) = Some (successfully_processed 5).
Proof.
  destruct (batch_completes (Sample.args 5)
              (Sample.environment_of
                 ["vpn1.ovpn"; "vpn2.ovpn"; "vpn3.ovpn"; "vpn4.ovpn"; "vpn5.ovpn";
                  "vpn6.ovpn"] Sample.third_fails)
              [Sample.deployment; Sample.service] 0 (Some 1%nat)
              ["vpn1"; "vpn2"; "vpn3"; "vpn4"; "vpn5"; "vpn6"])
    as (w & Hrun & _ & Hd & _ & Hs & _ & Hlast).
  - split_and!; [reflexivity..|]. eexists. split; reflexivity.
  - done.
  - simpl. lia.
  - apply sample_materializes. intros i Hi.
    by apply (selected_lookup _ 5 i) in Hi as [-> ?].
  - exists w. split_and!; [done| | |done].
    + by rewrite <-(Forall2_length _ _ _ Hd).
    + by rewrite <-(Forall2_length _ _ _ (Hs _ eq_refl)).
Defined.

(** C6 as the specification has it fails on a file whose Service has no
    [metadata]: the run passes the checks, two names are found for two
    instances, every call is accepted, and yet the run raises [KeyError]
    after the creation of the first Deployment, so that the second
    instance is never attempted and the process ends with status 1. *)
Lemma batch_completes_counterexample :
  resolves (Sample.args 2)
    (Sample.environment_with [Sample.deployment; Sample.bare_service]
       (Sample.cluster_with ["vpnA.ovpn"; "vpnB.ovpn"] Sample.accept))
    [Sample.deployment; Sample.bare_service] 0 (Some 1%nat) ["vpnA"; "vpnB"] ∧
  num_deployments (Sample.args 2) ≤ Z.of_nat (length ["vpnA"; "vpnB"]) ∧
  (run (Sample.args 2)
     (Sample.environment_with [Sample.deployment; Sample.bare_service]
        (Sample.cluster_with ["vpnA.ovpn"; "vpnB.ovpn"] Sample.accept))).1
  = Raise (KeyError "metadata") ∧
  exit_status
    (run (Sample.args 2)
       (Sample.environment_with [Sample.deployment; Sample.bare_service]
          (Sample.cluster_with ["vpnA.ovpn"; "vpnB.ovpn"] Sample.accept))).1 = 1 ∧
  omap manifest_name
    (created_deployments
       (calls (run (Sample.args 2)
                 (Sample.environment_with [Sample.deployment; Sample.bare_service]
                    (Sample.cluster_with ["vpnA.ovpn"; "vpnB.ovpn"] Sample.accept))).2))
  = [VStr "viewer-0"].
Proof.
  split_and!.
  - split_and!; [reflexivity..|]. eexists. split; reflexivity.
  - simpl. lia.
  - reflexivity.
  - reflexivity.
  - reflexivity.
Defined.

(** C9. With three instances asked for, the names [vpnA], [vpnB], [vpnC]
    and [vpnD] found in that order and a Deployment named [viewer] in the
    file, the run asks for the creation of three Deployments, named
    [viewer-0], [viewer-1] and [viewer-2], whose [viewer-box] gets [vpnA],
    [vpnB] and [vpnC] as its [VPN_CONFIG]; no Deployment gets [vpnD].
    This holds whatever the cluster answers. *)
Theorem example_three_of_four answer :
  ∃ w,
    run (Sample.args 3)
      (Sample.environment_of ["vpnA.ovpn"; "vpnB.ovpn"; "vpnC.ovpn"; "vpnD.ovpn"] answer)
    = (Ok (), w) ∧
    vpn_names_of_keys ["vpnA.ovpn"; "vpnB.ovpn"; "vpnC.ovpn"; "vpnD.ovpn"]
    = ["vpnA"; "vpnB"; "vpnC"; "vpnD"] ∧
    manifest_name Sample.deployment = Some (VStr "viewer") ∧
    map manifest_name (created_deployments (calls w))
    = [Some (VStr "viewer-0"); Some (VStr "viewer-1"); Some (VStr "viewer-2")] ∧
    map assigned_vpn (created_deployments (calls w))
    = [Some (VStr "vpnA"); Some (VStr "vpnB"); Some (VStr "vpnC")] ∧
    omap deployment_outcome (output w) = ["viewer-0"; "viewer-1"; "viewer-2"] ∧
    (∀ d, d ∈ created_deployments (calls w) → assigned_vpn d ≠ Some (VStr "vpnD")).
Proof.
  destruct (run_completes (Sample.args 3)
              (Sample.environment_of
                 ["vpnA.ovpn"; "vpnB.ovpn"; "vpnC.ovpn"; "vpnD.ovpn"] answer)
              [Sample.deployment; Sample.service] 0 (Some 1%nat)
              ["vpnA"; "vpnB"; "vpnC"; "vpnD"])
    as (copies & cs & ms & Hrun & Hbatch).
  { split_and!; [reflexivity..|]. eexists. split; reflexivity. }
  { done. }
  { simpl. lia. }
  { apply sample_materializes. intros i Hi.
    by apply (selected_lookup _ 3 i) in Hi as [-> ?]. }
  apply batch_reports_flat in Hbatch as (Hd & Hn & _).
  change (range (num_deployments (Sample.args 3))) with [0; 1; 2]%nat in *.
  apply Forall2_cons_inv_l in Hd as (d0 & ? & [p0 H0] & Hd & Ed).
  apply Forall2_cons_inv_l in Hd as (d1 & ? & [p1 H1] & Hd & ->).
  apply Forall2_cons_inv_l in Hd as (d2 & ? & [p2 H2] & Hd & ->).
  apply Forall2_nil_inv_l in Hd as ->.
  apply Forall2_cons_inv_l in Hn as (n0 & ? & (? & ? & K0 & ->) & Hn & En).
  apply Forall2_cons_inv_l in Hn as (n1 & ? & (? & ? & K1 & ->) & Hn & ->).
  apply Forall2_cons_inv_l in Hn as (n2 & ? & (? & ? & K2 & ->) & Hn & ->).
  apply Forall2_nil_inv_l in Hn as ->.
  rewrite H0 in K0. rewrite H1 in K1. rewrite H2 in K2.
  injection K0 as <- <-. injection K1 as <- <-. injection K2 as <- <-.
  vm_compute in H0, H1, H2.
  injection H0 as <- <-. injection H1 as <- <-. injection H2 as <- <-.
  eexists. split; [exact Hrun|]. cbn [calls output].
  change (created_deployments (?c :: cs)) with (created_deployments cs).
  rewrite Ed, omap_app, En.
  split_and!; try reflexivity.
  intros d Hin. rewrite !elem_of_cons, elem_of_nil in Hin.
  destruct Hin as [->|[->|[->|[]]]]; discriminate.
Qed.

(** C1 on the script.  Two keys of the ConfigMap, [a.ovpn] and
    [a.ovpn.ovpn], are different and both qualify; line 19 turns both into
    the name [a], and a run for two instances gives [a] to the first and
    to the second. *)
Theorem same_name_twice :
  NoDup ["a.ovpn"; "a.ovpn.ovpn"] ∧
  vpn_names_of_keys ["a.ovpn"; "a.ovpn.ovpn"] = ["a"; "a"] ∧
  (run (Sample.args 2) (Sample.environment_of ["a.ovpn"; "a.ovpn.ovpn"] Sample.accept)).1
  = Ok () ∧
  map assigned_vpn
    (created_deployments
       (calls (run (Sample.args 2)
                 (Sample.environment_of ["a.ovpn"; "a.ovpn.ovpn"] Sample.accept)).2))
  = [Some (VStr "a"); Some (VStr "a")].
Proof.
  split_and!; try reflexivity.
  apply NoDup_cons. split; [|apply NoDup_singleton].
  rewrite elem_of_cons, elem_of_nil. intros [|[]]. discriminate.
Qed.

End Batch.

(* ================================================================== *)
(** * The names found in the ConfigMap *)
(* ================================================================== *)

Module Resolver.
Import Py K8s DeployViewers Observe.

(** A name is found exactly when it comes from a key that ends with
    [.ovpn]; the other keys give nothing. *)
Lemma qualifies name keys :
  name ∈ vpn_names_of_keys keys ↔
  ∃ key, key ∈ keys ∧ endswith key ".ovpn" = true ∧
         name = replace key ".ovpn" EmptyString.
Proof.
  unfold vpn_names_of_keys. rewrite list_elem_of_fmap. split.
  - intros (key & -> & [Hq Hin]%list_elem_of_filter). eauto.
  - intros (key & Hin & Hq & ->). exists key. split; [done|].
    by apply list_elem_of_filter.
Qed.

(** The names come in the order of the keys. *)
Lemma vpn_names_of_keys_app keys1 keys2 :
  vpn_names_of_keys (keys1 ++ keys2)
  = vpn_names_of_keys keys1 ++ vpn_names_of_keys keys2.
Proof. unfold vpn_names_of_keys. by rewrite filter_app, fmap_app. Qed.

Lemma length_append (s1 s2 : string) :
  String.length (s1 +:+ s2) = (String.length s1 + String.length s2)%nat.
Proof. induction s1 as [|c s1 IH]; simpl; [done|]. by rewrite IH. Qed.

Lemma substring_all (s : string) : String.substring 0 (String.length s) s = s.
Proof. induction s as [|c s IH]; simpl; [done|]. by rewrite IH. Qed.

Lemma substring_append_r (s1 s2 : string) :
  String.substring (String.length s1) (String.length s2) (s1 +:+ s2) = s2.
Proof. induction s1 as [|c s1 IH]; simpl; [apply substring_all | done]. Qed.

Lemma substring_append_l (s1 s2 : string) :
  String.substring 0 (String.length s1) (s1 +:+ s2) = s1.
Proof.
  induction s1 as [|c s1 IH]; simpl; [by destruct s2|]. by rewrite IH.
Qed.

Lemma endswith_append stem suffix : endswith (stem +:+ suffix) suffix = true.
Proof.
  unfold endswith. rewrite length_append. rewrite decide_True by lia.
  apply bool_decide_eq_true.
  replace (String.length stem + String.length suffix - String.length suffix)%nat
    with (String.length stem) by lia.
  apply substring_append_r.
Qed.

Lemma removesuffix_append stem suffix : removesuffix (stem +:+ suffix) suffix = stem.
Proof.
  unfold removesuffix. rewrite endswith_append, length_append.
  replace (String.length stem + String.length suffix - String.length suffix)%nat
    with (String.length stem) by lia.
  apply substring_append_l.
Qed.

(** A stem without a dot holds no [.ovpn], and then line 19 does remove
    the suffix and nothing else. *)
Lemma replace_dotless stem :
  dotless stem = true →
  replace (stem +:+ ".ovpn") ".ovpn" EmptyString = stem.
Proof.
  unfold replace. induction stem as [|c stem IH]; [done|].
  cbn [dotless]. intros [Hc Hstem]%andb_true_iff.
  apply negb_true_iff, bool_decide_eq_false in Hc.
  change (String c stem +:+ ".ovpn") with (String c (stem +:+ ".ovpn")).
  cbn [replace_go].
  assert (String.prefix ".ovpn" (String c (stem +:+ ".ovpn")) = false) as ->.
  { cbn [String.prefix]. destruct (ascii_dec "." c) as [<-|_]; done. }
  by rewrite IH.
Qed.

Lemma dotless_names keys :
  Forall (λ key, ∃ stem, key = stem +:+ ".ovpn" ∧ dotless stem = true) keys →
  vpn_names_of_keys keys = map (λ key, removesuffix key ".ovpn") keys.
Proof.
  induction 1 as [|key keys (stem & -> & Hstem) _ IH]; [done|].
  unfold vpn_names_of_keys in *.
  rewrite filter_cons, decide_True by apply endswith_append.
  cbn [map]. by rewrite IH, replace_dotless, removesuffix_append.
Qed.

(** C2 on the script.  The keys [client.ovpn.ovpn] and
    [us-east.ovpn.bak.ovpn] end with [.ovpn] and qualify; removing the
    suffix gives [client.ovpn] and [us-east.ovpn.bak], and line 19 gives
    [client] and [us-east.bak]: [replace] removes every [.ovpn] of a key,
    not the last one only. *)
Theorem replace_removes_every_occurrence :
  endswith "client.ovpn.ovpn" ".ovpn" = true ∧
  endswith "us-east.ovpn.bak.ovpn" ".ovpn" = true ∧
  map (λ key, removesuffix key ".ovpn") ["client.ovpn.ovpn"; "us-east.ovpn.bak.ovpn"]
  = ["client.ovpn"; "us-east.ovpn.bak"] ∧
  vpn_names_of_keys ["client.ovpn.ovpn"; "us-east.ovpn.bak.ovpn"]
  = ["client"; "us-east.bak"].
Proof. by split_and!. Qed.

End Resolver.

(* ================================================================== *)
(** * Templates that materialise *)
(* ================================================================== *)

Module Shape.
Import Py K8s DeployViewers Observe PyFacts EnvMap Materializer.

Lemma bind_Ok {A B} (a : A) (f : A → result B) : Ok a ≫= f = f a.
Proof. reflexivity. Qed.

Lemma is_dict_inv v : is_dict v = true → ∃ e, v = VDict e.
Proof. destruct v; try discriminate. eauto. Qed.

Lemma dict_or_absent_dict k o : dict_or_absent k o = true → ∃ e, o = VDict e.
Proof. unfold dict_or_absent. destruct o; try discriminate. eauto. Qed.

Lemma dict_or_absent_child k o x :
  dict_or_absent k o = true → getitem o k = Ok x → is_dict x = true.
Proof.
  unfold dict_or_absent. destruct o; try discriminate. simpl.
  destruct (dict_lookup k entries); [|discriminate]. simpl. by intros ? [= <-].
Qed.

Lemma renders_or_absent_get k o dflt x :
  renders_or_absent k o = true → renders dflt = true →
  get o k dflt = Ok x → fstring x = Ok (format x).
Proof.
  unfold renders_or_absent, fstring. destruct o; try discriminate. simpl.
  intros H Hd [= <-]. destruct (dict_lookup k entries); simpl in *; by rewrite ?H, ?Hd.
Qed.

(** ** Statements that go through *)

Lemma update_at_total {A} p (f : value → result (value * A)) root o o' a :
  getitem_at p root = Ok o → f o = Ok (o', a) →
  ∃ root', update_at p f root = Ok (root', a).
Proof.
  revert root. induction p as [|k p IH]; intros root Hget Hf; simpl in *.
  - injection Hget as ->. eauto.
  - bind_inv Hget. destruct (IH _ Hget Hf) as [child' Hc].
    rewrite E. simpl. rewrite Hc. simpl. eauto.
Qed.

Lemma get_at_total p k dflt root e :
  getitem_at p root = Ok (VDict e) → ∃ x, get_at p k dflt root = Ok x.
Proof. intros H. unfold get_at. rewrite H. simpl. eauto. Qed.

Lemma setitem_at_total p k v root e :
  getitem_at p root = Ok (VDict e) → ∃ root', setitem_at p k v root = Ok root'.
Proof.
  intros H. unfold setitem_at.
  edestruct (update_at_total p (λ o, o' ← setitem o k v; Ok (o', ())) root)
    as [r Hr]; [exact H | reflexivity |].
  rewrite Hr. simpl. eauto.
Qed.

Lemma setdefault_at_total p k v root e :
  getitem_at p root = Ok (VDict e) → ∃ root', setdefault_at p k v root = Ok root'.
Proof.
  intros H. unfold setdefault_at.
  assert (∃ o', setdefault (VDict e) k v = Ok o') as [o' Ho'].
  { simpl. destruct (dict_lookup k e); eauto. }
  edestruct (update_at_total p (λ o, o' ← setdefault o k v; Ok (o', ())) root)
    as [r Hr]; [exact H | by rewrite Ho' |].
  rewrite Hr. simpl. eauto.
Qed.

(** After [root[p][k] = v] the object at [p] is a dict. *)
Lemma setitem_at_parent p k v root root' :
  setitem_at p k v root = Ok root' → ∃ e, getitem_at p root' = Ok (VDict e).
Proof.
  unfold setitem_at. intros H. bind_inv H. destruct a as [r []]. injection H as <-.
  apply update_at_ok in E as (o & o' & _ & Hf & Hget).
  bind_inv Hf. injection Hf as <-. destruct o; try discriminate.
  injection E as <-. eauto.
Qed.

Lemma setdefault_at_parent p k v root root' :
  setdefault_at p k v root = Ok root' → ∃ e, getitem_at p root' = Ok (VDict e).
Proof.
  unfold setdefault_at. intros H. bind_inv H. destruct a as [r []]. injection H as <-.
  apply update_at_ok in E as (o & o' & _ & Hf & Hget).
  bind_inv Hf. injection Hf as <-. destruct o; try discriminate. simpl in E.
  destruct (dict_lookup k entries); injection E as <-; eauto.
Qed.

(** After [root[p].setdefault(k, v)] the key holds what it held, or [v]. *)
Lemma setdefault_at_child p k v root root' :
  setdefault_at p k v root = Ok root' →
  ∃ x, getitem_at (p ++ [k]) root' = Ok x ∧
       (getitem_at (p ++ [k]) root = Ok x ∨ x = v).
Proof.
  unfold setdefault_at. intros H. bind_inv H. destruct a as [r []]. injection H as <-.
  apply update_at_ok in E as (o & o' & Ho & Hf & Hget).
  bind_inv Hf. injection Hf as <-.
  destruct (getitem_setdefault_eq _ _ _ _ E) as (x & Hx & Hold).
  exists x. rewrite !getitem_at_app, Ho, Hget. simpl. rewrite Hx.
  destruct Hold as [->| ->]; eauto.
Qed.

(** ** The containers *)

Lemma env_map_of_total evs acc :
  forallb env_entry_ok evs = true → ∃ m, env_map_of evs acc = Ok m.
Proof.
  revert acc. induction evs as [|ev evs IH]; intros acc H; simpl in *; [eauto|].
  apply andb_true_iff in H as [Hev Hevs]. unfold env_entry_ok in Hev.
  destruct (getitem ev "name") as [name|]; [|discriminate]. simpl.
  rewrite Hev. eauto.
Qed.

Lemma set_env_total box stream vpn c :
  is_dict c = true → env_ok c = true → ∃ c', set_env box stream vpn c = Ok c'.
Proof.
  intros [e ->]%is_dict_inv Henv. unfold set_env, env_ok in *.
  destruct (get (VDict e) "env" (VList [])) as [[| | | |evs|]|]; try discriminate.
  rewrite bind_Ok. cbn [iterate]. rewrite bind_Ok.
  destruct (env_map_of_total evs [] Henv) as [m ->]. rewrite bind_Ok.
  simpl. eauto.
Qed.

Lemma update_containers_total box stream vpn cs :
  containers_ok cs = true → ∃ cs' u, update_containers box stream vpn cs = Ok (cs', u).
Proof.
  induction cs as [|c cs IH]; simpl; [eauto|].
  destruct (getitem c "name") as [name|] eqn:E; [|discriminate]. simpl.
  destruct (eq_str name "viewer-box").
  - intros Henv. destruct (set_env_total box stream vpn c) as [c' ->]; [|done|simpl; eauto].
    by apply getitem_dict in E as (d & -> & _).
  - intros [cs' [u ->]]%IH. simpl. eauto.
Qed.

(** An object reached through [p ++ k :: q] goes through a dict at [p]. *)
Lemma getitem_at_prefix_dict p k q root x :
  getitem_at (p ++ k :: q) root = Ok x → ∃ e, getitem_at p root = Ok (VDict e).
Proof.
  rewrite getitem_at_app. destruct (getitem_at p root) as [o|]; [|discriminate].
  simpl. intros H. bind_inv H. apply getitem_dict in E as (e & -> & _). eauto.
Qed.

(** ** The two manifests *)

Lemma prepare_service_total i label s :
  service_shape s = true → ∃ s' name, prepare_service i label s = Ok (s', name).
Proof.
  unfold service_shape, service_selector_path. intros H.
  destruct (getitem_at ["metadata"] s) as [metadata|] eqn:Hm; [|done].
  destruct (getitem_at ["spec"; "selector"] s) as [sel|] eqn:Hs; [|done].
  apply andb_true_iff in H as [H Hname]. apply andb_true_iff in H as [Hl Hsel].
  destruct (dict_or_absent_dict _ _ Hl) as [me ->].
  apply is_dict_inv in Hsel as [se ->].
  unfold prepare_service. cbv zeta.
  destruct (get_at_total ["metadata"] "name" (VStr "viewer-service") s _ Hm) as [n Hn].
  rewrite Hn, bind_Ok. unfold get_at in Hn. rewrite Hm, bind_Ok in Hn.
  rewrite (renders_or_absent_get _ _ (VStr _) _ Hname eq_refl Hn), bind_Ok.
  edestruct (setitem_at_total ["metadata"] "name") as [s1 S1]; [exact Hm|].
  rewrite S1, bind_Ok.
  destruct (setitem_at_parent _ _ _ _ _ S1) as [e1 P1].
  edestruct (setdefault_at_total ["metadata"] "labels") as [s2 S2]; [exact P1|].
  rewrite S2, bind_Ok.
  destruct (setdefault_at_child _ _ _ _ _ S2) as (x & Hx & Hold).
  assert (is_dict x = true) as [e2 ->]%is_dict_inv.
  { destruct Hold as [Hold| ->]; [|done].
    rewrite (setitem_at_frame _ _ _ _ _ _ S1) in Hold by reflexivity.
    rewrite getitem_at_app, Hm, bind_Ok in Hold. cbn [getitem_at] in Hold.
    bind_inv Hold. injection Hold as <-.
    eapply dict_or_absent_child; [exact Hl | eassumption]. }
  edestruct (setitem_at_total ["metadata"; "labels"] "deployment-instance")
    as [s3 S3]; [exact Hx|].
  rewrite S3, bind_Ok.
  assert (getitem_at ["spec"; "selector"] s3 = Ok (VDict se)) as H4
    by (by frame_back).
  edestruct (setitem_at_total ["spec"; "selector"] "component") as [s4 S4]; [exact H4|].
  rewrite S4, bind_Ok.
  destruct (setitem_at_parent _ _ _ _ _ S4) as [e4 P4].
  edestruct (setitem_at_total ["spec"; "selector"] "deployment-instance")
    as [s5 S5]; [exact P4|].
  rewrite S5, bind_Ok. eauto.
Qed.

Lemma prepare_deployment_total args i vpn d :
  deployment_shape d = true → ∃ d' p, prepare_deployment args i vpn d = Ok (d', p).
Proof.
  unfold deployment_shape, selector_path, containers_path. intros H.
  destruct (getitem_at ["metadata"] d) as [metadata|] eqn:Hm; [|done].
  destruct (getitem_at ["spec"; "selector"; "matchLabels"] d) as [ml|] eqn:Hs; [|done].
  destruct (getitem_at ["spec"; "template"; "metadata"] d) as [pm|] eqn:Hp; [|done].
  destruct (getitem_at ["spec"; "template"; "spec"; "containers"] d)
    as [[| | | |cs|]|] eqn:Hc; try done.
  apply andb_true_iff in H as [H Hlabel]. apply andb_true_iff in H as [H Hname].
  apply andb_true_iff in H as [H Hcs]. apply andb_true_iff in H as [H Hpl].
  apply andb_true_iff in H as [Hl Hml].
  destruct (dict_or_absent_dict _ _ Hl) as [me ->].
  destruct (dict_or_absent_dict _ _ Hpl) as [pe ->].
  apply is_dict_inv in Hml as [se ->].
  destruct (getitem_at_prefix_dict ["spec"] "selector" ["matchLabels"] d _ Hs)
    as [spe Hspec].
  unfold prepare_deployment. cbv zeta.
  destruct (get_at_total ["metadata"] "name" (VStr "viewer-deployment") d _ Hm) as [n Hn].
  rewrite Hn, bind_Ok. unfold get_at in Hn. rewrite Hm, bind_Ok in Hn.
  rewrite (renders_or_absent_get _ _ (VStr _) _ Hname eq_refl Hn), bind_Ok.
  destruct (get_at_total ["spec"; "selector"; "matchLabels"] "component" (VStr "viewer")
              d _ Hs) as [c Hc0].
  rewrite Hc0, bind_Ok. unfold get_at in Hc0. rewrite Hs, bind_Ok in Hc0.
  rewrite (renders_or_absent_get _ _ (VStr _) _ Hlabel eq_refl Hc0), bind_Ok.
  edestruct (setitem_at_total ["metadata"] "name") as [d1 S1]; [exact Hm|].
  rewrite S1, bind_Ok.
  destruct (setitem_at_parent _ _ _ _ _ S1) as [e1 P1].
  edestruct (setdefault_at_total ["metadata"] "labels") as [d2 S2]; [exact P1|].
  rewrite S2, bind_Ok.
  destruct (setdefault_at_child _ _ _ _ _ S2) as (x & Hx & Hold).
  assert (is_dict x = true) as [e2 ->]%is_dict_inv.
  { destruct Hold as [Hold| ->]; [|done].
    rewrite (setitem_at_frame _ _ _ _ _ _ S1) in Hold by reflexivity.
    rewrite getitem_at_app, Hm, bind_Ok in Hold. cbn [getitem_at] in Hold.
    bind_inv Hold. injection Hold as <-.
    eapply dict_or_absent_child; [exact Hl | eassumption]. }
  edestruct (setitem_at_total ["metadata"; "labels"] "deployment-instance")
    as [d3 S3]; [exact Hx|].
  rewrite S3, bind_Ok.
  assert (getitem_at ["spec"] d3 = Ok (VDict spe)) as H4 by (by frame_back).
  edestruct (setitem_at_total ["spec"] "replicas") as [d4 S4]; [exact H4|].
  rewrite S4, bind_Ok.
  assert (getitem_at ["spec"; "selector"; "matchLabels"] d4 = Ok (VDict se)) as H5
    by (by frame_back).
  edestruct (setitem_at_total ["spec"; "selector"; "matchLabels"] "component")
    as [d5 S5]; [exact H5|].
  rewrite S5, bind_Ok.
  destruct (setitem_at_parent _ _ _ _ _ S5) as [e5 P5].
  edestruct (setitem_at_total ["spec"; "selector"; "matchLabels"] "deployment-instance")
    as [d6 S6]; [exact P5|].
  rewrite S6, bind_Ok.
  assert (getitem_at ["spec"; "template"; "metadata"] d6 = Ok (VDict pe)) as H7
    by (by frame_back).
  edestruct (setdefault_at_total ["spec"; "template"; "metadata"] "labels")
    as [d7 S7]; [exact H7|].
  rewrite S7, bind_Ok.
  destruct (setdefault_at_child _ _ _ _ _ S7) as (y & Hy & Holdy).
  assert (is_dict y = true) as [e7 ->]%is_dict_inv.
  { destruct Holdy as [Holdy| ->]; [|done].
    revert Holdy. frame_back. rewrite getitem_at_app, Hp, bind_Ok.
    cbn [getitem_at]. intros Holdy. bind_inv Holdy. injection Holdy as <-.
    eapply dict_or_absent_child; [exact Hpl | eassumption]. }
  edestruct (setitem_at_total ["spec"; "template"; "metadata"; "labels"] "component")
    as [d8 S8]; [exact Hy|].
  rewrite S8, bind_Ok.
  destruct (setitem_at_parent _ _ _ _ _ S8) as [e8 P8].
  edestruct (setitem_at_total ["spec"; "template"; "metadata"; "labels"]
               "deployment-instance") as [d9 S9]; [exact P8|].
  rewrite S9, bind_Ok.
  assert (getitem_at ["spec"; "template"; "spec"; "containers"] d9 = Ok (VList cs))
    as H10 by (by frame_back).
  destruct (update_containers_total ("box" +:+ "-" +:+ str_of_nat i) (stream_url args)
              vpn cs Hcs) as (cs' & u & Hu).
  edestruct (update_at_total ["spec"; "template"; "spec"; "containers"]
               (for_containers ("box" +:+ "-" +:+ str_of_nat i) (stream_url args) vpn))
    as [d10 S10]; [exact H10 | simpl; by rewrite Hu |].
  rewrite S10, bind_Ok. eauto.
Qed.

(** ** What the statements leave alone *)

Lemma diverge_app p s q :
  diverge (p ++ s) q = true →
  diverge p q = true ∨ ∃ r, q = p ++ r ∧ diverge s r = true.
Proof.
  revert q. induction p as [|k p IH]; intros q H.
  - right. by exists q.
  - destruct q as [|k' q]; [discriminate|]. simpl in *. case_decide; [|by left].
    subst k'. destruct (IH _ H) as [?|(r & -> & ?)]; [by left|].
    right. by exists r.
Qed.

Lemma setdefault_keeps o k v o' k' c :
  setdefault o k v = Ok o' → getitem o k' = Ok c → getitem o' k' = Ok c.
Proof.
  intros H Hc. destruct (decide (k = k')) as [<-|Hne].
  - destruct o; try discriminate. simpl in *.
    destruct (dict_lookup k entries) eqn:E; [|discriminate].
    injection H as <-. simpl. by rewrite E.
  - by rewrite (getitem_setdefault_ne _ _ _ _ _ H Hne).
Qed.

(** [setdefault] keeps every object that was there: what one could read
    away from the dict, or below it, one still reads. *)
Lemma setdefault_at_keeps p k v k2 q root root' x :
  setdefault_at p k v root = Ok root' →
  diverge (p ++ [k; k2]) q = true →
  getitem_at q root = Ok x → getitem_at q root' = Ok x.
Proof.
  unfold setdefault_at. intros H Hd Hx. bind_inv H. destruct a as [r []].
  injection H as <-. destruct (diverge_app _ _ _ Hd) as [Hp|(s & -> & Hs)].
  - by rewrite (update_at_frame _ _ _ _ _ _ E Hp).
  - destruct s as [|k' s]; [discriminate|].
    apply update_at_ok in E as (o & o' & Ho & Hf & Ho').
    bind_inv Hf. injection Hf as <-.
    rewrite getitem_at_app, Ho, bind_Ok in Hx. rewrite getitem_at_app, Ho', bind_Ok.
    cbn [getitem_at] in *. bind_inv Hx.
    by rewrite (setdefault_keeps _ _ _ _ _ _ E E0), bind_Ok.
Qed.



(** ** Names and labels *)

Lemma prepare_service_names i label s s' name :
  prepare_service i label s = Ok (s', name) →
  (∃ base, get_at ["metadata"] "name" (VStr "viewer-service") s = Ok base ∧
           name = format base +:+ "-" +:+ str_of_nat i) ∧
  getitem_at ["metadata"; "name"] s' = Ok (VStr name) ∧
  getitem_at ["metadata"; "labels"; "deployment-instance"] s' = Ok (VStr (str_of_nat i)).
Proof.
  unfold prepare_service. intros H. cbv zeta in H.
  repeat (let a := fresh "s" in let Ha := fresh "T" in
          apply bind_ok in H as (a & Ha & H); fstring_inv Ha).
  injection H as <- <-. split_and!; [eauto|..].
  - frame_back. apply (setitem_at_read ["metadata"] "name" _ _ _ T0).
  - frame_back. apply (setitem_at_read _ _ _ _ _ T2).
Qed.

(** The suffix of an instance tells its index. *)
Lemma suffix_inj (base : string) i j :
  base +:+ "-" +:+ str_of_nat i = base +:+ "-" +:+ str_of_nat j → i = j.
Proof.
  intros H. apply (inj (String.app base)) in H. apply (inj (String.app "-")) in H.
  by apply (inj pretty) in H.
Qed.

(** X2. The manifest of instance [i] is named after the template, [-] and
    the index, with [viewer-deployment] for a template without a name; its
    [metadata.labels] carry the index as [deployment-instance], and its
    [spec.replicas] is the number asked for on the command line.  The
    Service of the instance is named in the same way, with
    [viewer-service] for a template without a name, and carries the same
    label. *)
Theorem instance_identity args i vpn d d' p :
  prepare_deployment args i vpn d = Ok (d', p) →
  (∃ name, get_at ["metadata"] "name" (VStr "viewer-deployment") d = Ok name ∧
           getitem_at ["metadata"; "name"] d'
           = Ok (VStr (format name +:+ "-" +:+ str_of_nat i))) ∧
  getitem_at ["metadata"; "labels"; "deployment-instance"] d' = Ok (VStr (str_of_nat i)) ∧
  getitem_at ["spec"; "replicas"] d' = Ok (VInt (replicas_per_deployment args)) ∧
  ∀ s s' name,
    prepare_service i (new_component_label p) s = Ok (s', name) →
    (∃ base, get_at ["metadata"] "name" (VStr "viewer-service") s = Ok base ∧
             getitem_at ["metadata"; "name"] s'
             = Ok (VStr (format base +:+ "-" +:+ str_of_nat i))) ∧
    getitem_at ["metadata"; "labels"; "deployment-instance"] s' = Ok (VStr (str_of_nat i)).
Proof.
  intros H. split_and!.
  - destruct (prepare_deployment_names _ _ _ _ _ _ H) as ((name & Hname & Hp) & _ & Hd').
    exists name. by rewrite Hd', Hp.
  - unfold prepare_deployment in H. steps H.
    frame_back. apply (setitem_at_read _ _ _ _ _ S3).
  - unfold prepare_deployment in H. steps H.
    frame_back. apply (setitem_at_read _ _ _ _ _ S4).
  - intros s s' name Hs.
    destruct (prepare_service_names _ _ _ _ _ Hs) as ((base & Hbase & ->) & Hs' & Hl).
    split; [eauto|done].
Qed.

Lemma instance_identity_witness :
  ∃ d' p s' name,
    prepare_deployment (Sample.args 5) 4 "vpnE" Sample.deployment_plain = Ok (d', p) ∧
    getitem_at ["metadata"; "name"] d' = Ok (VStr "viewer-deployment-4") ∧
    getitem_at ["metadata"; "labels"; "deployment-instance"] d' = Ok (VStr "4") ∧
    getitem_at ["spec"; "replicas"] d' = Ok (VInt 1) ∧
    prepare_service 4 (new_component_label p) Sample.service_plain = Ok (s', name) ∧
    getitem_at ["metadata"; "name"] s' = Ok (VStr "viewer-service-4").
Proof.
  destruct (instance_identity (Sample.args 5) 4 "vpnE" Sample.deployment_plain _ _ eq_refl)
    as ((n & Hn & Hname) & Hlabel & Hreplicas & Hsvc).
  injection Hn as <-.
  destruct (Hsvc Sample.service_plain _ _ eq_refl) as ((b & Hb & Hsname) & _).
  injection Hb as <-.
  eexists _, _, _, _. split; [reflexivity|]. split; [exact Hname|].
  split; [exact Hlabel|]. split; [exact Hreplicas|]. split; [reflexivity|exact Hsname].
Defined.

(** Two instances of one template differ in their names and in their
    component labels. *)
Lemma instances_differ args args' i j vpn vpn' d d1 p1 d2 p2 :
  prepare_deployment args i vpn d = Ok (d1, p1) →
  prepare_deployment args' j vpn' d = Ok (d2, p2) →
  i ≠ j →
  new_deployment_name p1 ≠ new_deployment_name p2 ∧
  new_component_label p1 ≠ new_component_label p2.
Proof.
  intros H1 H2 Hne.
  destruct (prepare_deployment_names _ _ _ _ _ _ H1)
    as ((n1 & Hn1 & ->) & (c1 & Hc1 & ->) & _).
  destruct (prepare_deployment_names _ _ _ _ _ _ H2)
    as ((n2 & Hn2 & ->) & (c2 & Hc2 & ->) & _).
  rewrite Hn1 in Hn2. injection Hn2 as <-. rewrite Hc1 in Hc2. injection Hc2 as <-.
  split; intros E; by apply suffix_inj in E.
Qed.

(** ** A template without the container *)



(** ** The order of the variables *)

Lemma map_get_app k m1 m2 :
  map_get k (m1 ++ m2) = from_option Some (map_get k m2) (map_get k m1).
Proof.
  induction m1 as [|[k' v'] m1 IH]; simpl; [done|]. by destruct (key_eqb k' k).
Qed.

(** A new key goes last. *)
Lemma map_set_fresh k v m : map_get k m = None → map_set k v m = m ++ [(k, v)].
Proof.
  induction m as [|[k' v'] m IH]; simpl; [done|].
  destruct (key_eqb k' k); [discriminate|]. intros H. by rewrite IH.
Qed.

(** On a dict whose keys are the names of its entries, [env_map[name] = ev]
    is [env_set] on its values, and the keys stay the names. *)
Lemma map_set_env_set n ev m :
  Forall (λ kv, getitem kv.2 "name" = Ok kv.1) m →
  map snd (map_set (VStr n) ev m) = env_set n ev (map snd m).
Proof.
  induction 1 as [|[k v] m Hk _ IH]; simpl in *; [done|].
  unfold named. rewrite Hk. destruct (key_eqb k (VStr n)); simpl; [done|].
  by rewrite IH.
Qed.

Lemma map_set_keyed n value_ m :
  Forall (λ kv, getitem kv.2 "name" = Ok kv.1) m →
  Forall (λ kv, getitem kv.2 "name" = Ok kv.1) (map_set (VStr n) (env_entry n value_) m).
Proof.
  induction 1 as [|[k v] m Hk Hm IH]; simpl in *.
  - by repeat constructor.
  - destruct (key_eqb k (VStr n)) eqn:E.
    + apply key_eqb_str_eq in E as ->. by constructor.
    + by constructor.
Qed.

(** With names used once, line 112 files the entries in the order of the
    list. *)
Lemma env_map_of_unique old : ∀ names acc,
  env_names old = Some names → NoDup names →
  (∀ n, n ∈ names → map_get (VStr n) acc = None) →
  Forall (λ kv, getitem kv.2 "name" = Ok kv.1) acc →
  ∃ m, env_map_of old acc = Ok m ∧ map snd m = map snd acc ++ old ∧
       Forall (λ kv, getitem kv.2 "name" = Ok kv.1) m.
Proof.
  induction old as [|ev old IH]; intros names acc Hnames Hnd Hfresh Hacc; simpl in *.
  - exists acc. by rewrite app_nil_r.
  - destruct (getitem ev "name") as [[| | |n| |]|] eqn:E; try discriminate.
    destruct (env_names old) as [names'|] eqn:E'; [|discriminate].
    injection Hnames as <-. apply NoDup_cons in Hnd as [Hn Hnd].
    rewrite bind_Ok. cbn [hashable].
    rewrite map_set_fresh by (apply Hfresh; by left).
    destruct (IH names' (acc ++ [(VStr n, ev)]) eq_refl Hnd) as (m & Hm & Hsnd & Hkeyed).
    + intros n' Hn'. rewrite map_get_app, Hfresh by (by right). simpl.
      rewrite bool_decide_false; [done|]. by intros ->.
    + apply Forall_app. split; [done|]. by repeat constructor.
    + exists m. split_and!; [done| |done].
      by rewrite Hsnd, map_app, <-app_assoc.
Qed.



End Shape.

(* ================================================================== *)
(** * Before the loop *)
(* ================================================================== *)

Module Setup.
Import Py K8s DeployViewers Observe PyFacts Batch.

(** ** The documents of the file *)

Lemma find_kind_has_kind kind first tpl rest :
  find_kind kind first (tpl :: rest)
  = has_kind kind tpl ≫= λ b : bool,
      if b then Ok (Some first) else find_kind kind (S first) rest.
Proof.
  simpl. unfold has_kind. destruct (truthy tpl); [|done].
  by destruct (get tpl "kind" VNone).
Qed.

Lemma find_kind_skip kind first pre rest :
  Forall (λ d, has_kind kind d = Ok false) pre →
  find_kind kind first (pre ++ rest) = find_kind kind (first + length pre) rest.
Proof.
  intros H. revert first. induction H as [|d pre Hd _ IH]; intros first.
  - simpl. by rewrite Nat.add_0_r.
  - rewrite <-app_comm_cons, find_kind_has_kind, Hd. simpl. rewrite IH.
    f_equal. lia.
Qed.

(** The test of lines 61-62 goes through on a document exactly when it is
    empty or a dict, whatever the kind looked for. *)
Lemma has_kind_total kind kind' d b :
  has_kind kind d = Ok b → ∃ b', has_kind kind' d = Ok b'.
Proof.
  unfold has_kind. destruct (truthy d); [|eauto].
  destruct (get d "kind" VNone); [simpl; eauto|discriminate].
Qed.

(** X5. [next(..., None)] on the documents: the base template of a kind is
    the first document that is not empty and whose [kind] is that kind;
    the empty documents and the documents of another kind before it are
    passed over, and the documents after it are not looked at.  There is
    none exactly when every document is empty or of another kind. *)
Theorem find_kind_first kind docs :
  (∀ k, find_kind kind 0 docs = Ok (Some k) ↔
        (∃ d, docs !! k = Some d ∧ has_kind kind d = Ok true) ∧
        Forall (λ d, has_kind kind d = Ok false) (take k docs)) ∧
  (find_kind kind 0 docs = Ok None ↔ Forall (λ d, has_kind kind d = Ok false) docs).
Proof.
  assert (∀ first,
    match find_kind kind first docs with
    | Ok (Some k) =>
        (first ≤ k)%nat ∧
        (∃ d, docs !! (k - first)%nat = Some d ∧ has_kind kind d = Ok true) ∧
        Forall (λ d, has_kind kind d = Ok false) (take (k - first) docs)
    | Ok None => Forall (λ d, has_kind kind d = Ok false) docs
    | Raise _ => ¬ Forall (λ d, has_kind kind d = Ok false) docs ∧
                 ∀ k d, docs !! k = Some d → has_kind kind d = Ok true →
                        ¬ Forall (λ d, has_kind kind d = Ok false) (take k docs)
    end) as Hspec.
  { induction docs as [|tpl docs IH]; intros first; [by constructor|].
    rewrite find_kind_has_kind. destruct (has_kind kind tpl) as [[]|e] eqn:Ht; simpl.
    - rewrite Nat.sub_diag. split; [lia|]. split; [eauto|constructor].
    - specialize (IH (S first)). destruct (find_kind kind (S first) docs) as [[k|]|e].
      + destruct IH as (Hk & Hd & Hpre).
        replace (k - first)%nat with (S (k - S first)) by lia.
        split; [lia|]. split; [done|]. by constructor.
      + by constructor.
      + destruct IH as [Hnot Hhit]. split.
        * intros Hall. apply Hnot. by inversion Hall.
        * intros [|k] d Hk Hd; simpl in *.
          { injection Hk as <-. congruence. }
          intros Hall. apply (Hhit k d Hk Hd). by inversion Hall.
    - split.
      + intros Hall. inversion Hall. congruence.
      + intros [|k] d Hk Hd; simpl in *.
        { injection Hk as <-. congruence. }
        intros Hall. inversion Hall. congruence. }
  specialize (Hspec 0%nat). split.
  - intros k. split.
    + intros E. rewrite E in Hspec. rewrite Nat.sub_0_r in Hspec. tauto.
    + intros [(d & Hd & Hkind) Hpre].
      rewrite <-(take_drop_middle docs k d Hd), find_kind_skip by done.
      rewrite find_kind_has_kind, Hkind. simpl. f_equal. f_equal.
      rewrite length_take. apply lookup_lt_Some in Hd. lia.
  - split.
    + intros E. by rewrite E in Hspec.
    + intros Hall. rewrite <-(app_nil_r docs), find_kind_skip by done. done.
Qed.

(** ** The run up to the read of the ConfigMap *)

Lemma load_configuration_ok env w :
  (kube_config env || incluster_config env) = true →
  load_configuration env w = (Ok (), w).
Proof.
  unfold load_configuration. destruct (kube_config env); [done|].
  by destruct (incluster_config env).
Qed.

(** Lines 47-62 on a file that loads. *)
Lemma main_documents args env docs :
  (kube_config env || incluster_config env) = true →
  template_documents env = Ok docs →
  main args env initial
  = (found ← lift (find_kind "Deployment" 0 docs);
     let base_deployment_template := (λ k, seq 0 (length docs) !!! k) <$> found in
     found ← lift (find_kind "Service" 0 docs);
     let base_service_template := (λ k, seq 0 (length docs) !!! k) <$> found in
     match base_deployment_template with
     | None =>
         print (err_no_deployment_definition (template_file args));;
         sys_exit 1
     | Some base_deployment_template =>
         available_vpns ←
           get_available_vpn_configs (the_cluster env) (namespace args)
             (vpn_configmap_name args);
         provision args (the_cluster env) base_deployment_template
           base_service_template available_vpns
     end) (loaded_world docs).
Proof.
  intros Hconf Hdocs. unfold main.
  rewrite bind_M, (load_configuration_ok _ _ Hconf), bind_M.
  assert (load_template env initial = (Ok (seq 0 (length docs)), loaded_world docs)) as ->.
  { unfold load_template. by rewrite Hdocs. }
  rewrite bind_M. unfold deref_all, loaded_world. cbn [objects].
  by rewrite !deref_all_loaded.
Qed.

Lemma main_loaded args env docs dep svc :
  loads env docs dep svc →
  main args env initial
  = (get_available_vpn_configs (the_cluster env) (namespace args)
       (vpn_configmap_name args)
     ≫= provision args (the_cluster env) dep svc) (loaded_world docs).
Proof.
  intros (Hconf & Hdocs & Hdep & Hsvc).
  rewrite (main_documents _ _ _ Hconf Hdocs).
  rewrite bind_M, lift_M, Hdep. cbn [fmap option_fmap option_map].
  rewrite bind_M, lift_M, Hsvc.
  apply find_kind_lt in Hdep. rewrite lookup_total_seq_lt by lia.
  assert ((λ k, seq 0 (length docs) !!! k) <$> svc = svc) as ->; [|done].
  destruct svc as [k|]; [|done]. apply find_kind_lt in Hsvc. simpl.
  by rewrite lookup_total_seq_lt by lia.
Qed.

Lemma find_kind_total kind first docs :
  Forall (λ d, ∃ b, has_kind kind d = Ok b) docs →
  ∃ found, find_kind kind first docs = Ok found.
Proof.
  intros H. revert first. induction H as [|d docs [b Hd] _ IH]; intros first.
  - by exists None.
  - rewrite find_kind_has_kind, Hd. simpl. destruct b; eauto.
Qed.

(** ** The ways the run stops before the loop *)

(** X6. When neither the kubeconfig nor the in-cluster configuration
    loads, the run prints the error of line 53 and exits with status 1: it
    has not opened the template file and has made no call.  When one of
    them loads and the template file cannot be read, the exception of
    [load_template] ends the run as it is, with nothing printed. *)
Theorem no_configuration_exits args env :
  (kube_config env = false → incluster_config env = false →
   run args env = (Raise (SystemExit 1),
                   {| objects := []; calls := []; output := [err_kube_config] |})) ∧
  (∀ e, (kube_config env || incluster_config env) = true →
        template_documents env = Raise e →
        run args env = (Raise e, initial)).
Proof.
  split.
  - intros H1 H2. unfold run, main. rewrite bind_M. unfold load_configuration.
    by rewrite H1, H2.
  - intros e Hconf He.
    unfold run, main. rewrite bind_M, (load_configuration_ok _ _ Hconf), bind_M.
    unfold load_template. by rewrite He.
Qed.

Lemma no_configuration_exits_witness :
  run (Sample.args 1)
    {| kube_config := false; incluster_config := false;
       template_documents := Ok [Sample.deployment];
       the_cluster := Sample.cluster_with ["a.ovpn"] Sample.accept |}
  = (Raise (SystemExit 1), {| objects := []; calls := []; output := [err_kube_config] |}).
Proof.
  apply (proj1 (no_configuration_exits (Sample.args 1)
                  {| kube_config := false; incluster_config := false;
                     template_documents := Ok [Sample.deployment];
                     the_cluster := Sample.cluster_with ["a.ovpn"] Sample.accept |}));
    reflexivity.
Defined.

(** X7. When no document of the file is a Deployment (the file is empty,
    or holds empty documents, Services and other kinds only), the run
    prints the error of line 65 with the name of the file and exits with
    status 1 before any call: the ConfigMap is not read. *)
Theorem no_deployment_definition_exits args env docs :
  (kube_config env || incluster_config env) = true →
  template_documents env = Ok docs →
  Forall (λ d, has_kind "Deployment" d = Ok false) docs →
  run args env
  = (Raise (SystemExit 1),
     {| objects := docs; calls := [];
        output := [err_no_deployment_definition (template_file args)] |}).
Proof.
  intros Hconf Hdocs Hall. unfold run. rewrite (main_documents _ _ _ Hconf Hdocs).
  assert (find_kind "Deployment" 0 docs = Ok None) as Hdep.
  { rewrite <-(app_nil_r docs), find_kind_skip by done. done. }
  destruct (find_kind_total "Service" 0 docs) as [svc Hsvc].
  { eapply Forall_impl; [exact Hall|]. intros d Hd. exact (has_kind_total _ _ _ _ Hd). }
  rewrite bind_M, lift_M, Hdep. cbn [fmap option_fmap option_map].
  by rewrite bind_M, lift_M, Hsvc, bind_M, print_M.
Qed.

Lemma no_deployment_definition_exits_witness :
  run (Sample.args 1)
    (Sample.environment_with [VNone; Sample.service]
       (Sample.cluster_with ["a.ovpn"] Sample.accept))
  = (Raise (SystemExit 1),
     {| objects := [VNone; Sample.service]; calls := [];
        output := [err_no_deployment_definition "viewer-box-deployment.yaml"] |}).
Proof.
  apply (no_deployment_definition_exits (Sample.args 1)
           (Sample.environment_with [VNone; Sample.service]
              (Sample.cluster_with ["a.ovpn"] Sample.accept))
           [VNone; Sample.service]); [reflexivity..|].
  by repeat constructor.
Defined.

(** X8. A document that is not empty and not a dict (a list, a str, a
    number) has no [get]: when the search for the Deployment or the search
    for the Service reaches it, that is, when no Deployment or no Service
    comes before it, the run ends on [AttributeError], with nothing
    printed and no call made. *)
Theorem stray_document_raises args env docs j doc kind :
  (kube_config env || incluster_config env) = true →
  template_documents env = Ok docs →
  docs !! j = Some doc → truthy doc = true → is_dict doc = false →
  kind = "Deployment" ∨ kind = "Service" →
  Forall (λ d, has_kind kind d = Ok false) (take j docs) →
  run args env = (Raise AttributeError, loaded_world docs).
Proof.
  intros Hconf Hdocs Hj Htruthy Hdict Hkind Hpre. unfold run.
  rewrite (main_documents _ _ _ Hconf Hdocs).
  assert (∀ kind', has_kind kind' doc = Raise AttributeError) as Hdoc.
  { intros kind'. unfold has_kind. rewrite Htruthy. by destruct doc. }
  assert (∀ kind', Forall (λ d, has_kind kind' d = Ok false) (take j docs) →
                   find_kind kind' 0 docs = Raise AttributeError) as Hraise.
  { intros kind' Hall. rewrite <-(take_drop_middle docs j doc Hj), find_kind_skip by done.
    by rewrite find_kind_has_kind, Hdoc. }
  rewrite bind_M, lift_M.
  destruct (find_kind "Deployment" 0 docs) as [found|e] eqn:Hdep.
  - rewrite bind_M, lift_M. destruct Hkind as [->| ->].
    + by rewrite Hraise in Hdep.
    + by rewrite Hraise.
  - destruct Hkind as [->| ->].
    { rewrite Hraise in Hdep by done. by injection Hdep as <-. }
    (* the search for the Deployment stopped on the document, or before it
       on one that is not a dict either *)
    assert (e = AttributeError) as ->; [|done].
    clear Hraise. revert Hdep. rewrite <-(take_drop_middle docs j doc Hj).
    generalize (drop (S j) docs). generalize 0%nat.
    induction Hpre as [|d pre Hd _ IH]; intros first post; simpl app.
    + rewrite find_kind_has_kind, Hdoc. by intros [= <-].
    + rewrite find_kind_has_kind.
      destruct (has_kind_total _ "Deployment" _ _ Hd) as [b ->].
      simpl. destruct b; [discriminate|]. apply IH.
Qed.

Lemma stray_document_raises_witness :
  run (Sample.args 1)
    (Sample.environment_with [Sample.deployment; VList [VStr "note"]; Sample.service]
       (Sample.cluster_with ["a.ovpn"] Sample.accept))
  = (Raise AttributeError,
     loaded_world [Sample.deployment; VList [VStr "note"]; Sample.service]).
Proof.
  apply (stray_document_raises (Sample.args 1)
           (Sample.environment_with [Sample.deployment; VList [VStr "note"]; Sample.service]
              (Sample.cluster_with ["a.ovpn"] Sample.accept))
           [Sample.deployment; VList [VStr "note"]; Sample.service] 1
           (VList [VStr "note"]) "Service"); [reflexivity..|by right|].
  by repeat constructor.
Defined.

(** X9. When the read of the ConfigMap fails, the run exits with status 1
    after that one call, with no instance prepared: on a 404 it prints the
    three lines of lines 25-27, on any other status the line of line 29
    with the status; when the ConfigMap is there without a [data] field,
    it prints the line of line 32. *)
Theorem config_map_unreadable_exits args env docs dep svc :
  loads env docs dep svc →
  (config_maps (the_cluster env) (vpn_configmap_name args) (namespace args)
   = ConfigMapException 404 →
   run args env
   = (Raise (SystemExit 1),
      {| objects := docs;
         calls := [read_namespaced_config_map (vpn_configmap_name args) (namespace args)];
         output := [err_config_map_not_found (vpn_configmap_name args) (namespace args);
                    hint_ensure_config_map; hint_config_map_entries] |})) ∧
  (∀ status,
     config_maps (the_cluster env) (vpn_configmap_name args) (namespace args)
     = ConfigMapException status →
     status ≠ 404 →
     run args env
     = (Raise (SystemExit 1),
        {| objects := docs;
           calls := [read_namespaced_config_map (vpn_configmap_name args)
                       (namespace args)];
           output := [err_fetching_config_map (vpn_configmap_name args) status] |})) ∧
  (config_maps (the_cluster env) (vpn_configmap_name args) (namespace args)
   = ConfigMap None →
   run args env
   = (Raise (SystemExit 1),
      {| objects := docs;
         calls := [read_namespaced_config_map (vpn_configmap_name args) (namespace args)];
         output := [err_config_map_no_data (vpn_configmap_name args)
                      (namespace args)] |})).
Proof.
  intros Hloads. unfold run.
  rewrite (main_loaded _ _ _ _ _ Hloads), bind_M.
  unfold get_available_vpn_configs, call_read_config_map, loaded_world.
  rewrite bind_M. cbn [objects calls output]. split_and!.
  - intros ->. reflexivity.
  - intros status -> Hne. apply Z.eqb_neq in Hne. rewrite bind_M, Hne. reflexivity.
  - intros ->. reflexivity.
Qed.

Lemma config_map_unreadable_exits_witness :
  run (Sample.args 2)
    (Sample.environment_with [Sample.deployment; Sample.service]
       {| config_maps := λ _ _, ConfigMapException 403; respond := Sample.accept |})
  = (Raise (SystemExit 1),
     {| objects := [Sample.deployment; Sample.service];
        calls := [read_namespaced_config_map "vpn-configs" "stream-viewers"];
        output := [err_fetching_config_map "vpn-configs" 403] |}).
Proof.
  refine (proj1 (proj2 (config_map_unreadable_exits (Sample.args 2)
            (Sample.environment_with [Sample.deployment; Sample.service]
               {| config_maps := λ _ _, ConfigMapException 403;
                  respond := Sample.accept |})
            [Sample.deployment; Sample.service] 0 (Some 1%nat) _)) 403 eq_refl _).
  - by split_and!.
  - done.
Defined.

(** X10. When the ConfigMap has data and none of its keys ends with
    [.ovpn] (its data is empty, or holds other files only), the function
    prints the warning of line 21 and returns no name, and the run then
    prints the error of line 71 and exits with status 1, however many
    instances were asked for, none or a negative number included. *)
Theorem no_ovpn_key_exits args env docs dep svc data :
  loads env docs dep svc →
  config_maps (the_cluster env) (vpn_configmap_name args) (namespace args)
  = ConfigMap (Some data) →
  Forall (λ key, endswith key ".ovpn" = false) (map fst data) →
  run args env
  = (Raise (SystemExit 1),
     {| objects := docs;
        calls := [read_namespaced_config_map (vpn_configmap_name args) (namespace args)];
        output := [warn_no_ovpn_keys (vpn_configmap_name args);
                   err_no_vpn_configurations (vpn_configmap_name args)] |}).
Proof.
  intros Hloads Hcm Hkeys.
  assert (vpn_names_of_keys (map fst data) = []) as Hnames.
  { unfold vpn_names_of_keys. induction Hkeys as [|key keys Hkey _ IH]; [done|].
    rewrite filter_cons, decide_False by (by rewrite Hkey). done. }
  unfold run.
  rewrite (main_resolved args env docs dep svc []).
  - unfold provision, resolved_world. rewrite bool_decide_true by done.
    by rewrite bind_M, print_M.
  - destruct Hloads as (? & ? & ? & ?). split_and!; [done..|]. by exists data.
Qed.

Lemma no_ovpn_key_exits_witness :
  run (Sample.args 0) (Sample.environment_of ["notes.txt"; "ca.crt"] Sample.accept)
  = (Raise (SystemExit 1),
     {| objects := [Sample.deployment; Sample.service];
        calls := [read_namespaced_config_map "vpn-configs" "stream-viewers"];
        output := [warn_no_ovpn_keys "vpn-configs";
                   err_no_vpn_configurations "vpn-configs"] |}).
Proof.
  apply (no_ovpn_key_exits (Sample.args 0)
           (Sample.environment_of ["notes.txt"; "ca.crt"] Sample.accept)
           [Sample.deployment; Sample.service] 0 (Some 1%nat)
           [("notes.txt", "client"); ("ca.crt", "client")]).
  - by split_and!.
  - reflexivity.
  - by repeat constructor.
Defined.

(** X11. When names were found and the number of instances asked for is
    zero or negative, the run copies no template and makes no call after
    the read of the ConfigMap; it prints the message of line 164 with that
    number and returns with status 0. *)
Theorem nothing_requested_succeeds args env docs dep svc pool :
  resolves args env docs dep svc pool →
  pool ≠ [] →
  num_deployments args ≤ 0 →
  run args env
  = (Ok (),
     {| objects := docs;
        calls := [read_namespaced_config_map (vpn_configmap_name args) (namespace args)];
        output := [successfully_processed (num_deployments args)] |}) ∧
  exit_status (run args env).1 = 0.
Proof.
  intros Hres Hpool Hn.
  assert (run args env
          = (Ok (),
             {| objects := docs;
                calls := [read_namespaced_config_map (vpn_configmap_name args)
                            (namespace args)];
                output := [successfully_processed (num_deployments args)] |})) as Hrun.
  { unfold run. rewrite (main_resolved _ _ _ _ _ _ Hres).
    unfold provision, resolved_world. rewrite !bool_decide_false by (done || lia).
    unfold range. replace (Z.to_nat (num_deployments args)) with 0%nat by lia.
    simpl. by rewrite bind_M, ret_M, print_M. }
  by rewrite Hrun.
Qed.

Lemma nothing_requested_succeeds_witness :
  run (Sample.args (-2)) (Sample.environment_of ["vpnA.ovpn"] Sample.accept)
  = (Ok (),
     {| objects := [Sample.deployment; Sample.service];
        calls := [read_namespaced_config_map "vpn-configs" "stream-viewers"];
        output := [successfully_processed (-2)] |}).
Proof.
  refine (proj1 (nothing_requested_succeeds (Sample.args (-2))
                   (Sample.environment_of ["vpnA.ovpn"] Sample.accept)
                   [Sample.deployment; Sample.service] 0 (Some 1%nat) ["vpnA"] _ _ _)).
  - split_and!; [reflexivity..|]. eexists. split; reflexivity.
  - done.
  - simpl. lia.
Defined.

End Setup.

(* ================================================================== *)
(** * What every run calls and prints *)
(* ================================================================== *)

Module Trace.
Import Py K8s DeployViewers Observe PyFacts Batch.

(** ** Calls and messages that all satisfy a predicate *)

Section emits.
Context (Pc : api_call → Prop) (Pm : message → Prop).

Local Abbreviation P := (λ cs ms, Forall Pc cs ∧ Forall Pm ms).

Lemma emits_silent {A} (m : M A) :
  (∀ w r w', m w = (r, w') → calls w' = calls w ∧ output w' = output w) →
  emits P m.
Proof.
  intros Hm w r w' [Hc Ho]%Hm. exists [], [].
  by rewrite Hc, Ho, !app_nil_r.
Qed.

Lemma emits_ret {A} (a : A) : emits P (mret a).
Proof. apply emits_silent. by intros w r w' [= <- <-]. Qed.

Lemma emits_lift {A} (r : result A) : emits P (lift r).
Proof. apply emits_silent. by intros w r' w' [= <- <-]. Qed.

Lemma emits_sys_exit {A} code : emits P (sys_exit (A := A) code).
Proof. apply emits_lift. Qed.

Lemma emits_deepcopy o : emits P (deepcopy o).
Proof. apply emits_silent. intros w r w'. rewrite deepcopy_M. by intros [= <- <-]. Qed.

Lemma emits_deref o : emits P (deref o).
Proof. apply emits_silent. by intros w r w' [= <- <-]. Qed.

Lemma emits_deref_all os : emits P (deref_all os).
Proof. apply emits_silent. by intros w r w' [= <- <-]. Qed.

Lemma emits_mutate {A} o (f : value → result (value * A)) : emits P (mutate o f).
Proof.
  apply emits_silent. intros w r w'. rewrite mutate_M.
  destruct (f _) as [[v a]|e]; by intros [= <- <-].
Qed.

Lemma emits_load_template env : emits P (load_template env).
Proof.
  apply emits_silent. intros w r w'. unfold load_template.
  destruct (template_documents env); by intros [= <- <-].
Qed.

Lemma emits_print m : Pm m → emits P (print m).
Proof.
  intros Hm w r w' [= <- <-]. exists [], [m]. simpl. rewrite app_nil_r.
  split_and!; [done..|by constructor|by repeat constructor].
Qed.

Lemma emits_call c request : Pc request → emits P (call c request).
Proof.
  intros Hc w r w' [= <- <-]. exists [request], []. simpl. rewrite app_nil_r.
  split_and!; [done..|by repeat constructor|by constructor].
Qed.

Lemma emits_read c name ns :
  Pc (read_namespaced_config_map name ns) → emits P (call_read_config_map c name ns).
Proof.
  intros Hc w r w' [= <- <-]. exists [read_namespaced_config_map name ns], []. simpl.
  rewrite app_nil_r. split_and!; [done..|by repeat constructor|by constructor].
Qed.

Lemma emits_bind {A B} (m : M A) (f : A → M B) :
  emits P m → (∀ a, emits P (f a)) → emits P (m ≫= f).
Proof.
  intros Hm Hf w r w'. rewrite bind_M.
  destruct (m w) as [[a|e] w1] eqn:E; intros H.
  - destruct (Hm _ _ _ E) as (cs1 & ms1 & Hc1 & Ho1 & Hcs1 & Hms1).
    destruct (Hf _ _ _ _ H) as (cs2 & ms2 & Hc2 & Ho2 & Hcs2 & Hms2).
    exists (cs1 ++ cs2), (ms1 ++ ms2).
    rewrite Hc2, Ho2, Hc1, Ho1, <-!app_assoc.
    split_and!; [done..|by apply Forall_app|by apply Forall_app].
  - injection H as <- <-. eauto.
Qed.

Lemma emits_for_each {A} (xs : list A) body :
  (∀ x, emits P (body x)) → emits P (for_each xs body).
Proof.
  intros Hbody. induction xs as [|x xs IH]; simpl.
  - apply emits_ret.
  - apply emits_bind; [apply Hbody | by intros _].
Qed.

End emits.

(** Goes through a computation statement by statement; what is left is to
    show the predicate on each call and on each message. *)
Ltac emits_steps :=
  repeat first
    [ apply emits_ret | apply emits_lift | apply emits_sys_exit | apply emits_deepcopy
    | apply emits_deref | apply emits_deref_all | apply emits_mutate
    | apply emits_load_template | apply emits_for_each
    | apply emits_print | apply emits_call | apply emits_read
    | apply emits_bind
    | match goal with
      | |- ∀ _, emits _ _ => intros ?
      | |- emits _ (match ?x with _ => _ end) => destruct x
      end ].

(** The whole script, for predicates that hold of every call it can make
    and of every message it can print but the last. *)
Lemma emits_apply_deployment Pc Pm c ns name vpn body :
  Pc (create_namespaced_deployment ns body) →
  Pc (replace_namespaced_deployment name ns body) →
  (∀ m, deployment_outcome m = Some name → Pm m) →
  emits (λ cs ms, Forall Pc cs ∧ Forall Pm ms) (apply_deployment c ns name vpn body).
Proof.
  intros H1 H2 Hm. unfold apply_deployment. emits_steps; try done; by apply Hm.
Qed.

Lemma emits_apply_service Pc Pm c ns name body :
  Pc (create_namespaced_service ns body) →
  (∀ m, service_outcome m = Some name → Pm m) →
  emits (λ cs ms, Forall Pc cs ∧ Forall Pm ms) (apply_service c ns name body).
Proof.
  intros H1 Hm. unfold apply_service. emits_steps; try done; by apply Hm.
Qed.

Lemma emits_instance Pc Pm args c base svc sel i :
  (∀ request, is_write request = true → call_namespace request = namespace args →
              Pc request) →
  (∀ m, is_success m = false → is_fatal m = false → Pm m) →
  emits (λ cs ms, Forall Pc cs ∧ Forall Pm ms) (instance args c base svc sel i).
Proof.
  intros Hc Hm. unfold instance, deploy_instance, expose_instance.
  emits_steps;
    first [ apply emits_apply_deployment | apply emits_apply_service
          | by apply Hm | idtac ];
    try (by apply Hc);
    intros [] [= <-]; by apply Hm.
Qed.

(** ** The parts of the script *)

Ltac emits_run :=
  repeat first
    [ match goal with
      | H : _ |- emits _ (instance _ _ _ _ _ _) => apply H
      end
    | apply emits_ret | apply emits_lift | apply emits_sys_exit | apply emits_deref_all
    | apply emits_load_template | apply emits_for_each
    | apply emits_print | apply emits_read
    | apply emits_bind
    | match goal with
      | |- ∀ _, emits _ _ => intros ?
      | |- emits _ (match ?x with _ => _ end) => destruct x
      end ].

Section script.
Context (Pc : api_call → Prop) (Pm : message → Prop).
Context (args : arguments) (env : environment).

Local Abbreviation P := (λ cs ms, Forall Pc cs ∧ Forall Pm ms).

Hypothesis P_instance :
  ∀ base svc sel i, emits P (instance args (the_cluster env) base svc sel i).
Hypothesis Pm_quiet : ∀ m, is_success m = false → outcome_of m = None → Pm m.

Lemma emits_load_configuration : emits P (load_configuration env).
Proof. unfold load_configuration. emits_run. by apply Pm_quiet. Qed.

Lemma emits_get_available_vpn_configs c :
  Pc (read_namespaced_config_map (vpn_configmap_name args) (namespace args)) →
  emits P (get_available_vpn_configs c (namespace args) (vpn_configmap_name args)).
Proof.
  intros Hread. unfold get_available_vpn_configs. emits_run; try done; by apply Pm_quiet.
Qed.

Lemma emits_loop base svc sel turns :
  emits P (for_each turns (instance args (the_cluster env) base svc sel)).
Proof. apply emits_for_each. intros i. apply P_instance. Qed.

Lemma emits_provision base svc available :
  Pm (successfully_processed (num_deployments args)) →
  emits P (provision args (the_cluster env) base svc available).
Proof.
  intros Hlast. unfold provision. emits_run; try done; by apply Pm_quiet.
Qed.

Lemma emits_main :
  Pc (read_namespaced_config_map (vpn_configmap_name args) (namespace args)) →
  Pm (successfully_processed (num_deployments args)) →
  emits P (main args env).
Proof.
  intros Hread Hlast. unfold main.
  apply emits_bind; [apply emits_load_configuration|]. intros _.
  apply emits_bind; [apply emits_load_template|]. intros templates.
  apply emits_bind; [apply emits_deref_all|]. intros documents.
  apply emits_bind; [apply emits_lift|]. intros found.
  apply emits_bind; [apply emits_lift|]. intros found'.
  destruct (_ <$> found) as [base|].
  - apply emits_bind; [by apply emits_get_available_vpn_configs|]. intros available.
    by apply emits_provision.
  - emits_run. by apply Pm_quiet.
Qed.

End script.

(** ** Every run *)

(** X12. Whatever the file, the cluster and the command line, and however
    the run ends, every call it made, the read of the ConfigMap and each
    creation and replacement, is in the namespace of the command line. *)
Theorem calls_stay_in_namespace args env :
  Forall (λ c, call_namespace c = namespace args) (calls (run args env).2).
Proof.
  unfold run. destruct (main args env initial) as [r w] eqn:E.
  apply (emits_main (λ c, call_namespace c = namespace args) (λ _, True) args env) in E
    as (cs & ms & Hc & _ & Hcs & _); try done.
  - simpl in *. by rewrite Hc.
  - intros. by apply emits_instance.
Qed.

Lemma get_available_vpn_configs_calls c ns name w r w' :
  get_available_vpn_configs c ns name w = (r, w') →
  calls w' = calls w ++ [read_namespaced_config_map name ns].
Proof.
  unfold get_available_vpn_configs, call_read_config_map. rewrite bind_M.
  destruct (config_maps c name ns) as [[data|]|status].
  - rewrite bind_M. case_bool_decide; rewrite ?print_M, ?ret_M; intros [= <- <-];
      simpl; by rewrite ?app_nil_r.
  - rewrite bind_M, print_M. intros [= <- <-]. simpl. by rewrite app_nil_r.
  - rewrite bind_M. destruct (status =? 404); rewrite ?bind_M, !print_M;
      intros [= <- <-]; simpl; by rewrite ?app_nil_r.
Qed.

Lemma emits_weaken {A} (P P' : list api_call → list message → Prop) (m : M A) :
  emits P m → (∀ cs ms, P cs ms → P' cs ms) → emits P' m.
Proof.
  intros Hm HP w r w' E. destruct (Hm _ _ _ E) as (cs & ms & ? & ? & ?).
  exists cs, ms. eauto.
Qed.

(** One computation after the other. *)
Lemma emits_seq {A B} (P1 P2 P3 : list api_call → list message → Prop)
    (m : M A) (f : A → M B) :
  emits P1 m → (∀ a, emits P2 (f a)) →
  (∀ cs ms, P1 cs ms → P3 cs ms) →
  (∀ cs1 ms1 cs2 ms2, P1 cs1 ms1 → P2 cs2 ms2 → P3 (cs1 ++ cs2) (ms1 ++ ms2)) →
  emits P3 (m ≫= f).
Proof.
  intros Hm Hf Hraise Hseq w r w'. rewrite bind_M.
  destruct (m w) as [[a|e] w1] eqn:E; intros H.
  - destruct (Hm _ _ _ E) as (cs1 & ms1 & Hc1 & Ho1 & H1).
    destruct (Hf _ _ _ _ H) as (cs2 & ms2 & Hc2 & Ho2 & H2).
    exists (cs1 ++ cs2), (ms1 ++ ms2). rewrite Hc2, Ho2, Hc1, Ho1, <-!app_assoc. eauto.
  - injection H as <- <-. destruct (Hm _ _ _ E) as (cs1 & ms1 & ? & ? & ?).
    exists cs1, ms1. eauto.
Qed.

(** X13. The ConfigMap is read at most once, and before anything is
    written: the calls of a run are none at all, or the read of the
    ConfigMap of the command line followed by creations and replacements
    only. *)
Theorem config_map_read_first args env :
  calls (run args env).2 = [] ∨
  ∃ writes,
    calls (run args env).2
    = read_namespaced_config_map (vpn_configmap_name args) (namespace args) :: writes ∧
    Forall (λ c, is_write c = true) writes.
Proof.
  set (read := read_namespaced_config_map (vpn_configmap_name args) (namespace args)).
  set (P := λ (cs : list api_call) (_ : list message),
              cs = [] ∨ ∃ writes, cs = read :: writes ∧
                                  Forall (λ c, is_write c = true) writes).
  set (silent := λ (cs : list api_call) (ms : list message),
                   Forall (λ _ : api_call, False) cs ∧
                   Forall (λ _ : message, True) ms).
  assert (∀ cs ms, silent cs ms → cs = []) as Hsilent.
  { intros [|c cs] ms [Hcs _]; [done|]. by inversion Hcs. }
  assert (∀ A B (m : M A) (f : A → M B),
            emits silent m → (∀ a, emits P (f a)) → emits P (m ≫= f)) as Hprefix.
  { intros A B m f Hm Hf. eapply emits_seq; [exact Hm|exact Hf|..].
    - intros cs ms ->%Hsilent. by left.
    - by intros cs1 ms1 cs2 ms2 ->%Hsilent. }
  assert (emits P (main args env)) as Hmain.
  { unfold main.
    apply Hprefix; [by apply emits_load_configuration|]. intros _.
    apply Hprefix; [apply emits_load_template|]. intros templates.
    apply Hprefix; [apply emits_deref_all|]. intros documents.
    apply Hprefix; [apply emits_lift|]. intros found.
    apply Hprefix; [apply emits_lift|]. intros found'.
    destruct (_ <$> found) as [base|].
    - eapply (emits_seq (λ cs _, cs = [read])
                (λ cs ms, Forall (λ c, is_write c = true) cs ∧
                          Forall (λ _ : message, True) ms)).
      + intros w r w' E. apply get_available_vpn_configs_calls in E as Hc.
        apply (emits_get_available_vpn_configs (λ _, True) (λ _, True) args) in E
          as (cs & ms & Hcs & Hms & _); try done.
        exists cs, ms. split_and!; [done..|].
        rewrite Hcs in Hc. by apply app_inv_head in Hc.
      + intros available. apply emits_provision; try done.
        intros. by apply emits_instance.
      + intros cs ms ->. right. by exists [].
      + intros cs1 ms1 cs2 ms2 -> [Hw _]. right. by exists cs2.
    - eapply emits_weaken.
      + apply (emits_bind (λ _, False) (λ _, True));
          [by apply emits_print | intros _; apply emits_sys_exit].
      + intros cs ms ->%Hsilent. by left. }
  unfold run. destruct (main args env initial) as [r w] eqn:E.
  apply Hmain in E as (cs & ms & Hc & _ & HP). cbn [snd]. by rewrite Hc.
Qed.

(** ** How a run ends *)

Section concludes.
Context (args : arguments) (env : environment).

Local Abbreviation quiet := (λ cs ms, Forall (λ _ : api_call, True) cs ∧
                                      Forall (λ m, is_success m = false) ms).

Lemma concludes_bind {A B} n (m : M A) (f : A → M B) :
  emits quiet m → (∀ a, concludes n (f a)) → concludes n (m ≫= f).
Proof.
  intros Hm Hf w r w'. rewrite bind_M.
  destruct (m w) as [[a|e] w1] eqn:E; intros H.
  - destruct (Hm _ _ _ E) as (cs1 & ms1 & _ & Ho1 & _ & Hq1).
    destruct (Hf _ _ _ _ H) as (ms2 & Ho2 & Hr).
    exists (ms1 ++ ms2). rewrite Ho2, Ho1, <-app_assoc. split; [done|].
    destruct r.
    + destruct Hr as (ms' & -> & Hq'). exists (ms1 ++ ms').
      rewrite <-app_assoc. split; [done|]. by apply Forall_app.
    + by apply Forall_app.
  - injection H as <- <-.
    destruct (Hm _ _ _ E) as (cs1 & ms1 & _ & Ho1 & _ & Hq1). eauto.
Qed.

Lemma concludes_sys_exit {A} n code : concludes n (sys_exit (A := A) code).
Proof. intros w r w' [= <- <-]. exists []. by rewrite app_nil_r. Qed.

Lemma concludes_print_success n : concludes n (print (successfully_processed n)).
Proof. intros w r w' [= <- <-]. eexists. split; [done|]. by exists []. Qed.

Lemma concludes_provision base svc available :
  concludes (num_deployments args) (provision args (the_cluster env) base svc available).
Proof.
  unfold provision. repeat case_bool_decide.
  - apply concludes_bind; [by apply emits_print|]. intros _. apply concludes_sys_exit.
  - apply concludes_bind; [by apply emits_print|]. intros _. apply concludes_sys_exit.
  - apply concludes_bind; [|intros _; apply concludes_print_success].
    apply emits_loop. intros. by apply emits_instance.
Qed.

Lemma concludes_main : concludes (num_deployments args) (main args env).
Proof.
  unfold main.
  apply concludes_bind; [by apply emits_load_configuration|]. intros _.
  apply concludes_bind; [apply emits_load_template|]. intros templates.
  apply concludes_bind; [apply emits_deref_all|]. intros documents.
  apply concludes_bind; [apply emits_lift|]. intros found.
  apply concludes_bind; [apply emits_lift|]. intros found'.
  destruct (_ <$> found) as [base|].
  - apply concludes_bind; [by apply emits_get_available_vpn_configs|]. intros available.
    apply concludes_provision.
  - apply concludes_bind; [by apply emits_print|]. intros _. apply concludes_sys_exit.
Qed.

End concludes.

(** X14. The run prints the message of line 164, "Successfully processed
    ... deployments", exactly when it returns: a run that returns has
    printed it last and once, with the number of instances asked for, and
    a run that ends on [sys.exit] or on an exception has not printed it. *)
Theorem success_message_iff_returns args env :
  ((run args env).1 = Ok () ↔
   last (output (run args env).2)
   = Some (successfully_processed (num_deployments args))) ∧
  ((run args env).1 = Ok () →
   filter (λ m, is_success m = true) (output (run args env).2)
   = [successfully_processed (num_deployments args)]) ∧
  ((run args env).1 ≠ Ok () →
   filter (λ m, is_success m = true) (output (run args env).2) = []).
Proof.
  assert (∀ ms, Forall (λ m, is_success m = false) ms →
                filter (λ m, is_success m = true) ms = []) as Hquiet.
  { induction 1 as [|m ms Hm _ IH]; [done|].
    rewrite filter_cons, decide_False by (by rewrite Hm). done. }
  unfold run. destruct (main args env initial) as [r w] eqn:E.
  destruct (concludes_main args env _ _ _ E) as (ms & Ho & Hr).
  cbn [output initial] in Ho. simpl in Ho. subst ms. cbn [fst snd].
  destruct r as [[]|e].
  - destruct Hr as (ms' & -> & Hq). rewrite last_snoc, filter_app, (Hquiet _ Hq).
    split_and!; [done|done|]. by intros [].
  - split_and!.
    + split; [discriminate|]. intros Hlast.
      apply last_Some in Hlast as [ms' Hw]. rewrite Hw in Hr.
      apply Forall_app in Hr as [_ Hr]. by inversion Hr.
    + discriminate.
    + intros _. by apply Hquiet.
Qed.

Lemma success_message_iff_returns_witness :
  last (output (run (Sample.args 1)
                  (Sample.environment_of ["a.ovpn"] Sample.third_fails)).2)
  = Some (successfully_processed 1) ∧
  filter (λ m, is_success m = true)
    (output (run (Sample.args 1) (Sample.environment_of ["notes.txt"] Sample.accept)).2)
  = [].
Proof.
  split.
  - apply (proj1 (proj1 (success_message_iff_returns (Sample.args 1)
                           (Sample.environment_of ["a.ovpn"] Sample.third_fails)))).
    reflexivity.
  - apply (proj2 (proj2 (success_message_iff_returns (Sample.args 1)
                           (Sample.environment_of ["notes.txt"] Sample.accept)))).
    discriminate.
Defined.

(** ** Creations and replacements *)

(** X15. Applying a Deployment makes one creation and, exactly when the
    cluster answered it with a conflict (409), one replacement after it,
    with the same manifest and under the name of the instance; when the
    creation went through, the only message is that the Deployment was
    created.  Applying a Service makes one creation and nothing else,
    whatever the answer.  Either way one message is printed and the script
    goes on. *)
Theorem one_creation_per_manifest c ns name vpn body w :
  (∃ cs ms,
     apply_deployment c ns name vpn body w = (Ok (), extend w cs ms) ∧
     length ms = 1%nat ∧
     (respond c (calls w) (create_namespaced_deployment ns body) = ApiException 409 ∧
      cs = [create_namespaced_deployment ns body;
            replace_namespaced_deployment name ns body] ∨
      respond c (calls w) (create_namespaced_deployment ns body) ≠ ApiException 409 ∧
      cs = [create_namespaced_deployment ns body]) ∧
     (respond c (calls w) (create_namespaced_deployment ns body) = ApiOk →
      ms = [deployment_created name vpn])) ∧
  (∃ ms,
     apply_service c ns name body w
     = (Ok (), extend w [create_namespaced_service ns body] ms) ∧
     length ms = 1%nat ∧
     (respond c (calls w) (create_namespaced_service ns body) = ApiOk →
      ms = [service_created name])).
Proof.
  destruct w as [objs cs out]. split.
  - Reconciler.run_M.
    destruct (respond c cs (create_namespaced_deployment ns body)) as [|status] eqn:E;
      simpl.
    { eexists [_], [_]. split_and!; [done..| |done]. right. by split. }
    destruct (status =? 409) eqn:Hs; simpl.
    + apply Z.eqb_eq in Hs as ->.
      destruct (respond c _ (replace_namespaced_deployment name ns body)); simpl;
        eexists [_; _], [_]; rewrite <-app_assoc;
        (split_and!; [done..| |done]); left; by split.
    + apply Z.eqb_neq in Hs. eexists [_], [_]. split_and!; [done..| |done].
      right. split; [congruence|done].
  - Reconciler.run_M.
    destruct (respond c cs (create_namespaced_service ns body)) as [|status]; simpl.
    { eexists [_]. by split_and!. }
    destruct (status =? 409); simpl; eexists [_]; by split_and!.
Qed.

Lemma one_creation_per_manifest_witness :
  ∃ ms,
    apply_deployment (Sample.cluster_with [] Sample.accept) "ns" "viewer-0" "vpnA"
      Sample.deployment initial
    = (Ok (), extend initial [create_namespaced_deployment "ns" Sample.deployment] ms) ∧
    ms = [deployment_created "viewer-0" "vpnA"].
Proof.
  destruct (proj1 (one_creation_per_manifest (Sample.cluster_with [] Sample.accept)
                     "ns" "viewer-0" "vpnA" Sample.deployment initial))
    as (cs & ms & Happly & _ & [[Hc _]|[_ ->]] & Hms); [discriminate|].
  exists ms. split; [exact Happly|]. by apply Hms.
Defined.

(** What applying a Deployment calls. *)
Lemma apply_deployment_calls c ns name vpn body w :
  ∃ cs ms,
    apply_deployment c ns name vpn body w = (Ok (), extend w cs ms) ∧
    (cs = [create_namespaced_deployment ns body] ∨
     cs = [create_namespaced_deployment ns body;
           replace_namespaced_deployment name ns body]).
Proof.
  destruct w as [objs cs out]. Reconciler.run_M.
  destruct (respond c cs _) as [|status]; simpl; [eexists [_], [_]; eauto|].
  destruct (status =? 409); simpl; [|eexists [_], [_]; eauto].
  destruct (respond c _ _); simpl; eexists [_; _], [_]; rewrite <-app_assoc; eauto.
Qed.

(** The calls of the first half of a turn: none when the instance could
    not be prepared, and else those of applying its manifest under its
    name. *)
Lemma deploy_instance_calls args c base sel i w r w' :
  deploy_instance args c base sel i w = (r, w') →
  ∃ cs, calls w' = calls w ++ cs ∧
    (cs = [] ∨
     ∃ vpn d' p,
       prepare_deployment args i vpn (objects w !!! base) = Ok (d', p) ∧
       (cs = [create_namespaced_deployment (namespace args) d'] ∨
        cs = [create_namespaced_deployment (namespace args) d';
              replace_namespaced_deployment (new_deployment_name p) (namespace args) d'])).
Proof.
  intros H. unfold deploy_instance, index in H.
  destruct (sel !! i) as [vpn|].
  2: { rewrite bind_M, lift_M in H. injection H as <- <-. exists []. rewrite app_nil_r. eauto. }
  do 3 (rewrite bind_M in H; first [rewrite lift_M in H | rewrite deepcopy_M in H
                                     | rewrite mutate_M in H];
        cbn [objects calls output] in H).
  rewrite copy_lookup in H.
  destruct (prepare_deployment args i vpn (objects w !!! base)) as [[d' p]|e] eqn:Hp.
  2: { injection H as <- <-. exists []. cbn [calls]. rewrite app_nil_r. eauto. }
  rewrite copy_insert, bind_M in H.
  match type of H with
  | context [(if ?b then ?m1 else ?m2) ?w0] =>
      assert (∃ out, (if b then m1 else m2) w0
                     = (Ok (), {| objects := objects w ++ [d']; calls := calls w;
                                  output := out |})) as [out Hwarn]
  end.
  { destruct (container_updated p); eexists; reflexivity. }
  rewrite Hwarn, bind_M, deref_M in H. cbn [objects] in H. rewrite copy_lookup in H.
  rewrite bind_M in H.
  match type of H with
  | context [apply_deployment ?c ?ns ?n ?v ?b ?w0] =>
      destruct (apply_deployment_calls c ns n v b w0) as (cs & ms & Happly & Hcs)
  end.
  rewrite Happly, ret_M in H. injection H as <- <-. exists cs. split; [done|].
  right. exists vpn, d', p. eauto.
Qed.

(** X16. In every run, each replacement is asked for under the name that
    the manifest sent with it carries in [metadata.name]: the name of the
    call and the name in the body never differ. *)
Theorem replace_names_its_manifest args env :
  Forall names_its_manifest (calls (run args env).2).
Proof.
  unfold run. destruct (main args env initial) as [r w] eqn:E.
  apply (emits_main names_its_manifest (λ _, True) args env) in E
    as (cs & ms & Hc & _ & Hcs & _); try done.
  { simpl in *. by rewrite Hc. }
  intros base svc sel i. unfold instance.
  apply emits_bind.
  - intros w0 r0 w0' H.
    pose proof (additive_deploy_instance _ _ _ _ _ _ _ _ H) as (copies & cs & ms & _ & Hc & Hm).
    apply deploy_instance_calls in H as (cs' & Hc' & Hcs').
    exists cs, ms. split_and!; [done..| |by apply Forall_true].
    rewrite Hc in Hc'. apply app_inv_head in Hc' as ->.
    destruct Hcs' as [->|(vpn & d' & p & Hp & Hcs')]; [constructor|].
    assert (names_its_manifest
              (replace_namespaced_deployment (new_deployment_name p) (namespace args) d'))
      as Hname.
    { destruct (Materializer.prepare_deployment_names _ _ _ _ _ _ Hp) as (_ & _ & Hd').
      unfold names_its_manifest, manifest_name. by rewrite Hd'. }
    destruct Hcs' as [-> | ->]; by repeat constructor.
  - intros p. unfold expose_instance.
    emits_steps; first [done | by apply emits_apply_service].
Qed.

(** ** Uniform clusters *)

(** A turn, from what applying a manifest emits. *)
Lemma emits_instance_of Pc Pm args c base svc sel i :
  (∀ name vpn body,
     emits (λ cs ms, Forall Pc cs ∧ Forall Pm ms)
       (apply_deployment c (namespace args) name vpn body)) →
  (∀ name body,
     emits (λ cs ms, Forall Pc cs ∧ Forall Pm ms)
       (apply_service c (namespace args) name body)) →
  (∀ m, outcome_of m = None → is_success m = false → is_fatal m = false → Pm m) →
  emits (λ cs ms, Forall Pc cs ∧ Forall Pm ms) (instance args c base svc sel i).
Proof.
  intros Hd Hs Hm. unfold instance, deploy_instance, expose_instance.
  apply emits_bind.
  { apply emits_bind; [apply emits_lift|]. intros vpn.
    apply emits_bind; [apply emits_deepcopy|]. intros o.
    apply emits_bind; [apply emits_mutate|]. intros p.
    apply emits_bind.
    { destruct (container_updated p); [apply emits_ret|by apply emits_print, Hm]. }
    intros _. apply emits_bind; [apply emits_deref|]. intros body.
    apply emits_bind; [apply Hd|]. intros _. apply emits_ret. }
  intros p. apply emits_bind; [|intros _; by apply emits_print, Hm].
  destruct svc as [k|]; [|apply emits_ret].
  apply emits_bind; [apply emits_deepcopy|]. intros o.
  apply emits_bind; [apply emits_mutate|]. intros name.
  apply emits_bind; [apply emits_deref|]. intros body. apply Hs.
Qed.

(** ** What a run that returns has reported *)

Lemma recounts_bind {A B} os1 os2 (m : M A) (f : A → M B) :
  recounts os1 m → (∀ a, recounts os2 (f a)) → recounts (os1 ++ os2) (m ≫= f).
Proof.
  intros Hm Hf w b w'. rewrite bind_M. destruct (m w) as [[a|e] w1] eqn:E; [|done].
  intros H. by rewrite (Hf _ _ _ _ H), (Hm _ _ _ E), app_assoc.
Qed.

Lemma recounts_quiet {A} (m : M A) :
  emits (λ cs ms, Forall (λ _, True) cs ∧ Forall (λ m, outcome_of m = None) ms) m →
  recounts [] m.
Proof.
  intros Hm w a w' H. destruct (Hm _ _ _ H) as (cs & ms & _ & -> & _ & Hms).
  rewrite omap_app. f_equal. induction Hms as [|m0 ms Hm0 _ IH]; [done|].
  simpl. by rewrite Hm0.
Qed.

Lemma recounts_then {A B} os (m : M A) (f : A → M B) :
  recounts [] m → (∀ a, recounts os (f a)) → recounts os (m ≫= f).
Proof. intros Hm Hf. by apply (recounts_bind [] os). Qed.

Lemma recounts_last {A B} os (m : M A) (f : A → M B) :
  recounts os m → (∀ a, recounts [] (f a)) → recounts os (m ≫= f).
Proof.
  intros Hm Hf. rewrite <-(app_nil_r os). by apply recounts_bind.
Qed.

Lemma recounts_for_each {A} turn (xs : list A) body :
  (∀ x, recounts turn (body x)) →
  recounts (turns_of (length xs) turn) (for_each xs body).
Proof.
  intros Hbody. induction xs as [|x xs IH]; simpl.
  - intros w a w' [= <- <-]. by rewrite app_nil_r.
  - apply (recounts_bind turn); [apply Hbody | by intros _].
Qed.

(** A turn reports on its Deployment, then on its Service when the file
    has one, whatever applying a manifest reports. *)
Lemma recounts_instance od os args c base svc sel i :
  (∀ name vpn body, recounts [od] (apply_deployment c (namespace args) name vpn body)) →
  (∀ name body, recounts [os] (apply_service c (namespace args) name body)) →
  recounts (od :: match svc with Some _ => [os] | None => [] end)
    (instance args c base svc sel i).
Proof.
  intros Hd Hs. unfold instance, deploy_instance, expose_instance.
  apply (recounts_bind [od]).
  { apply recounts_then; [apply recounts_quiet, emits_lift|]. intros vpn.
    apply recounts_then; [apply recounts_quiet, emits_deepcopy|]. intros o.
    apply recounts_then; [apply recounts_quiet, emits_mutate|]. intros p.
    apply recounts_then.
    { apply recounts_quiet.
      destruct (container_updated p); [apply emits_ret|by apply emits_print]. }
    intros _. apply recounts_then; [apply recounts_quiet, emits_deref|]. intros body.
    apply recounts_last; [apply Hd|]. intros _. apply recounts_quiet, emits_ret. }
  intros p. apply recounts_last; [|intros _; by apply recounts_quiet, emits_print].
  destruct svc as [k|]; [|apply recounts_quiet, emits_ret].
  apply recounts_then; [apply recounts_quiet, emits_deepcopy|]. intros o.
  apply recounts_then; [apply recounts_quiet, emits_mutate|]. intros name.
  apply recounts_then; [apply recounts_quiet, emits_deref|]. intros body. apply Hs.
Qed.

(** The run from the loaded file on: the turns of the loop. *)
Lemma recounts_run od os args env docs dep svc :
  (∀ name vpn body,
     recounts [od] (apply_deployment (the_cluster env) (namespace args) name vpn body)) →
  (∀ name body,
     recounts [os] (apply_service (the_cluster env) (namespace args) name body)) →
  loads env docs dep svc →
  (run args env).1 = Ok () →
  omap outcome_of (output (run args env).2)
  = turns_of (Z.to_nat (num_deployments args))
      (od :: match svc with Some _ => [os] | None => [] end).
Proof.
  intros Hd Hs Hloads. unfold run. rewrite (Setup.main_loaded _ _ _ _ _ Hloads).
  match goal with
  | |- context [?m (loaded_world docs)] =>
      destruct (m (loaded_world docs)) as [r w] eqn:E
  end.
  cbn [fst snd]. intros ->.
  match goal with
  | |- _ = ?os' =>
      change (omap outcome_of (output w)
              = omap outcome_of (output (loaded_world docs)) ++ os')
  end.
  revert E. apply (recounts_then (A := list string)).
  - apply recounts_quiet. unfold get_available_vpn_configs.
    emits_run; first [done | by constructor].
  - intros available. unfold provision. repeat case_bool_decide.
    + intros w0 a w0'. by rewrite bind_M, print_M.
    + intros w0 a w0'. by rewrite bind_M, print_M.
    + apply recounts_last; [|intros _; by apply recounts_quiet, emits_print].
      assert (Z.to_nat (num_deployments args) = length (range (num_deployments args)))
        as -> by (unfold range; by rewrite length_seq).
      apply recounts_for_each. intros i. by apply recounts_instance.
Qed.

(** X17. On a cluster where nothing exists yet, a run asks for no
    replacement and reports nothing but creations.  On a cluster where
    everything exists already, as when the script is run a second time, a
    run reports nothing but Deployments replaced and Services skipped:
    nothing is reported created, and nothing failed.  And a run that
    returns has reported on every instance, in the order of the instances:
    on the first cluster its Deployment created, then its Service created
    when the file has a Service; on the second its Deployment replaced,
    then its Service skipped. *)
Theorem uniform_cluster_outcomes args env :
  (fresh (the_cluster env) →
   Forall (λ c, is_replace c = false) (calls (run args env).2) ∧
   Forall (λ m, outcome_of m = None ∨ outcome_of m = Some Created)
     (output (run args env).2)) ∧
  (populated (the_cluster env) →
   Forall (λ m, outcome_of m = None ∨
                (∃ name vpn, m = deployment_replaced name vpn) ∨
                (∃ name, m = service_exists_skipping name))
     (output (run args env).2)) ∧
  (∀ docs dep svc,
     loads env docs dep svc → (run args env).1 = Ok () →
     (fresh (the_cluster env) →
      omap outcome_of (output (run args env).2)
      = turns_of (Z.to_nat (num_deployments args))
          (Created :: match svc with Some _ => [Created] | None => [] end)) ∧
     (populated (the_cluster env) →
      omap outcome_of (output (run args env).2)
      = turns_of (Z.to_nat (num_deployments args))
          (Replaced :: match svc with Some _ => [Skipped] | None => [] end))).
Proof.
  split_and!.
  - unfold run. destruct (main args env initial) as [r w] eqn:E. cbn [snd].
    intros Hfresh.
    apply (emits_main (λ c, is_replace c = false)
             (λ m, outcome_of m = None ∨ outcome_of m = Some Created) args env) in E
      as (cs & ms & Hc & Ho & Hcs & Hms).
    + simpl in Hc, Ho. by rewrite Hc, Ho.
    + intros base svc sel i. apply emits_instance_of.
      * intros name vpn body w0 r0 w0'. unfold apply_deployment, call.
        rewrite bind_M. cbn [calls]. rewrite Hfresh, print_M. intros [= <- <-].
        eexists [_], [_]. cbn [extend calls output]. rewrite app_nil_r.
        split_and!; [done|done|by repeat constructor|]. apply Forall_singleton. by right.
      * intros name body w0 r0 w0'. unfold apply_service, call.
        rewrite bind_M. cbn [calls]. rewrite Hfresh, print_M. intros [= <- <-].
        eexists [_], [_]. cbn [extend calls output]. rewrite app_nil_r.
        split_and!; [done|done|by repeat constructor|]. apply Forall_singleton. by right.
      * intros m Hm _ _. by left.
    + intros m _ Hm. by left.
    + done.
    + by left.
  - unfold run. destruct (main args env initial) as [r w] eqn:E. cbn [snd].
    intros Hpop.
    apply (emits_main (λ _, True)
             (λ m, outcome_of m = None ∨
                   (∃ name vpn, m = deployment_replaced name vpn) ∨
                   (∃ name, m = service_exists_skipping name)) args env) in E
      as (cs & ms & Hc & Ho & Hcs & Hms).
    + simpl in Ho. by rewrite Ho.
    + intros base svc sel i. apply emits_instance_of.
      * intros name vpn body w0 r0 w0'. unfold apply_deployment, call.
        rewrite bind_M. cbn [calls]. rewrite Hpop. cbn [Z.eqb Pos.eqb].
        rewrite bind_M. cbn [calls]. rewrite Hpop, print_M. intros [= <- <-].
        eexists [_; _], [_]. cbn [extend calls output]. rewrite app_nil_r, <-app_assoc.
        split_and!; [done|done|by repeat constructor|]. apply Forall_singleton.
        right. left. eauto.
      * intros name body w0 r0 w0'. unfold apply_service, call.
        rewrite bind_M. cbn [calls]. rewrite Hpop. cbn [Z.eqb Pos.eqb].
        rewrite print_M. intros [= <- <-].
        eexists [_], [_]. cbn [extend calls output]. rewrite app_nil_r.
        split_and!; [done|done|by repeat constructor|]. apply Forall_singleton.
        right. right. eauto.
      * intros m Hm _ _. by left.
    + intros m _ Hm. by left.
    + done.
    + by left.
  - intros docs dep svc Hloads Hret. split.
    + intros Hfresh. apply (recounts_run Created Created _ _ docs dep svc); [| |done..].
      * intros name vpn body w0 [] w0'. unfold apply_deployment, call.
        rewrite bind_M. cbn [calls]. rewrite Hfresh, print_M. intros [= <-].
        cbn [extend output]. by rewrite omap_app.
      * intros name body w0 [] w0'. unfold apply_service, call.
        rewrite bind_M. cbn [calls]. rewrite Hfresh, print_M. intros [= <-].
        cbn [extend output]. by rewrite omap_app.
    + intros Hpop. apply (recounts_run Replaced Skipped _ _ docs dep svc); [| |done..].
      * intros name vpn body w0 [] w0'. unfold apply_deployment, call.
        rewrite bind_M. cbn [calls]. rewrite Hpop. cbn [Z.eqb Pos.eqb].
        rewrite bind_M. cbn [calls]. rewrite Hpop, print_M. intros [= <-].
        cbn [extend output]. by rewrite omap_app.
      * intros name body w0 [] w0'. unfold apply_service, call.
        rewrite bind_M. cbn [calls]. rewrite Hpop. cbn [Z.eqb Pos.eqb].
        rewrite print_M. intros [= <-].
        cbn [extend output]. by rewrite omap_app.
Qed.

Lemma uniform_cluster_outcomes_witness :
  omap outcome_of
    (output (run (Sample.args 2)
               (Sample.environment_of ["a.ovpn"; "b.ovpn"] Sample.conflict)).2)
  = [Replaced; Skipped; Replaced; Skipped].
Proof.
  refine (proj2 (proj2 (proj2 (uniform_cluster_outcomes (Sample.args 2)
                  (Sample.environment_of ["a.ovpn"; "b.ovpn"] Sample.conflict)))
            [Sample.deployment; Sample.service] 0%nat (Some 1%nat) _ eq_refl) _).
  - by split_and!.
  - by intros history [].
Defined.

End Trace.

(* ================================================================== *)
(** * Runs on well-formed templates *)
(* ================================================================== *)

Module Fleet.
Import Py K8s DeployViewers Observe PyFacts Materializer Batch Shape.

Lemma shaped_materializes args template service sel turns :
  deployment_shape template = true →
  (∀ s, service = Some s → service_shape s = true) →
  (∀ i, i ∈ turns → is_Some (sel !! i)) →
  materializes args template service sel turns.
Proof.
  intros Hd Hs Hsel i [vpn Hi]%Hsel.
  destruct (prepare_deployment_total args i vpn template Hd) as (d' & p & Hp).
  exists d', p. unfold service_of, deployment_of, deployment_manifest. rewrite Hi. simpl.
  rewrite Hp. split; [done|]. intros s Hsvc. simpl.
  destruct (prepare_service_total i (new_component_label p) s (Hs s Hsvc))
    as (s' & name & Hs').
  exists s', name. unfold service_manifest. by rewrite Hs'.
Qed.

(** The run on a file whose templates have the shape: it goes through
    every turn. *)
Lemma shaped_run args env docs dep svc pool :
  resolves args env docs dep svc pool →
  pool ≠ [] →
  num_deployments args ≤ Z.of_nat (length pool) →
  deployment_shape (docs !!! dep) = true →
  (∀ k, svc = Some k → service_shape (docs !!! k) = true) →
  ∃ copies cs ms,
    run args env
    = (Ok (), {| objects := docs ++ copies;
                 calls := read_namespaced_config_map (vpn_configmap_name args)
                            (namespace args) :: cs;
                 output := ms ++ [successfully_processed (num_deployments args)] |}) ∧
    batch_reports args (docs !!! dep) (svc ≫= (docs !!.))
      (slice_to pool (num_deployments args)) (range (num_deployments args)) cs ms.
Proof.
  intros Hres Hpool Hn Hd Hs. apply run_completes; try done.
  apply shaped_materializes; [done|..].
  - intros s Hsvc. destruct svc as [k|]; [|done]. simpl in Hsvc.
    rewrite <-(Hs k eq_refl). f_equal. symmetry. by apply list_lookup_total_correct.
  - intros i Hi. by apply (selected_lookup _ _ _ Hn) in Hi as [-> ?].
Qed.



(** ** The names of the manifests *)

Lemma deployment_names_flat args template sel turns ds :
  Forall2 (λ i d, ∃ p, deployment_of args template sel i = Some (d, p)) turns ds →
  ∃ base, map manifest_name ds
          = map (λ i, Some (VStr (base +:+ "-" +:+ str_of_nat i))) turns.
Proof.
  intros H.
  exists (match get_at ["metadata"] "name" (VStr "viewer-deployment") template with
          | Ok name => format name
          | Raise _ => EmptyString
          end).
  induction H as [|i d turns ds [p Hof] _ IH]; [done|]. simpl. rewrite IH. f_equal.
  apply deployment_of_inv in Hof as (vpn & _ & Hp).
  destruct (prepare_deployment_names _ _ _ _ _ _ Hp) as ((name & -> & Hn) & _ & Hd).
  unfold manifest_name. by rewrite Hd, Hn.
Qed.

Lemma service_names_flat args template s sel turns ss :
  Forall2 (λ i s', ∃ name, service_of args template s sel i = Some (s', name)) turns ss →
  ∃ base, map manifest_name ss
          = map (λ i, Some (VStr (base +:+ "-" +:+ str_of_nat i))) turns.
Proof.
  intros H.
  exists (match get_at ["metadata"] "name" (VStr "viewer-service") s with
          | Ok name => format name
          | Raise _ => EmptyString
          end).
  induction H as [|i s' turns ss [name Hof] _ IH]; [done|]. simpl. rewrite IH. f_equal.
  unfold service_of in Hof.
  destruct (deployment_of args template sel i) as [[d p]|]; [|done]. simpl in Hof.
  unfold service_manifest in Hof.
  destruct (prepare_service i (new_component_label p) s) as [r|] eqn:Hs; [|done].
  injection Hof as ->.
  destruct (prepare_service_names _ _ _ _ _ Hs) as ((base & -> & ->) & Hs' & _).
  unfold manifest_name. by rewrite Hs'.
Qed.

Lemma suffixed_names_distinct (base : string) turns :
  NoDup turns →
  NoDup (map (λ i, Some (VStr (base +:+ "-" +:+ str_of_nat i))) turns).
Proof.
  intros Hnd. apply NoDup_fmap_2_strong; [|done].
  intros i j _ _ [= E]. by apply suffix_inj in E.
Qed.



(** ** The name of each instance *)

Lemma assigned_flat (f : value → option value) (sel : list string) n : ∀ a ds,
  Forall2 (λ i d, ∃ vpn, sel !! i = Some vpn ∧ f d = Some (VStr vpn)) (seq a n) ds →
  map f ds = map (λ vpn, Some (VStr vpn)) (take n (drop a sel)).
Proof.
  induction n as [|n IH]; intros a ds H; simpl in *.
  - by apply Forall2_nil_inv_l in H as ->.
  - apply Forall2_cons_inv_l in H as (d & ds' & (vpn & Hvpn & Hd) & H & ->).
    rewrite (drop_S _ _ _ Hvpn). simpl. rewrite Hd, (IH _ _ H). done.
Qed.



(** ** A template that cannot be prepared *)

(** X21. The script does not check the template before the loop.  When
    preparing the first instance raises (the Deployment has no [metadata],
    or no [spec.selector.matchLabels], or [containers] holds something
    without a name), the exception ends the run there: the template has
    been copied, nothing has been printed, and no creation has been asked
    for. *)
Theorem unprepared_template_stops args env docs dep svc pool vpn e :
  resolves args env docs dep svc pool →
  pool !! 0%nat = Some vpn →
  1 ≤ num_deployments args ≤ Z.of_nat (length pool) →
  prepare_deployment args 0 vpn (docs !!! dep) = Raise e →
  run args env
  = (Raise e,
     {| objects := docs ++ [docs !!! dep];
        calls := [read_namespaced_config_map (vpn_configmap_name args) (namespace args)];
        output := [] |}).
Proof.
  intros Hres Hvpn Hn Hp. unfold run. rewrite (main_resolved _ _ _ _ _ _ Hres).
  assert (pool ≠ []) as Hpool by (by intros ->).
  unfold provision. rewrite !bool_decide_false by (done || lia).
  unfold range. destruct (Z.to_nat (num_deployments args)) as [|n] eqn:Hnat; [lia|].
  cbn [seq for_each]. rewrite !bind_M. unfold instance at 1. rewrite bind_M.
  pose proof (deploy_instance_cases args (the_cluster env) dep
                (slice_to pool (num_deployments args)) 0
                (resolved_world args docs pool)) as Hd.
  assert (slice_to pool (num_deployments args) !! 0%nat = Some vpn) as Hsel.
  { unfold slice_to. rewrite decide_True by lia. rewrite lookup_take_lt by lia. done. }
  rewrite Hsel in Hd. unfold resolved_world in Hd at 1 2. cbn [objects] in Hd.
  rewrite Hp in Hd. rewrite Hd. unfold resolved_world. cbn [objects calls output].
  by rewrite bool_decide_false.
Qed.

Lemma unprepared_template_stops_witness :
  run (Sample.args 2)
    (Sample.environment_with [VDict [("kind", VStr "Deployment"); ("spec", VDict [])]]
       (Sample.cluster_with ["a.ovpn"; "b.ovpn"] Sample.accept))
  = (Raise (KeyError "metadata"),
     {| objects := [VDict [("kind", VStr "Deployment"); ("spec", VDict [])];
                    VDict [("kind", VStr "Deployment"); ("spec", VDict [])]];
        calls := [read_namespaced_config_map "vpn-configs" "stream-viewers"];
        output := [] |}).
Proof.
  apply (unprepared_template_stops (Sample.args 2)
           (Sample.environment_with [VDict [("kind", VStr "Deployment"); ("spec", VDict [])]]
              (Sample.cluster_with ["a.ovpn"; "b.ovpn"] Sample.accept))
           [VDict [("kind", VStr "Deployment"); ("spec", VDict [])]] 0 None ["a"; "b"] "a").
  - split_and!; [reflexivity..|]. eexists. split; reflexivity.
  - reflexivity.
  - simpl. lia.
  - reflexivity.
Defined.

End Fleet.

(* ================================================================== *)
(** * Keys that keep their name *)
(* ================================================================== *)

Module Stems.
Import Py K8s DeployViewers Observe Resolver.

Lemma substring_split (s : string) : ∀ k,
  (k ≤ String.length s)%nat →
  s = String.substring 0 k s +:+ String.substring k (String.length s - k) s.
Proof.
  induction s as [|c s IH]; intros [|k] Hk; simpl in *; try lia.
  - done.
  - by rewrite substring_all.
  - change (String c ?a +:+ ?b) with (String c (a +:+ b)). f_equal. apply IH. lia.
Qed.

(** A key that ends with the suffix is its stem followed by the suffix. *)
Lemma endswith_inv key suffix :
  endswith key suffix = true → key = removesuffix key suffix +:+ suffix.
Proof.
  intros H. unfold removesuffix. rewrite H. unfold endswith in H.
  case_decide as Hlen; [|discriminate]. apply bool_decide_eq_true in H.
  etrans; [apply (substring_split key (String.length key - String.length suffix)); lia|].
  f_equal.
  replace (String.length key - (String.length key - String.length suffix))%nat
    with (String.length suffix) by lia.
  exact H.
Qed.

Lemma append_cons c (s t : string) : String c s +:+ t = String c (s +:+ t).
Proof. reflexivity. Qed.

(** No [.ovpn] starts in the stem and ends in the suffix: after its dot the
    suffix has no dot. *)
Lemma prefix_straddle c stem :
  String.prefix ".ovpn" (String c stem) = false →
  String.prefix ".ovpn" (String c (stem +:+ ".ovpn")) = false.
Proof.
  destruct stem as [|c1 [|c2 [|c3 [|c4 stem]]]]; rewrite ?append_cons;
    change (EmptyString +:+ ".ovpn") with ".ovpn"; cbn [String.prefix];
    repeat (match goal with |- context [ascii_dec ?a ?b] => destruct (ascii_dec a b) end;
            subst; try done).
  by destruct stem.
Qed.

(** On a key whose stem holds no [.ovpn], line 19 removes the suffix and
    nothing else. *)
Lemma replace_clean stem :
  contains ".ovpn" stem = false →
  replace (stem +:+ ".ovpn") ".ovpn" EmptyString = stem.
Proof.
  unfold replace. induction stem as [|c stem IH]; [done|].
  cbn [contains]. intros [Hc Hstem]%orb_false_iff.
  change (String c stem +:+ ".ovpn") with (String c (stem +:+ ".ovpn")).
  cbn [replace_go]. rewrite (prefix_straddle _ _ Hc). by rewrite IH.
Qed.

(** X22. When no key that ends with [.ovpn] holds another [.ovpn] before
    its end, the names found are the keys that end with [.ovpn], in their
    order, each without its suffix; and different keys then give different
    names. *)
Theorem clean_keys_keep_their_stem keys :
  Forall (λ key, endswith key ".ovpn" = true →
                 contains ".ovpn" (removesuffix key ".ovpn") = false) keys →
  vpn_names_of_keys keys
  = map (λ key, removesuffix key ".ovpn") (filter (λ key, endswith key ".ovpn" = true) keys) ∧
  (NoDup keys → NoDup (vpn_names_of_keys keys)).
Proof.
  intros Hclean.
  assert (vpn_names_of_keys keys
          = map (λ key, removesuffix key ".ovpn")
              (filter (λ key, endswith key ".ovpn" = true) keys)) as Hnames.
  { unfold vpn_names_of_keys. induction Hclean as [|key keys Hkey _ IH]; [done|].
    rewrite !filter_cons. case_decide as Hq; [|done]. cbn [map]. rewrite IH. f_equal.
    rewrite (endswith_inv _ _ Hq) at 1. apply replace_clean. by apply Hkey. }
  split; [done|]. intros Hnd. rewrite Hnames.
  apply NoDup_fmap_2_strong; [|by apply NoDup_filter].
  intros k1 k2 [H1 _]%list_elem_of_filter [H2 _]%list_elem_of_filter E.
  by rewrite (endswith_inv _ _ H1), (endswith_inv _ _ H2), E.
Qed.

Lemma clean_keys_keep_their_stem_witness :
  vpn_names_of_keys ["us.east.ovpn"; "readme.md"; "eu-1.ovpn"] = ["us.east"; "eu-1"] ∧
  NoDup (vpn_names_of_keys ["us.east.ovpn"; "readme.md"; "eu-1.ovpn"]).
Proof.
  destruct (clean_keys_keep_their_stem ["us.east.ovpn"; "readme.md"; "eu-1.ovpn"])
    as [Hnames Hnd].
  - repeat constructor; done.
  - split; [exact Hnames|]. apply Hnd.
    repeat (apply NoDup_cons; split;
            [rewrite ?elem_of_cons, elem_of_nil; intros H; repeat destruct H as [H|H]; done|]).
    constructor.
Defined.

End Stems.

(* ================================================================== *)
(** * The exceptions of a run *)
(* ================================================================== *)

Module Raises.
Import Py K8s DeployViewers Observe PyFacts Reconciler Batch.

(** ** Reading and writing a template *)

Lemma lookup_fails_ok {A} (a : A) : lookup_fails (Ok a).
Proof. by intros e. Qed.

Lemma lookup_fails_bind {A B} (r : result A) (f : A → result B) :
  lookup_fails r → (∀ a, lookup_fails (f a)) → lookup_fails (r ≫= f).
Proof.
  intros Hr Hf e. destruct r as [a|e']; simpl.
  - apply Hf.
  - intros [= <-]. by apply Hr.
Qed.

Lemma lookup_fails_getitem o k : lookup_fails (getitem o k).
Proof.
  intros e. destruct o; simpl; try by intros [= <-].
  destruct (dict_lookup k entries); [done|]. by intros [= <-].
Qed.

Lemma lookup_fails_get o k dflt : lookup_fails (get o k dflt).
Proof. intros e. destruct o; simpl; by intros [= <-]. Qed.

Lemma lookup_fails_setitem o k v : lookup_fails (setitem o k v).
Proof. intros e. destruct o; simpl; by intros [= <-]. Qed.

Lemma lookup_fails_setdefault o k v : lookup_fails (setdefault o k v).
Proof.
  intros e. destruct o; simpl; try by intros [= <-].
  by destruct (dict_lookup k entries).
Qed.

Lemma lookup_fails_iterate o : lookup_fails (iterate o).
Proof. intros e. destruct o; simpl; by intros [= <-]. Qed.

Lemma lookup_fails_getitem_at p root : lookup_fails (getitem_at p root).
Proof.
  revert root. induction p as [|k p IH]; intros root; simpl.
  - apply lookup_fails_ok.
  - apply lookup_fails_bind; [apply lookup_fails_getitem|done].
Qed.

Lemma lookup_fails_update_at {A} p (f : value → result (value * A)) root :
  (∀ o, lookup_fails (f o)) → lookup_fails (update_at p f root).
Proof.
  intros Hf. revert root. induction p as [|k p IH]; intros root; simpl; [done|].
  apply lookup_fails_bind; [apply lookup_fails_getitem|]. intros child.
  apply lookup_fails_bind; [apply IH|]. intros [child' a]. apply lookup_fails_ok.
Qed.

Lemma lookup_fails_get_at p k dflt root : lookup_fails (get_at p k dflt root).
Proof.
  apply lookup_fails_bind; [apply lookup_fails_getitem_at|]. intros o.
  apply lookup_fails_get.
Qed.

Lemma lookup_fails_setitem_at p k v root : lookup_fails (setitem_at p k v root).
Proof.
  apply lookup_fails_bind; [|intros r; apply lookup_fails_ok].
  apply lookup_fails_update_at. intros o.
  apply lookup_fails_bind; [apply lookup_fails_setitem|]. intros o'.
  apply lookup_fails_ok.
Qed.

Lemma lookup_fails_setdefault_at p k v root : lookup_fails (setdefault_at p k v root).
Proof.
  apply lookup_fails_bind; [|intros r; apply lookup_fails_ok].
  apply lookup_fails_update_at. intros o.
  apply lookup_fails_bind; [apply lookup_fails_setdefault|]. intros o'.
  apply lookup_fails_ok.
Qed.

Lemma lookup_fails_env_map_of evs acc : lookup_fails (env_map_of evs acc).
Proof.
  revert acc. induction evs as [|ev evs IH]; intros acc; simpl.
  - apply lookup_fails_ok.
  - apply lookup_fails_bind; [apply lookup_fails_getitem|]. intros name.
    destruct (hashable name); [done|]. by intros e [= <-].
Qed.

Lemma lookup_fails_set_env box stream vpn c : lookup_fails (set_env box stream vpn c).
Proof.
  unfold set_env.
  apply lookup_fails_bind; [apply lookup_fails_get|]. intros env_vars.
  apply lookup_fails_bind; [apply lookup_fails_iterate|]. intros evs.
  apply lookup_fails_bind; [apply lookup_fails_env_map_of|]. intros env_map.
  apply lookup_fails_setitem.
Qed.

Lemma lookup_fails_update_containers box stream vpn cs :
  lookup_fails (update_containers box stream vpn cs).
Proof.
  induction cs as [|c cs IH]; simpl; [apply lookup_fails_ok|].
  apply lookup_fails_bind; [apply lookup_fails_getitem|]. intros name.
  destruct (eq_str name "viewer-box").
  - apply lookup_fails_bind; [apply lookup_fails_set_env|]. intros c'.
    apply lookup_fails_ok.
  - apply lookup_fails_bind; [done|]. intros [rest' u]. apply lookup_fails_ok.
Qed.

Lemma lookup_fails_for_containers box stream vpn containers :
  lookup_fails (for_containers box stream vpn containers).
Proof.
  destruct containers; simpl;
    repeat first [ apply lookup_fails_ok | apply lookup_fails_update_containers
                 | by intros e [= <-]
                 | apply lookup_fails_bind
                 | intros [? ?] | intros ? ].
Qed.

Lemma template_fails_lookup {A} (r : result A) : lookup_fails r → template_fails r.
Proof. intros H e He. apply H in He. by destruct e. Qed.

Lemma template_fails_bind {A B} (r : result A) (f : A → result B) :
  template_fails r → (∀ a, template_fails (f a)) → template_fails (r ≫= f).
Proof.
  intros Hr Hf e. destruct r as [a|e']; simpl.
  - apply Hf.
  - intros [= <-]. by apply Hr.
Qed.

Lemma template_fails_fstring v : template_fails (fstring v).
Proof. intros e. unfold fstring. destruct (renders v); [done|]. by intros [= <-]. Qed.

Lemma template_fails_prepare_deployment args i vpn d :
  template_fails (prepare_deployment args i vpn d).
Proof.
  unfold prepare_deployment. cbv zeta.
  repeat first
    [ apply template_fails_fstring
    | apply template_fails_lookup;
      first [ apply lookup_fails_get_at | apply lookup_fails_setitem_at
            | apply lookup_fails_setdefault_at | apply lookup_fails_ok
            | apply lookup_fails_update_at; intros ?; apply lookup_fails_for_containers ]
    | apply template_fails_bind
    | intros [? ?] | intros ? ].
Qed.

Lemma template_fails_prepare_service i label s :
  template_fails (prepare_service i label s).
Proof.
  unfold prepare_service. cbv zeta.
  repeat first
    [ apply template_fails_fstring
    | apply template_fails_lookup;
      first [ apply lookup_fails_get_at | apply lookup_fails_setitem_at
            | apply lookup_fails_setdefault_at | apply lookup_fails_ok ]
    | apply template_fails_bind | intros ? ].
Qed.

Lemma lookup_fails_find_kind kind first docs : lookup_fails (find_kind kind first docs).
Proof.
  revert first. induction docs as [|tpl docs IH]; intros first; simpl.
  - apply lookup_fails_ok.
  - destruct (truthy tpl); [|done].
    apply lookup_fails_bind; [apply lookup_fails_get|]. intros k.
    destruct (eq_str k kind); [apply lookup_fails_ok|done].
Qed.

(** ** The script *)

Section throws.
Context (Q : exn → Prop).

Lemma throws_bind {A B} (m : M A) (f : A → M B) :
  throws Q m → (∀ a, throws Q (f a)) → throws Q (m ≫= f).
Proof.
  intros Hm Hf w e w'. rewrite bind_M. destruct (m w) as [[a|e'] w1] eqn:E.
  - apply Hf.
  - intros [= <- <-]. by eapply Hm.
Qed.

Lemma throws_returns {A} (m : M A) :
  (∀ w, ∃ a w', m w = (Ok a, w')) → throws Q m.
Proof. intros Hm w e w' H. destruct (Hm w) as (a & w1 & E). congruence. Qed.

Lemma throws_ret {A} (a : A) : throws Q (mret a).
Proof. apply throws_returns. intros w. by eexists _, _. Qed.

Lemma throws_print m : throws Q (print m).
Proof. apply throws_returns. intros w. by eexists _, _. Qed.

Lemma throws_call c request : throws Q (call c request).
Proof. apply throws_returns. intros w. by eexists _, _. Qed.

Lemma throws_deepcopy o : throws Q (deepcopy o).
Proof. apply throws_returns. intros w. by eexists _, _. Qed.

Lemma throws_deref o : throws Q (deref o).
Proof. apply throws_returns. intros w. by eexists _, _. Qed.

Lemma throws_deref_all os : throws Q (deref_all os).
Proof. apply throws_returns. intros w. by eexists _, _. Qed.

Lemma throws_lift {A} (r : result A) : (∀ e, r = Raise e → Q e) → throws Q (lift r).
Proof. intros Hr w e w' [= -> <-]. by apply Hr. Qed.

Lemma throws_sys_exit {A} code : Q (SystemExit code) → throws Q (sys_exit (A := A) code).
Proof. intros H. apply throws_lift. by intros e [= <-]. Qed.

Lemma throws_mutate {A} o (f : value → result (value * A)) :
  (∀ v e, f v = Raise e → Q e) → throws Q (mutate o f).
Proof.
  intros Hf w e w'. rewrite mutate_M.
  destruct (f (objects w !!! o)) as [[v a]|e'] eqn:E; [done|].
  intros [= <- <-]. by eapply Hf.
Qed.

Lemma throws_for_each {A} (xs : list A) body :
  (∀ x, x ∈ xs → throws Q (body x)) → throws Q (for_each xs body).
Proof.
  induction xs as [|x xs IH]; intros Hbody; simpl.
  - apply throws_ret.
  - apply throws_bind; [apply Hbody; by left|]. intros _.
    apply IH. intros y Hy. apply Hbody. by right.
Qed.

Hypothesis Q_template : ∀ e, is_template_error e = true → Q e.

Lemma Q_lookup e : is_lookup_error e = true → Q e.
Proof. intros He. apply Q_template. by destruct e. Qed.

Lemma throws_apply_deployment c ns name vpn body :
  throws Q (apply_deployment c ns name vpn body).
Proof.
  apply throws_returns. intros w.
  destruct (apply_deployment_returns c ns name vpn body w) as (cs & ms & -> & _).
  by eexists _, _.
Qed.

Lemma throws_apply_service c ns name body : throws Q (apply_service c ns name body).
Proof.
  apply throws_returns. intros w.
  destruct (apply_service_returns c ns name body w) as (cs & ms & -> & _).
  by eexists _, _.
Qed.

(** A turn whose index is in range raises what preparing raises. *)
Lemma throws_instance args c base svc sel i :
  is_Some (sel !! i) → throws Q (instance args c base svc sel i).
Proof.
  intros [vpn Hi]. unfold instance, deploy_instance, expose_instance, index.
  rewrite Hi.
  apply throws_bind.
  { apply throws_bind; [by apply throws_lift|]. intros vpn'.
    apply throws_bind; [apply throws_deepcopy|]. intros o.
    apply throws_bind.
    { apply throws_mutate. intros v e He.
      by apply Q_template, (template_fails_prepare_deployment _ _ _ _ _ He). }
    intros p. apply throws_bind.
    { destruct (container_updated p); [apply throws_ret|apply throws_print]. }
    intros _. apply throws_bind; [apply throws_deref|]. intros body.
    apply throws_bind; [apply throws_apply_deployment|]. intros _. apply throws_ret. }
  intros p. apply throws_bind; [|intros _; apply throws_print].
  destruct svc as [k|]; [|apply throws_ret].
  apply throws_bind; [apply throws_deepcopy|]. intros o.
  apply throws_bind.
  { apply throws_mutate. intros v e He.
    by apply Q_template, (template_fails_prepare_service _ _ _ _ He). }
  intros name. apply throws_bind; [apply throws_deref|]. intros body.
  apply throws_apply_service.
Qed.

Hypothesis Q_exit : Q (SystemExit 1).

Lemma throws_provision args c base svc available :
  throws Q (provision args c base svc available).
Proof.
  unfold provision. repeat case_bool_decide.
  - apply throws_bind; [apply throws_print|]. intros _. by apply throws_sys_exit.
  - apply throws_bind; [apply throws_print|]. intros _. by apply throws_sys_exit.
  - apply throws_bind; [|intros _; apply throws_print].
    apply throws_for_each. intros i Hi. apply throws_instance.
    assert (num_deployments args ≤ Z.of_nat (length available)) as Hn by lia.
    by apply (selected_lookup _ _ _ Hn) in Hi as [-> ?].
Qed.

Lemma throws_get_available_vpn_configs c ns name :
  throws Q (get_available_vpn_configs c ns name).
Proof.
  unfold get_available_vpn_configs, call_read_config_map.
  apply throws_bind; [apply throws_returns; intros w; by eexists _, _|].
  intros [[data|]|status].
  - apply throws_bind; [|intros _; apply throws_ret].
    case_bool_decide; [apply throws_print|apply throws_ret].
  - apply throws_bind; [apply throws_print|]. intros _. by apply throws_sys_exit.
  - apply throws_bind; [|intros _; by apply throws_sys_exit].
    destruct (status =? 404); [|apply throws_print].
    repeat (apply throws_bind; [apply throws_print|]; intros _). apply throws_print.
Qed.

Lemma throws_main args env :
  (∀ e, template_documents env = Raise e → Q e) →
  throws Q (main args env).
Proof.
  intros Hload. unfold main.
  apply throws_bind.
  { unfold load_configuration. destruct (kube_config env); [apply throws_ret|].
    destruct (incluster_config env); [apply throws_ret|].
    apply throws_bind; [apply throws_print|]. intros _. by apply throws_sys_exit. }
  intros _. apply throws_bind.
  { intros w e w'. unfold load_template.
    destruct (template_documents env) as [docs|e'] eqn:E; [done|].
    intros [= <- <-]. by apply Hload. }
  intros templates. apply throws_bind; [apply throws_deref_all|]. intros documents.
  apply throws_bind.
  { apply throws_lift. intros e He. by apply Q_lookup, (lookup_fails_find_kind _ _ _ _ He). }
  intros found. apply throws_bind.
  { apply throws_lift. intros e He. by apply Q_lookup, (lookup_fails_find_kind _ _ _ _ He). }
  intros found'. destruct (_ <$> found) as [base|].
  - apply throws_bind; [apply throws_get_available_vpn_configs|]. intros available.
    apply throws_provision.
  - apply throws_bind; [apply throws_print|]. intros _. by apply throws_sys_exit.
Qed.

End throws.



End Raises.
